(** * balance-daily: recurrence evaluation, period aggregation, daily targets

    A shallow embedding of the pure computations of the application:

    - [Recurrence.isWorkoutOnDate]       (src/lib/recurrence.ts)
    - [Dashboard.aggregateForPeriod], the period totals, the average and
      the streak loop; [DashboardStats.getPeriodDates] and the month
      calendar; the exercise chart and the macro percentages of
      [DashboardCharts]; the figures of [DashboardToday]
                                         (src/pages/Dashboard.tsx)
    - the week strip and the day list of [Training]
                                         (src/pages/Training.tsx)
    - [Storage.calculateDailyTargets], [Estimate.estimateCaloriesBurned],
      the records kept in [LocalStorage] and the rows read and written
      by [Supabase]                      (src/lib/storage.ts)

    together with the part of the JavaScript runtime and of date-fns these
    functions observe: string comparison, truthiness, floating-point
    arithmetic, [Math.round], objects used as maps, arrays, the local
    calendar fields of a [Date], [format], [parseISO], [addDays],
    [startOfWeek], [endOfWeek], [startOfMonth], [endOfMonth] and
    [eachDayOfInterval]. *)

From Stdlib Require Import ZArith QArith Qround Qabs List String Ascii Bool Lia.
From Stdlib Require Import DecimalString Lqa.
From Stdlib Require Nnat DecimalFacts DecimalPos DecimalN.
Import ListNotations.

#[local] Open Scope Z_scope.

(* ================================================================== *)
(** * JavaScript values the code relies on *)
(* ================================================================== *)

Module JS.

(** ** Strings.  The strings compared by the code are ASCII; relational
    comparison is lexicographic on code units, a proper prefix being
    smaller. *)

Definition str_eq (a b : string) : bool := String.eqb a b.
Definition str_le (a b : string) : bool := String.leb a b.
Definition str_gt (a b : string) : bool := String.ltb b a.

(** ** Truthiness of optional fields ([undefined]/[null] is [None]). *)

Definition truthy_bool (b : option bool) : bool :=
  match b with Some true => true | _ => false end.

Definition truthy_str (s : option string) : bool :=
  match s with
  | Some s => negb (String.eqb s EmptyString)
  | None => false
  end.

Definition truthy_num (n : option Z) : bool :=
  match n with
  | Some n => negb (n =? 0)
  | None => false
  end.

(** Comparisons in which one side may be [undefined]: [===] with a
    string is then false, and so are [>] and [<], which compare with
    NaN. *)

Definition is_str (o : option string) (s : string) : bool :=
  match o with Some x => str_eq x s | None => false end.

Definition str_gt_opt (a : string) (o : option string) : bool :=
  match o with Some b => str_gt a b | None => false end.

Definition num_lt_opt (o : option Z) (n : Z) : bool :=
  match o with Some x => x <? n | None => false end.

(** ** Numbers.  A number is a binary64 float.  Counts, day numbers and
    the minutes and calories of a workout (which the training form reads
    with [parseInt] or computes with [Math.round]) are integers far below
    2^53, on which [+], [-] and [%] are exact: they are computed in [Z].
    Where a decimal literal, a measure that need not be whole (the
    calories and grams of a meal, which the nutrition form reads with
    [parseFloat]; a weight) or a division comes in, the number is a
    rational and every operation rounds its exact result to a float: [fl]
    is that rounding. *)

Section Numbers.
Variable fl : Q -> Q.

Definition lit (c : Q) : Q := fl c.
Definition add (x y : Q) : Q := fl (x + y).
Definition sub (x y : Q) : Q := fl (x - y).
Definition mul (x y : Q) : Q := fl (x * y).
Definition div (x y : Q) : Q := fl (x / y).

End Numbers.

(** Half the distance, relative to 1, between two floats: 2^-53. *)
Definition unit_roundoff : Q := 1 # 9007199254740992.

(** The normal range: zero, and the magnitudes from 2^-1022 to 2^1023. *)
Definition min_normal : Q := 1 # (2 ^ 1022).
Definition max_normal : Q := inject_Z (2 ^ 1023).

Definition normal (x : Q) : Prop :=
  (x == 0 \/ (min_normal <= Qabs x /\ Qabs x <= max_normal))%Q.

(** What is used of the rounding to nearest of binary64: in the normal
    range the relative error is at most [unit_roundoff], and the integers
    and half-integers up to 2^52 are floats. *)
Record binary64 (fl : Q -> Q) : Prop := {
  fl_error : forall x,
    normal x -> (Qabs (fl x - x) <= Qabs x * unit_roundoff)%Q;
  fl_exact : forall x z,
    (x == inject_Z z / 2)%Q -> Z.abs z <= 2 ^ 53 -> (fl x == x)%Q
}.

(** Arithmetic without rounding error. *)
Definition exact (x : Q) : Q := x.

(** The integer nearest to [n / d], a tie going to the even one. *)
Definition round_half_even (n d : Z) : Z :=
  let q := n / d in
  let r := n mod d in
  if 2 * r <? d then q
  else if d <? 2 * r then q + 1
  else if Z.even q then q else q + 1.

(** [a / d] divided by [2^e], as a fraction. *)
Definition scaled (a d e : Z) : Z * Z :=
  if 0 <=? e then (a, d * 2 ^ e) else (a * 2 ^ (- e), d).

(** The exponent [e] at which [a / d] divided by [2^e] has 53 bits: it
    lies in [2^52, 2^53). *)
Definition binade (a d : Z) : Z :=
  let e0 := Z.log2 a - Z.log2 d - 53 in
  let '(N, D) := scaled a d e0 in
  if N <? 2 ^ 53 * D then e0 else e0 + 1.

Definition pow2 (e : Z) : Q :=
  if 0 <=? e then inject_Z (2 ^ e) else 1 # Z.to_pos (2 ^ (- e)).

(** Rounding to the nearest number of 53 significant bits, ties to even:
    the rounding of binary64 but for the bounds on the exponent. *)
Definition round53 (x : Q) : Q :=
  let n := Qnum x in
  let d := Zpos (Qden x) in
  if n =? 0 then 0%Q
  else
    let e := binade (Z.abs n) d in
    let '(N, D) := scaled (Z.abs n) d e in
    (inject_Z (Z.sgn n * round_half_even N D) * pow2 e)%Q.

(** [Math.round x] is the integer nearest to [x], a tie going up; it is
    exact. *)
Definition Math_round (x : Q) : Z := Qfloor (x + (1 # 2))%Q.

(** [x > y] on numbers. *)
Definition num_gt (x y : Q) : bool := negb (Qle_bool x y).

(** ** Property reads.  [table[key]] on an object literal finds the own
    property of that name; failing that, the property of that name which
    the literal inherits from [Object.prototype]; failing that, it is
    [undefined].  An inherited property is a function, or for [__proto__]
    the prototype itself: an object, which is truthy and is NaN where a
    number is wanted. *)
Inductive Property (A : Type) : Type :=
  | own (value : A)
  | inherited
  | undefined.
Arguments own {A} value.
Arguments inherited {A}.
Arguments undefined {A}.

(** The properties of [Object.prototype] that have a string for a name
    (ECMAScript, "Properties of the Object Prototype Object" and its
    annex B), in a realm where no script has added to them. *)
Definition Object_prototype : list string :=
  [ "constructor"; "hasOwnProperty"; "isPrototypeOf";
    "propertyIsEnumerable"; "toLocaleString"; "toString"; "valueOf";
    "__proto__"; "__defineGetter__"; "__defineSetter__";
    "__lookupGetter__"; "__lookupSetter__" ]%string.

(** The own property of an object literal under a name. *)
Fixpoint getOwnProperty {A : Type} (table : list (string * A)) (key : string)
  : option A :=
  match table with
  | [] => None
  | (k, v) :: rest =>
      if String.eqb k key then Some v else getOwnProperty rest key
  end.

(** [table[key]] on an object literal used as a map. *)
Definition lookup {A : Type} (table : list (string * A)) (key : string)
  : Property A :=
  match getOwnProperty table key with
  | Some v => own v
  | None =>
      if existsb (String.eqb key) Object_prototype then inherited
      else undefined
  end.

(** [x || d] where a number is wanted, [x] a property read from a table
    of numbers: [d] when [x] is [undefined] or 0, and NaN, which is
    [None], when [x] is an inherited object. *)
Definition num_or (x : Property Q) (d : Q) : option Q :=
  match x with
  | own x => Some (if Qeq_bool x 0 then d else x)
  | inherited => None
  | undefined => Some d
  end.

(** [a % b] is the remainder of the division truncated toward zero. *)
Definition js_rem (a b : Z) : Z := Z.rem a b.

(** [Array.prototype.includes] on an array of numbers. *)
Definition includes (l : list Z) (x : Z) : bool := existsb (Z.eqb x) l.

End JS.

(* ================================================================== *)
(** * The proleptic Gregorian calendar of [Date] *)
(* ================================================================== *)

Module Calendar.

(** Days are counted from 1970-01-01 (day 0), as ECMAScript's [Day(t)].
    The conversion works on 400-year eras of 146097 days that start on
    the first of March, so that the leap day is the last of its year. *)

Definition daysPerEra : Z := 146097.
Definition eraShift : Z := 719468.

(** First day of the [y]-th year of an era. *)
Definition year_start (y : Z) : Z := 365 * y + y / 4 - y / 100.

(** Year of the era (0..399) of the [doe]-th day of an era. *)
Definition yoe_of (doe : Z) : Z :=
  (doe - doe / 1460 + doe / 36524 - doe / 146096) / 365.

(** Month (1..12) and day of month of the [doy]-th day of a year that
    starts in March. *)
Definition month_day_of_doy (doy : Z) : Z * Z :=
  let mp := (5 * doy + 2) / 153 in
  let d := doy - (153 * mp + 2) / 5 + 1 in
  (if mp <? 10 then mp + 3 else mp - 9, d).

Definition civil_of_doe (doe : Z) : Z * Z * Z :=
  let yoe := yoe_of doe in
  let '(m, d) := month_day_of_doy (doe - year_start yoe) in
  (if m <=? 2 then yoe + 1 else yoe, m, d).

Definition shift_years (k : Z) (c : Z * Z * Z) : Z * Z * Z :=
  let '(y, m, d) := c in (y + k, m, d).

(** [getFullYear], [getMonth] + 1 and [getDate] of day number [z]. *)
Definition civil_from_days (z : Z) : Z * Z * Z :=
  let z := z + eraShift in
  shift_years (400 * (z / daysPerEra)) (civil_of_doe (z mod daysPerEra)).

(** Day number of a year, month (1..12) and day of month: [MakeDay]. *)
Definition days_from_civil (y m d : Z) : Z :=
  let y := if m <=? 2 then y - 1 else y in
  let era := y / 400 in
  let yoe := y mod 400 in
  let doy := (153 * (if m >? 2 then m - 3 else m + 9) + 2) / 5 + d - 1 in
  era * daysPerEra + (year_start yoe + doy) - eraShift.

Definition is_leap (y : Z) : bool :=
  ((y mod 4 =? 0) && negb (y mod 100 =? 0)) || (y mod 400 =? 0).

Definition days_in_month (y m : Z) : Z :=
  if m =? 2 then (if is_leap y then 29 else 28)
  else if (m =? 4) || (m =? 6) || (m =? 9) || (m =? 11) then 30
  else 31.

Definition valid_civil (y m d : Z) : bool :=
  (1 <=? m) && (m <=? 12) && (1 <=? d) && (d <=? days_in_month y m).

(** [WeekDay(t)]: 0 is Sunday; day 0 was a Thursday. *)
Definition week_day (z : Z) : Z := (z + 4) mod 7.

(** The date as one number, [yyyymmdd]; it orders dates as the calendar
    does. *)
Definition civil_key (c : Z * Z * Z) : Z :=
  let '(y, m, d) := c in y * 10000 + m * 100 + d.

Definition date_key (z : Z) : Z := civil_key (civil_from_days z).

(** First and last day whose year has four digits and is at least 1. *)
Definition firstDay : Z := days_from_civil 1 1 1.
Definition lastDay : Z := days_from_civil 9999 12 31.

Definition four_digit_year (z : Z) : Prop := firstDay <= z <= lastDay.

End Calendar.

(* ================================================================== *)
(** * [Date] and the date-fns functions the code calls *)
(* ================================================================== *)

Module DateFns.
Import Calendar.

(** A (valid) [Date] as the code observes it: through its local calendar
    day, which [format], [getDay] and [addDays] read, and its local time
    of day in milliseconds, which [setHours(0, 0, 0, 0)] clears. *)
Record JSDate : Type := mkDate { localDay : Z; timeInDay : Z }.

Definition msPerDay : Z := 1000 * 60 * 60 * 24.

Definition getFullYear (t : JSDate) : Z :=
  let '(y, _, _) := civil_from_days (localDay t) in y.
(** [getMonth] counts from 0. *)
Definition getMonth (t : JSDate) : Z :=
  let '(_, m, _) := civil_from_days (localDay t) in m - 1.
Definition getDate (t : JSDate) : Z :=
  let '(_, _, d) := civil_from_days (localDay t) in d.
Definition getDay (t : JSDate) : Z := week_day (localDay t).

Definition setHours0 (t : JSDate) : JSDate :=
  {| localDay := localDay t; timeInDay := 0 |}.

(** [addDays] is [setDate(getDate() + amount)]: the calendar day moves,
    the time of day stays. *)
Definition addDays (t : JSDate) (amount : Z) : JSDate :=
  {| localDay := localDay t + amount; timeInDay := timeInDay t |}.

(** ** [format(date, 'yyyy-MM-dd')] *)

Definition toString (n : Z) : string :=
  NilEmpty.string_of_uint (N.to_uint (Z.to_N n)).

Fixpoint zeros (n : nat) : string :=
  match n with
  | O => EmptyString
  | S k => String "0" (zeros k)
  end.

Definition padStart0 (s : string) (targetLength : nat) : string :=
  (zeros (targetLength - String.length s) ++ s)%string.

Definition addLeadingZeros (number : Z) (targetLength : nat) : string :=
  let sign := if number <? 0 then "-"%string else EmptyString in
  (sign ++ padStart0 (toString (Z.abs number)) targetLength)%string.

(** The token [yyyy] prints the year of the era: year 0 is 1 BC. *)
Definition format (t : JSDate) : string :=
  let signedYear := getFullYear t in
  let year := if signedYear >? 0 then signedYear else 1 - signedYear in
  (addLeadingZeros year 4 ++ "-" ++
   addLeadingZeros (getMonth t + 1) 2 ++ "-" ++
   addLeadingZeros (getDate t) 2)%string.

(** ** [parseISO], for the complete calendar date [YYYY-MM-DD], the form
    the records store.  The result is local midnight of that day; a date
    that does not exist is an Invalid Date, [None].  On any other string
    [parseISO_date] gives [None], which is not what date-fns does with
    the other ISO 8601 forms it reads (a time after the date, a week or
    an ordinal date, a year of other than four digits): this is the
    parser of the example hosts only, which are run on dates of this
    form.  The evaluator below takes the parser as a parameter, and what
    is proved of it holds for any. *)

Definition digit_of_char (c : ascii) : option Z :=
  let n := Z.of_N (N_of_ascii c) in
  if (48 <=? n) && (n <=? 57) then Some (n - 48) else None.

Definition number2 (a b : ascii) : option Z :=
  match digit_of_char a, digit_of_char b with
  | Some x, Some y => Some (10 * x + y)
  | _, _ => None
  end.

Definition number4 (a b c d : ascii) : option Z :=
  match number2 a b, number2 c d with
  | Some x, Some y => Some (100 * x + y)
  | _, _ => None
  end.

Definition parseISO_date (s : string) : option JSDate :=
  match s with
  | String y3 (String y2 (String y1 (String y0 (String "-"
    (String m1 (String m0 (String "-"
    (String d1 (String d0 EmptyString))))))))) =>
      match number4 y3 y2 y1 y0, number2 m1 m0, number2 d1 d0 with
      | Some y, Some m, Some d =>
          if valid_civil y m d
          then Some {| localDay := days_from_civil y m d; timeInDay := 0 |}
          else None
      | _, _, _ => None
      end
  | _ => None
  end.

(** ** Epoch time *)

Section LocalTime.
(** The offset of local time from UTC, in milliseconds, in force at a
    local time; it changes with daylight saving. *)
Variable utcOffset : JSDate -> Z.

Definition getTime (t : JSDate) : Z :=
  localDay t * msPerDay + timeInDay t - utcOffset t.
End LocalTime.

Definition ymd (y m d : Z) : JSDate :=
  {| localDay := days_from_civil y m d; timeInDay := 0 |}.

End DateFns.

(** What the code takes from where it runs: the rounding of its floats,
    the time zone, and date-fns' [parseISO], whose result is [None] for an
    Invalid Date. *)
Module Host.

Record t : Type := mk {
  fl : Q -> Q;
  utcOffset : DateFns.JSDate -> Z;
  parseISO : string -> option DateFns.JSDate
}.

End Host.

(* ================================================================== *)
(** * Records (src/types/index.ts) *)
(* ================================================================== *)

Inductive ExerciseType : Type :=
  gym | running | cycling | yoga | swimming | hiking | other.

Inductive Intensity : Type := low | medium | high.

Inductive MealType : Type := breakfast | lunch | dinner | snack.

Module Workout.

(** Modelled from the spec: the recurrence fields, which the [Workout]
    interface under src/types does not declare yet.  Their types are the
    ones recurrence.ts and storage.ts use them at: an optional tag, an
    optional day-count step, an optional array of weekday numbers and an
    optional date string. *)
Record t : Type := mk {
  id : string;
  date : string;                       (* YYYY-MM-DD *)
  time : string;                       (* HH:mm *)
  exerciseType : ExerciseType;
  duration : Z;                        (* minutes *)
  intensity : Intensity;
  caloriesBurned : Z;
  recurring : option bool;
  recurrenceType : option string;      (* none, daily, weekly, custom *)
  recurrenceInterval : option Z;
  recurrenceDays : option (list Z);    (* 0-6, Sun-Sat *)
  recurrenceEnd : option string        (* YYYY-MM-DD *)
}.

End Workout.

Module Meal.

(** The four totals are the sums the nutrition form takes of what it
    reads with [parseFloat]: floats, whole or not. *)
Record t : Type := mk {
  id : string;
  date : string;                       (* YYYY-MM-DD *)
  time : string;                       (* HH:mm *)
  mealType : MealType;
  totalCalories : Q;
  totalProtein : Q;                    (* g *)
  totalCarbs : Q;                      (* g *)
  totalFat : Q                         (* g *)
}.

End Meal.

(* ================================================================== *)
(** * The recurrence evaluator (src/lib/recurrence.ts) *)
(* ================================================================== *)

Module Recurrence.
Import DateFns.

Section Evaluator.

Variable host : Host.t.

(** Lines 31-37: both dates at local midnight, the difference of their
    epoch times in days, rounded. *)
Definition diffDays (start0 targetDate : JSDate) : Z :=
  let start := setHours0 start0 in
  let target := setHours0 targetDate in
  let diffMs := getTime (Host.utcOffset host) target
                - getTime (Host.utcOffset host) start in
  JS.Math_round (JS.div (Host.fl host) (inject_Z diffMs) (inject_Z msPerDay)).

Definition isWorkoutOnDate (workout : Workout.t) (targetDate : JSDate)
  : bool :=
  let targetDateStr := format targetDate in
  (* 1. Exact date match *)
  if JS.str_eq (Workout.date workout) targetDateStr then true
  (* 2. Recurrence match: only if workout started on or before targetDate *)
  else if JS.truthy_bool (Workout.recurring workout)
          && JS.truthy_str (Workout.recurrenceType workout)
          && negb (JS.is_str (Workout.recurrenceType workout) "none")
          && JS.str_le (Workout.date workout) targetDateStr
  then
    (* Check end date *)
    if JS.truthy_str (Workout.recurrenceEnd workout)
       && JS.str_gt_opt targetDateStr (Workout.recurrenceEnd workout)
    then false
    else if JS.is_str (Workout.recurrenceType workout) "daily" then true
    else if JS.is_str (Workout.recurrenceType workout) "weekly" then
      match Workout.recurrenceDays workout with
      | Some recurrenceDays =>
          JS.includes recurrenceDays (getDay targetDate)
      | None => false
      end
    else if JS.is_str (Workout.recurrenceType workout) "custom" then
      if negb (JS.truthy_num (Workout.recurrenceInterval workout))
         || JS.num_lt_opt (Workout.recurrenceInterval workout) 1
      then false
      else
        match Host.parseISO host (Workout.date workout),
              Workout.recurrenceInterval workout with
        | Some start, Some recurrenceInterval =>
            let d := diffDays start targetDate in
            (d >=? 0) && (JS.js_rem d recurrenceInterval =? 0)
        | _, _ => false            (* NaN compares false *)
        end
    else false
  else false.

End Evaluator.

(** A host in UTC, whose stored dates are calendar dates. *)
Definition utc : Host.t :=
  {| Host.fl := JS.round53;
     Host.utcOffset := fun _ => 0;
     Host.parseISO := parseISO_date |}.

Definition isWorkoutOnDate_utc : Workout.t -> JSDate -> bool :=
  isWorkoutOnDate utc.

(** A workout of the given schedule, the other fields fixed. *)
Definition scheduled (date : string) (recurring : option bool)
    (type : option string) (interval : option Z) (days : option (list Z))
    (until : option string) : Workout.t :=
  Workout.mk "w" date "07:30" running 30 medium 300
             recurring type interval days until.

End Recurrence.

(* ================================================================== *)
(** * The dashboard (src/pages/Dashboard.tsx) *)
(* ================================================================== *)

(** One entry of [periodData]; the chart label is left out. *)
Module DayData.

Record t : Type := mk {
  date : DateFns.JSDate;
  caloriesIn : Q;
  caloriesOut : Z;
  balance : Q;
  protein : Q;
  carbs : Q;
  fat : Q;
  workoutMinutes : Z;
  workoutCount : Z;
  workouts : list Workout.t
}.

End DayData.

(** The numeric part of [totalStats]. *)
Module Totals.

Record t : Type := mk {
  caloriesIn : Q;
  caloriesOut : Z;
  protein : Q;
  carbs : Q;
  fat : Q;
  workoutMinutes : Z;
  workoutCount : Z
}.

End Totals.

Module Dashboard.
Import DateFns.

(** [list.reduce(f, init)] *)
Definition reduce {A B : Type} (l : list A) (f : B -> A -> B) (init : B) : B :=
  fold_left f l init.

Section Dashboard.

Variable host : Host.t.

#[local] Abbreviation isWorkoutOnDate := (Recurrence.isWorkoutOnDate host).

(** The sums of what the meals hold are sums of floats, [[+]] and [[-]];
    the sums of what the workouts hold are sums of integers. *)
#[local] Notation "x [+] y" := (JS.add (Host.fl host) x y)
  (at level 50, left associativity).
#[local] Notation "x [-] y" := (JS.sub (Host.fl host) x y)
  (at level 50, left associativity).

Definition aggregateForPeriod (dates : list JSDate)
    (workouts : list Workout.t) (meals : list Meal.t) : list DayData.t :=
  map (fun day =>
    let ds := format day in
    let dayWorkouts := filter (fun w => isWorkoutOnDate w day) workouts in
    let dayMeals := filter (fun m => JS.str_eq (Meal.date m) ds) meals in
    let caloriesIn :=
      reduce dayMeals (fun s m => s [+] Meal.totalCalories m) 0%Q in
    let caloriesOut :=
      reduce dayWorkouts (fun s w => s + Workout.caloriesBurned w) 0 in
    let protein :=
      reduce dayMeals (fun s m => s [+] Meal.totalProtein m) 0%Q in
    let carbs := reduce dayMeals (fun s m => s [+] Meal.totalCarbs m) 0%Q in
    let fat := reduce dayMeals (fun s m => s [+] Meal.totalFat m) 0%Q in
    let workoutMinutes :=
      reduce dayWorkouts (fun s w => s + Workout.duration w) 0 in
    {| DayData.date := day;
       DayData.caloriesIn := caloriesIn;
       DayData.caloriesOut := caloriesOut;
       DayData.balance := caloriesIn [-] inject_Z caloriesOut;
       DayData.protein := protein;
       DayData.carbs := carbs;
       DayData.fat := fat;
       DayData.workoutMinutes := workoutMinutes;
       DayData.workoutCount := Z.of_nat (List.length dayWorkouts);
       DayData.workouts := dayWorkouts |})
    dates.

(** The [totals] of [totalStats]. *)
Definition totalStats (periodData : list DayData.t) : Totals.t :=
  reduce periodData
    (fun acc d =>
       {| Totals.caloriesIn := Totals.caloriesIn acc [+] DayData.caloriesIn d;
          Totals.caloriesOut := Totals.caloriesOut acc + DayData.caloriesOut d;
          Totals.protein := Totals.protein acc [+] DayData.protein d;
          Totals.carbs := Totals.carbs acc [+] DayData.carbs d;
          Totals.fat := Totals.fat acc [+] DayData.fat d;
          Totals.workoutMinutes :=
            Totals.workoutMinutes acc + DayData.workoutMinutes d;
          Totals.workoutCount :=
            Totals.workoutCount acc + DayData.workoutCount d |})
    {| Totals.caloriesIn := 0%Q; Totals.caloriesOut := 0;
       Totals.protein := 0%Q; Totals.carbs := 0%Q; Totals.fat := 0%Q;
       Totals.workoutMinutes := 0; Totals.workoutCount := 0 |}.

(** The balance the period card shows:
    [totalStats.caloriesIn - totalStats.caloriesOut]. *)
Definition periodBalance (totalStats : Totals.t) : Q :=
  Totals.caloriesIn totalStats [-] inject_Z (Totals.caloriesOut totalStats).

Definition avgCalories (periodDates : list JSDate) (totalStats : Totals.t)
  : Z :=
  let n := Z.of_nat (List.length periodDates) in
  if negb (n =? 0)
  then JS.Math_round
         (JS.div (Host.fl host) (Totals.caloriesIn totalStats) (inject_Z n))
  else 0.

(** ** The streak *)

Definition hasActivity (workouts : list Workout.t) (meals : list Meal.t)
    (checkDate : JSDate) : bool :=
  let ds := format checkDate in
  existsb (fun w => isWorkoutOnDate w checkDate) workouts
  || existsb (fun m => JS.str_eq (Meal.date m) ds) meals.

(** The [while (true)] loop; [None] when the fuel runs out before the
    loop breaks. *)
Fixpoint streak_loop (workouts : list Workout.t) (meals : list Meal.t)
    (fuel : nat) (streak : Z) (checkDate : JSDate) : option Z :=
  match fuel with
  | O => None
  | S fuel =>
      if negb (hasActivity workouts meals checkDate) then Some streak
      else streak_loop workouts meals fuel (streak + 1) (addDays checkDate (-1))
  end.

(** The streak shown, the loop started at today's date. *)
Definition currentStreak (fuel : nat) (workouts : list Workout.t)
    (meals : list Meal.t) (today : JSDate) : option Z :=
  streak_loop workouts meals fuel 0 today.

End Dashboard.

End Dashboard.

(* ================================================================== *)
(** * Daily targets (src/lib/storage.ts) *)
(* ================================================================== *)

Module UserProfile.

Record t : Type := mk {
  age : Q;
  weight : Q;                            (* kg *)
  height : Q;                            (* cm *)
  sex : string;                          (* male, female *)
  activityLevel : string;
  goal : string;                         (* lose_fat, gain_muscle, maintain *)
  onboardingComplete : bool
}.

End UserProfile.

Module DailyTargets.

Record t : Type := mk {
  calories : Z;
  protein : Z;
  carbs : Z;
  fat : Z
}.

End DailyTargets.

Module Storage.

Section Targets.
Variable fl : Q -> Q.

#[local] Open Scope Q_scope.

#[local] Notation "x [+] y" := (JS.add fl x y)
  (at level 50, left associativity).
#[local] Notation "x [-] y" := (JS.sub fl x y)
  (at level 50, left associativity).
#[local] Notation "x [*] y" := (JS.mul fl x y)
  (at level 40, left associativity).
#[local] Notation "x [/] y" := (JS.div fl x y)
  (at level 40, left associativity).
#[local] Abbreviation lit := (JS.lit fl).

Definition activityMultipliers : list (string * Q) :=
  [ ("sedentary"%string, lit 1.2); ("light"%string, lit 1.375);
    ("moderate"%string, lit 1.55); ("active"%string, lit 1.725);
    ("very_active"%string, lit 1.9) ].

(** The targets; [None] stands for the targets that are all NaN, which
    is what the code returns when the activity level names a property
    that [activityMultipliers] inherits: the multiplier is then an
    object. *)
Definition calculateDailyTargets (profile : UserProfile.t)
  : option DailyTargets.t :=
  (* Mifflin-St Jeor *)
  let bmr :=
    if JS.str_eq (UserProfile.sex profile) "male"
    then 10 [*] UserProfile.weight profile
         [+] lit 6.25 [*] UserProfile.height profile
         [-] 5 [*] UserProfile.age profile [+] 5
    else 10 [*] UserProfile.weight profile
         [+] lit 6.25 [*] UserProfile.height profile
         [-] 5 [*] UserProfile.age profile [-] 161 in
  match JS.num_or (JS.lookup activityMultipliers
                             (UserProfile.activityLevel profile))
                  (lit 1.55) with
  | None => None
  | Some multiplier =>
  let tdee := bmr [*] multiplier in
  (* Adjust for goal *)
  let tdee :=
    if JS.str_eq (UserProfile.goal profile) "lose_fat" then tdee [-] 400
    else if JS.str_eq (UserProfile.goal profile) "gain_muscle"
    then tdee [+] 300
    else tdee in
  let calories := JS.Math_round tdee in
  (* Macro distribution *)
  let '(proteinPct, carbsPct, fatPct) :=
    if JS.str_eq (UserProfile.goal profile) "lose_fat"
    then (lit 0.35, lit 0.35, lit 0.30)
    else if JS.str_eq (UserProfile.goal profile) "gain_muscle"
    then (lit 0.30, lit 0.45, lit 0.25)
    else (lit 0.25, lit 0.45, lit 0.30) in
  Some
  {| DailyTargets.calories := calories;
     DailyTargets.protein :=
       JS.Math_round ((inject_Z calories [*] proteinPct) [/] 4);
     DailyTargets.carbs :=
       JS.Math_round ((inject_Z calories [*] carbsPct) [/] 4);
     DailyTargets.fat :=
       JS.Math_round ((inject_Z calories [*] fatPct) [/] 9) |}
  end.

End Targets.

End Storage.

(* ================================================================== *)
(** * The daily targets as the formulas state them *)
(* ================================================================== *)

Module TargetFormulas.

#[local] Open Scope Q_scope.

Inductive Sex : Type := Male | Female.
Inductive Goal : Type := LoseFat | GainMuscle | Maintain.

Definition sex_of (s : string) : option Sex :=
  if String.eqb s "male" then Some Male
  else if String.eqb s "female" then Some Female
  else None.

Definition goal_of (s : string) : option Goal :=
  if String.eqb s "lose_fat" then Some LoseFat
  else if String.eqb s "gain_muscle" then Some GainMuscle
  else if String.eqb s "maintain" then Some Maintain
  else None.

(** Basal metabolic rate, Mifflin-St Jeor. *)
Definition basal_metabolic_rate (s : Sex) (weight height age : Q) : Q :=
  match s with
  | Male => 10 * weight + 6.25 * height - 5 * age + 5
  | Female => 10 * weight + 6.25 * height - 5 * age - 161
  end.

(** Activity multiplier, 1.55 for a level that is not recognised. *)
Definition activity_multiplier (level : string) : Q :=
  if String.eqb level "sedentary" then 1.2
  else if String.eqb level "light" then 1.375
  else if String.eqb level "moderate" then 1.55
  else if String.eqb level "active" then 1.725
  else if String.eqb level "very_active" then 1.9
  else 1.55.

Definition goal_adjustment (g : Goal) : Q :=
  match g with
  | LoseFat => - 400
  | GainMuscle => 300
  | Maintain => 0
  end.

(** Share of the calories, in percent, for protein, carbs and fat. *)
Definition macro_percent (g : Goal) : Z * Z * Z :=
  match g with
  | LoseFat => (35, 35, 30)%Z
  | GainMuscle => (30, 45, 25)%Z
  | Maintain => (25, 45, 30)%Z
  end.

Definition kcal_per_gram_protein : Z := 4.
Definition kcal_per_gram_carbs : Z := 4.
Definition kcal_per_gram_fat : Z := 9.

(** Grams of a macro: its share of the calories at its energy density. *)
Definition grams (calories percent kcal_per_gram : Z) : Z :=
  JS.Math_round
    (inject_Z calories * (inject_Z percent / 100) / inject_Z kcal_per_gram).

Definition daily_targets (s : Sex) (g : Goal) (level : string)
    (weight height age : Q) : DailyTargets.t :=
  let tee := basal_metabolic_rate s weight height age
             * activity_multiplier level in
  let calories := JS.Math_round (tee + goal_adjustment g) in
  let '(p, c, f) := macro_percent g in
  {| DailyTargets.calories := calories;
     DailyTargets.protein := grams calories p kcal_per_gram_protein;
     DailyTargets.carbs := grams calories c kcal_per_gram_carbs;
     DailyTargets.fat := grams calories f kcal_per_gram_fat |}.

End TargetFormulas.

(* ================================================================== *)
(** * Objects and arrays *)
(* ================================================================== *)

(** An object used as a map: its own properties in the order they were
    added, which is the order [Object.entries] lists them in (no key is
    an array index). *)
Module JSObject.

Section Object.
Context {K V : Type}.
Variable eqb : K -> K -> bool.

(** [o[k]]; [None] is [undefined]. *)
Fixpoint get (o : list (K * V)) (k : K) : option V :=
  match o with
  | [] => None
  | (k', v) :: rest => if eqb k' k then Some v else get rest k
  end.

(** [o[k] = v]: an own property keeps its place, a new one goes last. *)
Fixpoint set (o : list (K * V)) (k : K) (v : V) : list (K * V) :=
  match o with
  | [] => [(k, v)]
  | (k', v') :: rest =>
      if eqb k' k then (k', v) :: rest else (k', v') :: set rest k v
  end.

(** [o[k].field op= ...] on an entry that is there. *)
Definition update (o : list (K * V)) (k : K) (f : V -> V) : list (K * V) :=
  match get o k with
  | Some v => set o k (f v)
  | None => o
  end.

End Object.

End JSObject.

Module JSArray.

Section Array.
Context {A : Type}.

(** [findIndex]: the index of the first element that passes, or -1. *)
Fixpoint findIndex_from (i : Z) (l : list A) (p : A -> bool) : Z :=
  match l with
  | [] => -1
  | x :: rest => if p x then i else findIndex_from (i + 1) rest p
  end.

Definition findIndex (l : list A) (p : A -> bool) : Z := findIndex_from 0 l p.

(** [l[i] = x] for an index inside the array. *)
Fixpoint assign (l : list A) (i : nat) (x : A) : list A :=
  match l, i with
  | [], _ => []
  | _ :: rest, O => x :: rest
  | y :: rest, S k => y :: assign rest k x
  end.

Definition push (l : list A) (x : A) : list A := l ++ [x].

End Array.

End JSArray.

(* ================================================================== *)
(** * Weeks, months and intervals of date-fns *)
(* ================================================================== *)

(** The functions are modelled on the local calendar fields of a [Date],
    as [format] and [addDays] are: a week or a month is a range of local
    days, whatever the offset to UTC on each of them. *)
Module DateFnsIntervals.
Import Calendar DateFns.

(** [MakeDay(year, month, date)] of ECMAScript: the month counts from 0
    and is carried into the year, the day of the month counts from 1 and
    may fall outside the month. *)
Definition MakeDay (year month date : Z) : Z :=
  days_from_civil (year + month / 12) (month mod 12 + 1) 1 + date - 1.

(** [setHours(23, 59, 59, 999)] *)
Definition endOfDay (t : JSDate) : JSDate :=
  {| localDay := localDay t; timeInDay := msPerDay - 1 |}.

(** [startOfWeek(date, { weekStartsOn })] *)
Definition startOfWeek (date : JSDate) (weekStartsOn : Z) : JSDate :=
  let day := getDay date in
  let diff := (if day <? weekStartsOn then 7 else 0) + day - weekStartsOn in
  setHours0 (addDays date (- diff)).

(** [endOfWeek(date, { weekStartsOn })] *)
Definition endOfWeek (date : JSDate) (weekStartsOn : Z) : JSDate :=
  let day := getDay date in
  let diff :=
    (if day <? weekStartsOn then -7 else 0) + 6 - (day - weekStartsOn) in
  endOfDay (addDays date diff).

(** [startOfMonth]: [setDate(1)] and [setHours(0, 0, 0, 0)]. *)
Definition startOfMonth (date : JSDate) : JSDate :=
  {| localDay := MakeDay (getFullYear date) (getMonth date) 1;
     timeInDay := 0 |}.

(** [endOfMonth]: [setFullYear(year, month + 1, 0)] and
    [setHours(23, 59, 59, 999)]. *)
Definition endOfMonth (date : JSDate) : JSDate :=
  {| localDay := MakeDay (getFullYear date) (getMonth date + 1) 0;
     timeInDay := msPerDay - 1 |}.

(** Order of two dates, read off their local fields. *)
Definition not_after (a b : JSDate) : bool :=
  (localDay a <? localDay b)
  || ((localDay a =? localDay b) && (timeInDay a <=? timeInDay b)).

(** Local midnight of [n] days in a row, the first being [day]. *)
Fixpoint days_from (n : nat) (day : Z) : list JSDate :=
  match n with
  | O => []
  | S k => {| localDay := day; timeInDay := 0 |} :: days_from k (day + 1)
  end.

(** [eachDayOfInterval({ start, end })]: local midnight of every day from
    the day of [start] to the day of [end].  An interval that ends before
    it starts is [None]: date-fns 2 throws a RangeError on it, date-fns 3
    lists its days backwards. *)
Definition eachDayOfInterval (start end_ : JSDate) : option (list JSDate) :=
  if not_after start end_
  then Some (days_from (Z.to_nat (localDay end_ - localDay start + 1))
                       (localDay start))
  else None.

End DateFnsIntervals.

(* ================================================================== *)
(** * The statistics and the charts of the dashboard
    (src/pages/Dashboard.tsx) *)
(* ================================================================== *)

Module StatsPeriod.
Inductive t : Type := day | week | month.
End StatsPeriod.

Module DashboardStats.
Import DateFns DateFnsIntervals.

(** Helper: get the date range for a period *)
Definition getPeriodDates (period : StatsPeriod.t) (refDate : JSDate)
  : option (list JSDate) :=
  match period with
  | StatsPeriod.day => Some [refDate]
  | StatsPeriod.week =>
      let start := startOfWeek refDate 1 in
      eachDayOfInterval start (addDays start 6)
  | StatsPeriod.month =>
      let start := startOfMonth refDate in
      let end_ := endOfMonth refDate in
      eachDayOfInterval start end_
  end.

(** The days of the month calendar. *)
Definition calDays (monthDate : JSDate) : option (list JSDate) :=
  let monthStart := startOfMonth monthDate in
  let monthEnd := endOfMonth monthDate in
  let calStart := startOfWeek monthStart 1 in
  let calEnd := endOfWeek monthEnd 1 in
  eachDayOfInterval calStart calEnd.

End DashboardStats.

Module ExerciseStat.
Record t : Type := mk { minutes : Z; calories : Z }.
End ExerciseStat.

(** One bar of the exercise chart; the label is left out. *)
Module ExerciseBar.
Record t : Type := mk { type : ExerciseType; minutes : Z; calories : Z }.
End ExerciseBar.

(** One slice of the macro chart; the colour is left out. *)
Module PieSlice.
Record t : Type := mk { name : string; value : Q }.
End PieSlice.

Module DashboardCharts.
Import Dashboard.

(** [===] on the exercise types, which are strings. *)
Definition same_type (a b : ExerciseType) : bool :=
  match a, b with
  | gym, gym | running, running | cycling, cycling | yoga, yoga
  | swimming, swimming | hiking, hiking | other, other => true
  | _, _ => false
  end.

Definition ExerciseMap : Type := list (ExerciseType * ExerciseStat.t).

(** The body of the inner [forEach] of [totalStats]. *)
Definition countWorkout (exerciseMap : ExerciseMap) (w : Workout.t)
  : ExerciseMap :=
  let exerciseMap :=
    match JSObject.get same_type exerciseMap (Workout.exerciseType w) with
    | None =>
        JSObject.set same_type exerciseMap (Workout.exerciseType w)
          {| ExerciseStat.minutes := 0; ExerciseStat.calories := 0 |}
    | Some _ => exerciseMap
    end in
  let exerciseMap :=
    JSObject.update same_type exerciseMap (Workout.exerciseType w)
      (fun e => {| ExerciseStat.minutes :=
                     ExerciseStat.minutes e + Workout.duration w;
                   ExerciseStat.calories := ExerciseStat.calories e |}) in
  JSObject.update same_type exerciseMap (Workout.exerciseType w)
    (fun e => {| ExerciseStat.minutes := ExerciseStat.minutes e;
                 ExerciseStat.calories :=
                   ExerciseStat.calories e + Workout.caloriesBurned w |}).

Definition exerciseMap (periodData : list DayData.t) : ExerciseMap :=
  fold_left (fun exerciseMap d =>
               fold_left countWorkout (DayData.workouts d) exerciseMap)
            periodData [].

Definition exerciseBreakdown (periodData : list DayData.t)
  : list ExerciseBar.t :=
  map (fun '(type, data) =>
         {| ExerciseBar.type := type;
            ExerciseBar.minutes := ExerciseStat.minutes data;
            ExerciseBar.calories := ExerciseStat.calories data |})
      (exerciseMap periodData).

Definition macroPieData (totalStats : Totals.t) : list PieSlice.t :=
  filter (fun d => JS.num_gt (PieSlice.value d) 0)
    [ {| PieSlice.name := "Proteínas";
         PieSlice.value := Totals.protein totalStats |};
      {| PieSlice.name := "Carbohidratos";
         PieSlice.value := Totals.carbs totalStats |};
      {| PieSlice.name := "Grasas";
         PieSlice.value := Totals.fat totalStats |} ].

Section Percent.
Variable fl : Q -> Q.

(** The percentage printed beside a slice. *)
Definition pct (macroPieData : list PieSlice.t) (item : PieSlice.t) : Z :=
  let total :=
    reduce macroPieData (fun s d => JS.add fl s (PieSlice.value d)) 0%Q in
  if JS.num_gt total 0
  then JS.Math_round
         (JS.mul fl (JS.div fl (PieSlice.value item) total) 100)
  else 0.

End Percent.

End DashboardCharts.

Module Macros.
Record t : Type := mk { protein : Q; carbs : Q; fat : Q }.
End Macros.

(** The figures of the selected date (the "Today data" of the page). *)
Module DashboardToday.
Import DateFns Dashboard.

Section Today.
Variable host : Host.t.
Variable workouts : list Workout.t.
Variable meals : list Meal.t.
Variable selectedDate : JSDate.

Definition dateStr : string := format selectedDate.

Definition dayWorkouts : list Workout.t :=
  filter (fun w => Recurrence.isWorkoutOnDate host w selectedDate) workouts.

Definition dayMeals : list Meal.t :=
  filter (fun m => JS.str_eq (Meal.date m) dateStr) meals.

#[local] Notation "x [+] y" := (JS.add (Host.fl host) x y)
  (at level 50, left associativity).
#[local] Notation "x [-] y" := (JS.sub (Host.fl host) x y)
  (at level 50, left associativity).

Definition caloriesIn : Q :=
  reduce dayMeals (fun s m => s [+] Meal.totalCalories m) 0%Q.

Definition caloriesOut : Z :=
  reduce dayWorkouts (fun s w => s + Workout.caloriesBurned w) 0.

Definition balance : Q := caloriesIn [-] inject_Z caloriesOut.

Definition macros : Macros.t :=
  reduce dayMeals
    (fun acc m =>
       {| Macros.protein := Macros.protein acc [+] Meal.totalProtein m;
          Macros.carbs := Macros.carbs acc [+] Meal.totalCarbs m;
          Macros.fat := Macros.fat acc [+] Meal.totalFat m |})
    {| Macros.protein := 0%Q; Macros.carbs := 0%Q; Macros.fat := 0%Q |}.

End Today.

End DashboardToday.

(* ================================================================== *)
(** * The training page (src/pages/Training.tsx) *)
(* ================================================================== *)

Module Training.
Import DateFns DateFnsIntervals.

(** The week shown: [useState(() => startOfWeek(new Date(), ...))]. *)
Definition initialWeekStart (now : JSDate) : JSDate := startOfWeek now 1.

(** The two arrows of the week navigation. *)
Inductive Arrow : Type := ChevronLeft | ChevronRight.

Definition setWeekStart (weekStart : JSDate) (a : Arrow) : JSDate :=
  match a with
  | ChevronLeft => addDays weekStart (-7)
  | ChevronRight => addDays weekStart 7
  end.

(** [Array.from({ length: 7 }, (_, i) => addDays(weekStart, i))] *)
Definition weekDays (weekStart : JSDate) : list JSDate :=
  map (fun i => addDays weekStart i) [0; 1; 2; 3; 4; 5; 6].

(** The list of the selected day. *)
Definition dayWorkouts (workouts : list Workout.t) (selectedDate : JSDate)
  : list Workout.t :=
  let selectedDateStr := format selectedDate in
  filter (fun w => JS.str_eq (Workout.date w) selectedDateStr) workouts.

End Training.

(* ================================================================== *)
(** * The calorie estimate (src/lib/storage.ts) *)
(* ================================================================== *)

(** The strings the union types stand for. *)
Module TypeNames.

Definition exerciseType (e : ExerciseType) : string :=
  match e with
  | gym => "gym" | running => "running" | cycling => "cycling"
  | yoga => "yoga" | swimming => "swimming" | hiking => "hiking"
  | other => "other"
  end.

Definition intensity (i : Intensity) : string :=
  match i with low => "low" | medium => "medium" | high => "high" end.

End TypeNames.

Module Estimate.

Section Burned.
Variable fl : Q -> Q.

#[local] Open Scope Q_scope.

#[local] Notation "x [*] y" := (JS.mul fl x y)
  (at level 40, left associativity).
#[local] Notation "x [/] y" := (JS.div fl x y)
  (at level 40, left associativity).
#[local] Abbreviation lit := (JS.lit fl).

(** MET values (approximate) *)
Definition mets : list (string * list (string * Q)) :=
  [ ("gym"%string,
      [("low"%string, lit 3.5); ("medium"%string, 5); ("high"%string, 8)]);
    ("running"%string,
      [("low"%string, 7); ("medium"%string, lit 9.8);
       ("high"%string, lit 12.8)]);
    ("cycling"%string,
      [("low"%string, 4); ("medium"%string, lit 6.8); ("high"%string, 10)]);
    ("yoga"%string,
      [("low"%string, lit 2.5); ("medium"%string, 3); ("high"%string, 4)]);
    ("swimming"%string,
      [("low"%string, lit 4.5); ("medium"%string, 7); ("high"%string, 10)]);
    ("hiking"%string,
      [("low"%string, lit 3.5); ("medium"%string, lit 5.3);
       ("high"%string, lit 7.5)]);
    ("other"%string,
      [("low"%string, 3); ("medium"%string, 5); ("high"%string, 7)]) ].

(** [mets[exerciseType]?.[intensity]].  When the exercise type is no
    key of the table the chain stops at [undefined], unless the type
    names a property the table inherits: the intensity is then read from
    a built-in function or object, whose properties (its [length], for
    one) this model does not hold; that case is [None]. *)
Definition met_entry (exerciseType intensity : string)
  : option (JS.Property Q) :=
  match JS.lookup mets exerciseType with
  | JS.own row => Some (JS.lookup row intensity)
  | JS.inherited => None
  | JS.undefined => Some JS.undefined
  end.

(** The estimate; [None] when it is not a number the model gives: NaN,
    for an intensity that names a property a row of the table inherits,
    and the case [met_entry] leaves out. *)
Definition estimateCaloriesBurned (exerciseType : string) (duration : Q)
    (intensity : string) (weight : Q) : option Z :=
  match met_entry exerciseType intensity with
  | None => None
  | Some entry =>
      match JS.num_or entry 5 with
      | None => None
      | Some met => Some (JS.Math_round ((met [*] weight [*] duration) [/] 60))
      end
  end.

End Burned.

(** The MET value of the table for an exercise type and an intensity. *)
Definition met (e : ExerciseType) (i : Intensity) : Q :=
  match met_entry JS.exact (TypeNames.exerciseType e)
                  (TypeNames.intensity i) with
  | Some (JS.own m) => m
  | _ => 5
  end.

End Estimate.

(* ================================================================== *)
(** * The records in localStorage (src/lib/storage.ts, the version the
    pages call without a user id) *)
(* ================================================================== *)

Module LocalStorage.

(** The three items of [localStorage] the application writes.  An item
    holds the JSON text of a value: it is stood for by that value, which
    [JSON.parse] gives back from what [JSON.stringify] wrote; an item
    that was never written is [None], the [null] of [getItem]. *)
Record t : Type := mk {
  PROFILE : option UserProfile.t;    (* fittrack_profile *)
  WORKOUTS : option (list Workout.t); (* fittrack_workouts *)
  MEALS : option (list Meal.t)        (* fittrack_meals *)
}.

(** Before anything was saved. *)
Definition empty : t :=
  {| PROFILE := None; WORKOUTS := None; MEALS := None |}.

(* Profile *)
Definition getProfile (localStorage : t) : option UserProfile.t :=
  match PROFILE localStorage with
  | Some data => Some data
  | None => None
  end.

Definition saveProfile (profile : UserProfile.t) (localStorage : t) : t :=
  {| PROFILE := Some profile;
     WORKOUTS := WORKOUTS localStorage;
     MEALS := MEALS localStorage |}.

(* Workouts *)
Definition getWorkouts (localStorage : t) : list Workout.t :=
  match WORKOUTS localStorage with
  | Some data => data
  | None => []
  end.

(** [localStorage.setItem(KEYS.WORKOUTS, JSON.stringify(workouts))] *)
Definition setWorkouts (workouts : list Workout.t) (localStorage : t) : t :=
  {| PROFILE := PROFILE localStorage;
     WORKOUTS := Some workouts;
     MEALS := MEALS localStorage |}.

Definition saveWorkout (workout : Workout.t) (localStorage : t) : t :=
  let workouts := getWorkouts localStorage in
  let idx :=
    JSArray.findIndex workouts
      (fun w => JS.str_eq (Workout.id w) (Workout.id workout)) in
  let workouts :=
    if idx >=? 0 then JSArray.assign workouts (Z.to_nat idx) workout
    else JSArray.push workouts workout in
  setWorkouts workouts localStorage.

Definition deleteWorkout (id : string) (localStorage : t) : t :=
  let workouts :=
    filter (fun w => negb (JS.str_eq (Workout.id w) id))
           (getWorkouts localStorage) in
  setWorkouts workouts localStorage.

Definition getWorkoutsByDate (date : string) (localStorage : t)
  : list Workout.t :=
  filter (fun w => JS.str_eq (Workout.date w) date) (getWorkouts localStorage).

(* Meals *)
Definition getMeals (localStorage : t) : list Meal.t :=
  match MEALS localStorage with
  | Some data => data
  | None => []
  end.

(** [localStorage.setItem(KEYS.MEALS, JSON.stringify(meals))] *)
Definition setMeals (meals : list Meal.t) (localStorage : t) : t :=
  {| PROFILE := PROFILE localStorage;
     WORKOUTS := WORKOUTS localStorage;
     MEALS := Some meals |}.

Definition saveMeal (meal : Meal.t) (localStorage : t) : t :=
  let meals := getMeals localStorage in
  let idx :=
    JSArray.findIndex meals
      (fun m => JS.str_eq (Meal.id m) (Meal.id meal)) in
  let meals :=
    if idx >=? 0 then JSArray.assign meals (Z.to_nat idx) meal
    else JSArray.push meals meal in
  setMeals meals localStorage.

Definition deleteMeal (id : string) (localStorage : t) : t :=
  let meals :=
    filter (fun m => negb (JS.str_eq (Meal.id m) id))
           (getMeals localStorage) in
  setMeals meals localStorage.

Definition getMealsByDate (date : string) (localStorage : t) : list Meal.t :=
  filter (fun m => JS.str_eq (Meal.date m) date) (getMeals localStorage).

End LocalStorage.

(* ================================================================== *)
(** * The records in the database (src/lib/storage.ts) *)
(* ================================================================== *)

Module Supabase.

(** [x ?? d]: [d] when [x] is [null] or [undefined]. *)
Definition nullish {A : Type} (x : option A) (d : A) : A :=
  match x with Some x => x | None => d end.

(** What a query resolves to: [{ data, error }] with one of the two
    set. *)
Inductive PostgrestResult (A : Type) : Type :=
  | Failure (message : string)
  | Success (data : A).
Arguments Failure {A} message.
Arguments Success {A} data.

(** A row of [profiles]; a column that is NULL is [None]. *)
Module ProfileRow.
Record t : Type := mk {
  id : string;
  age : option Q;
  weight : option Q;
  height : option Q;
  sex : option string;
  activity_level : option string;
  goal : option string;
  onboarding_complete : option bool
}.
End ProfileRow.

(** A row of [workouts]; the notes, which [Workout.t] leaves out, are
    left out here too. *)
Module WorkoutRow.
Record t : Type := mk {
  id : string;
  user_id : string;
  date : string;
  time : option string;
  exercise_type : option ExerciseType;
  duration : option Z;
  intensity : option Intensity;
  calories_burned : option Z;
  recurring : option bool;
  recurrence_type : option string;
  recurrence_interval : option Z;
  recurrence_days : option (list Z);
  recurrence_end : option string
}.
End WorkoutRow.

(** A row of [meals]; the foods, the notes and the image, which [Meal.t]
    leaves out, are left out here too. *)
Module MealRow.
Record t : Type := mk {
  id : string;
  user_id : string;
  date : string;
  time : option string;
  meal_type : option MealType;
  total_calories : option Q;
  total_protein : option Q;
  total_carbs : option Q;
  total_fat : option Q
}.
End MealRow.

(* Profile *)

(** [getProfile], from what the query resolved to. *)
Definition getProfile (result : PostgrestResult ProfileRow.t)
  : option UserProfile.t :=
  match result with
  | Failure _ => None
  | Success data =>
      Some {| UserProfile.age := nullish (ProfileRow.age data) 25%Q;
              UserProfile.weight := nullish (ProfileRow.weight data) 70%Q;
              UserProfile.height := nullish (ProfileRow.height data) 170%Q;
              UserProfile.sex := nullish (ProfileRow.sex data) "male"%string;
              UserProfile.activityLevel :=
                nullish (ProfileRow.activity_level data) "moderate"%string;
              UserProfile.goal :=
                nullish (ProfileRow.goal data) "maintain"%string;
              UserProfile.onboardingComplete :=
                nullish (ProfileRow.onboarding_complete data) false |}
  end.

(** [saveProfile]: the row it upserts. *)
Definition saveProfile (userId : string) (profile : UserProfile.t)
  : ProfileRow.t :=
  {| ProfileRow.id := userId;
     ProfileRow.age := Some (UserProfile.age profile);
     ProfileRow.weight := Some (UserProfile.weight profile);
     ProfileRow.height := Some (UserProfile.height profile);
     ProfileRow.sex := Some (UserProfile.sex profile);
     ProfileRow.activity_level := Some (UserProfile.activityLevel profile);
     ProfileRow.goal := Some (UserProfile.goal profile);
     ProfileRow.onboarding_complete :=
       Some (UserProfile.onboardingComplete profile) |}.

(* Workouts *)

(** [getWorkouts], from what the query resolved to. *)
Definition getWorkouts (result : PostgrestResult (option (list WorkoutRow.t)))
  : list Workout.t :=
  match result with
  | Failure _ => []
  | Success data =>
      map (fun w =>
        {| Workout.id := WorkoutRow.id w;
           Workout.date := WorkoutRow.date w;
           Workout.time := nullish (WorkoutRow.time w) EmptyString;
           Workout.exerciseType := nullish (WorkoutRow.exercise_type w) other;
           Workout.duration := nullish (WorkoutRow.duration w) 0;
           Workout.intensity := nullish (WorkoutRow.intensity w) medium;
           Workout.caloriesBurned := nullish (WorkoutRow.calories_burned w) 0;
           Workout.recurring := Some (nullish (WorkoutRow.recurring w) false);
           Workout.recurrenceType := WorkoutRow.recurrence_type w;
           Workout.recurrenceInterval := WorkoutRow.recurrence_interval w;
           Workout.recurrenceDays := WorkoutRow.recurrence_days w;
           Workout.recurrenceEnd := WorkoutRow.recurrence_end w |})
        (nullish data [])
  end.

(** [saveWorkout]: the row it upserts. *)
Definition saveWorkout (userId : string) (workout : Workout.t)
  : WorkoutRow.t :=
  {| WorkoutRow.id := Workout.id workout;
     WorkoutRow.user_id := userId;
     WorkoutRow.date := Workout.date workout;
     WorkoutRow.time := Some (Workout.time workout);
     WorkoutRow.exercise_type := Some (Workout.exerciseType workout);
     WorkoutRow.duration := Some (Workout.duration workout);
     WorkoutRow.intensity := Some (Workout.intensity workout);
     WorkoutRow.calories_burned := Some (Workout.caloriesBurned workout);
     WorkoutRow.recurring := Some (nullish (Workout.recurring workout) false);
     WorkoutRow.recurrence_type := Workout.recurrenceType workout;
     WorkoutRow.recurrence_interval := Workout.recurrenceInterval workout;
     WorkoutRow.recurrence_days := Workout.recurrenceDays workout;
     WorkoutRow.recurrence_end := Workout.recurrenceEnd workout |}.

(* Meals *)

(** [getMeals], from what the query resolved to. *)
Definition getMeals (result : PostgrestResult (option (list MealRow.t)))
  : list Meal.t :=
  match result with
  | Failure _ => []
  | Success data =>
      map (fun m =>
        {| Meal.id := MealRow.id m;
           Meal.date := MealRow.date m;
           Meal.time := nullish (MealRow.time m) EmptyString;
           Meal.mealType := nullish (MealRow.meal_type m) lunch;
           Meal.totalCalories := nullish (MealRow.total_calories m) 0%Q;
           Meal.totalProtein := nullish (MealRow.total_protein m) 0%Q;
           Meal.totalCarbs := nullish (MealRow.total_carbs m) 0%Q;
           Meal.totalFat := nullish (MealRow.total_fat m) 0%Q |})
        (nullish data [])
  end.

(** [saveMeal]: the row it upserts. *)
Definition saveMeal (userId : string) (meal : Meal.t) : MealRow.t :=
  {| MealRow.id := Meal.id meal;
     MealRow.user_id := userId;
     MealRow.date := Meal.date meal;
     MealRow.time := Some (Meal.time meal);
     MealRow.meal_type := Some (Meal.mealType meal);
     MealRow.total_calories := Some (Meal.totalCalories meal);
     MealRow.total_protein := Some (Meal.totalProtein meal);
     MealRow.total_carbs := Some (Meal.totalCarbs meal);
     MealRow.total_fat := Some (Meal.totalFat meal) |}.

End Supabase.

(* ================================================================== *)
(** * The model on some inputs *)
(* ================================================================== *)

(** 0.1 + 0.2 is not 0.3. *)
Example a_tenth_plus_two_tenths :
  let fl := JS.round53 in
  (JS.add fl (JS.lit fl 0.1) (JS.lit fl 0.2)
   == 5404319552844596 # 18014398509481984)%Q
  /\ (JS.lit JS.round53 0.3 == 5404319552844595 # 18014398509481984)%Q.
Proof. split; vm_compute; reflexivity. Qed.

Example tie_to_even :
  (JS.round53 9007199254740993 == 9007199254740992)%Q
  /\ (JS.round53 9007199254740995 == 9007199254740996)%Q.
Proof. split; vm_compute; reflexivity. Qed.

Example civil_epoch : Calendar.civil_from_days 0 = (1970, 1, 1).
Proof. reflexivity. Qed.

Example civil_leap_day :
  Calendar.civil_from_days (Calendar.days_from_civil 2024 2 29) = (2024, 2, 29).
Proof. reflexivity. Qed.

Example civil_before_epoch : Calendar.civil_from_days (-1) = (1969, 12, 31).
Proof. reflexivity. Qed.

Example monday_2024_01_01 :
  Calendar.week_day (Calendar.days_from_civil 2024 1 1) = 1.
Proof. reflexivity. Qed.

Example format_2024_01_10 :
  DateFns.format (DateFns.ymd 2024 1 10) = "2024-01-10"%string.
Proof. reflexivity. Qed.

Example format_year_0 :
  DateFns.format (DateFns.ymd 0 12 31) = "0001-12-31"%string.
Proof. reflexivity. Qed.

Example parse_2024_01_10 :
  DateFns.parseISO_date "2024-01-10" = Some (DateFns.ymd 2024 1 10).
Proof. reflexivity. Qed.

Example parse_no_such_day : DateFns.parseISO_date "2023-02-29" = None.
Proof. reflexivity. Qed.

Example addDays_month_end :
  DateFns.format (DateFns.addDays (DateFns.ymd 2024 3 1) (-1))
  = "2024-02-29"%string.
Proof. reflexivity. Qed.

Section EvaluatorExamples.
Import Recurrence DateFns.

Let once := scheduled "2024-01-10" (Some false) None None None None.
Let daily := scheduled "2024-01-10" (Some true) (Some "daily"%string)
                       None None None.
Let daily_until := scheduled "2024-01-01" (Some true) (Some "daily"%string)
                             None None (Some "2024-01-05"%string).
Let weekly := scheduled "2024-01-01" (Some true) (Some "weekly"%string)
                        None (Some [1; 3; 5]) None.
Let every3 := scheduled "2024-01-01" (Some true) (Some "custom"%string)
                        (Some 3) None None.

Example once_only :
  map (isWorkoutOnDate_utc once)
      [ymd 2024 1 9; ymd 2024 1 10; ymd 2024 1 11] = [false; true; false].
Proof. reflexivity. Qed.

Example daily_from_anchor :
  map (isWorkoutOnDate_utc daily)
      [ymd 2024 1 9; ymd 2024 1 10; ymd 2024 1 11; ymd 2031 7 4]
  = [false; true; true; true].
Proof. reflexivity. Qed.

Example daily_until_end :
  map (isWorkoutOnDate_utc daily_until) [ymd 2024 1 5; ymd 2024 1 6]
  = [true; false].
Proof. reflexivity. Qed.

(** 2024-01-01 was a Monday. *)
Example weekly_mon_wed_fri :
  map (isWorkoutOnDate_utc weekly)
      [ymd 2024 1 1; ymd 2024 1 2; ymd 2024 1 3; ymd 2024 1 4;
       ymd 2024 1 5; ymd 2024 1 6; ymd 2024 1 7; ymd 2024 1 8]
  = [true; false; true; false; true; false; false; true].
Proof. reflexivity. Qed.

Example every_third_day :
  map (isWorkoutOnDate_utc every3)
      [ymd 2024 1 1; ymd 2024 1 2; ymd 2024 1 3; ymd 2024 1 4;
       ymd 2024 1 5; ymd 2024 1 6; ymd 2024 1 7]
  = [true; false; false; true; false; false; true].
Proof. reflexivity. Qed.

End EvaluatorExamples.

Section ChartExamples.
Import Calendar DateFns DateFnsIntervals DashboardStats.
Import Dashboard DashboardCharts Estimate.

(** 2024-02-14 was a Wednesday. *)
Example week_of_2024_02_14 :
  option_map (map format) (getPeriodDates StatsPeriod.week (ymd 2024 2 14))
  = Some ["2024-02-12"; "2024-02-13"; "2024-02-14"; "2024-02-15";
          "2024-02-16"; "2024-02-17"; "2024-02-18"]%string.
Proof. vm_compute. reflexivity. Qed.

Example month_of_2024_02_14 :
  option_map (fun l => (List.length l, map format (firstn 2 l),
                        map format (skipn 27 l)))
             (getPeriodDates StatsPeriod.month (ymd 2024 2 14))
  = Some (29%nat, ["2024-02-01"; "2024-02-02"],
          ["2024-02-28"; "2024-02-29"])%string.
Proof. vm_compute. reflexivity. Qed.

(** December runs into the next year. *)
Example month_of_2023_12_31 :
  option_map (fun l => map format (skipn 29 l))
             (getPeriodDates StatsPeriod.month (ymd 2023 12 31))
  = Some ["2023-12-30"; "2023-12-31"]%string.
Proof. vm_compute. reflexivity. Qed.

(** February 2021 began on a Monday and has 28 days: four rows. *)
Example grid_of_2021_02 :
  option_map (fun l => (List.length l, map format (firstn 1 l),
                        map format (skipn 27 l)))
             (calDays (ymd 2021 2 10))
  = Some (28%nat, ["2021-02-01"], ["2021-02-28"])%string.
Proof. vm_compute. reflexivity. Qed.

Example grid_of_2024_09 :
  option_map (fun l => (List.length l, map format (firstn 1 l),
                        map format (skipn 41 l)))
             (calDays (ymd 2024 9 15))
  = Some (42%nat, ["2024-08-26"], ["2024-10-06"])%string.
Proof. vm_compute. reflexivity. Qed.

Example interval_backwards :
  eachDayOfInterval (ymd 2024 1 2) (ymd 2024 1 1) = None.
Proof. reflexivity. Qed.

Example estimate_gym_hour :
  estimateCaloriesBurned JS.round53 "gym" 60 "medium" 70 = Some 350.
Proof. vm_compute. reflexivity. Qed.

Example estimate_running_half_hour :
  estimateCaloriesBurned JS.round53 "running" 30 "high" 72.5 = Some 464.
Proof. vm_compute. reflexivity. Qed.

(** A type or an intensity the table does not have: the MET is 5. *)
Example estimate_unknown_type :
  estimateCaloriesBurned JS.round53 "rowing" 60 "medium" 70 = Some 350
  /\ estimateCaloriesBurned JS.round53 "yoga" 60 "extreme" 70 = Some 350.
Proof. split; vm_compute; reflexivity. Qed.

(** An intensity that names an inherited property: the MET is a function,
    the estimate NaN. *)
Example estimate_inherited_intensity :
  estimateCaloriesBurned JS.round53 "gym" 60 "constructor" 70 = None.
Proof. reflexivity. Qed.

Definition run (id date : string) (minutes kcal : Z) : Workout.t :=
  Workout.mk id date "07:30" running minutes medium kcal
             None None None None None.

Definition lift (id date : string) (minutes kcal : Z) : Workout.t :=
  Workout.mk id date "18:00" gym minutes high kcal None None None None None.

Example breakdown_of_three :
  exerciseBreakdown
    (aggregateForPeriod Recurrence.utc [ymd 2024 1 1; ymd 2024 1 2]
       [run "a" "2024-01-01" 30 300; lift "b" "2024-01-01" 45 400;
        run "c" "2024-01-02" 20 200] [])
  = [ {| ExerciseBar.type := running; ExerciseBar.minutes := 50;
         ExerciseBar.calories := 500 |};
      {| ExerciseBar.type := gym; ExerciseBar.minutes := 45;
         ExerciseBar.calories := 400 |} ].
Proof. vm_compute. reflexivity. Qed.

Definition macro_totals (protein carbs fat : Q) : Totals.t :=
  {| Totals.caloriesIn := 0%Q; Totals.caloriesOut := 0;
     Totals.protein := protein; Totals.carbs := carbs; Totals.fat := fat;
     Totals.workoutMinutes := 0; Totals.workoutCount := 0 |}.

Definition percentages (totals : Totals.t) : list Z :=
  map (pct JS.round53 (macroPieData totals)) (macroPieData totals).

Example thirds_make_99 : percentages (macro_totals 1 1 1) = [33; 33; 33].
Proof. vm_compute. reflexivity. Qed.

Example halves_make_101 : percentages (macro_totals 33 67 100) = [17; 34; 50].
Proof. vm_compute. reflexivity. Qed.

Example no_slice_for_zero : percentages (macro_totals 0 30 10) = [75; 25].
Proof. vm_compute. reflexivity. Qed.

(** Grams need not be whole. *)
Example tenths_of_a_gram :
  percentages (macro_totals 12.5 30.2 7.3) = [25; 60; 15].
Proof. vm_compute. reflexivity. Qed.

Example save_edit_delete :
  let a := run "a" "2024-01-01" 30 300 in
  let b := lift "b" "2024-01-01" 45 400 in
  let a' := run "a" "2024-01-03" 40 410 in
  let s :=
    LocalStorage.saveWorkout b
      (LocalStorage.saveWorkout a LocalStorage.empty) in
  LocalStorage.getWorkouts s = [a; b]
  /\ LocalStorage.getWorkouts (LocalStorage.saveWorkout a' s) = [a'; b]
  /\ LocalStorage.getWorkouts (LocalStorage.deleteWorkout "a" s) = [b]
  /\ LocalStorage.getWorkouts LocalStorage.empty = [].
Proof. repeat split. Qed.

Definition two_days : list Workout.t :=
  [run "a" "2024-01-01" 30 300; lift "b" "2024-01-01" 45 400;
   run "c" "2024-01-02" 20 200].

Definition two_workouts : LocalStorage.t :=
  LocalStorage.saveWorkout (lift "b" "2024-01-01" 45 400)
    (LocalStorage.saveWorkout (run "a" "2024-01-01" 30 300) LocalStorage.empty).

(** A run on a date, not recurring. *)
Definition jog (date : string) : Workout.t :=
  Workout.mk "w" date "07:30" running 30 medium 300 None None None None None.

End ChartExamples.

(* ================================================================== *)
(** * Facts about the calendar *)
(* ================================================================== *)

Module CalendarFacts.
Import Calendar.

Ltac zdiv := Z.div_mod_to_equations; lia.

Ltac case_ifs :=
  repeat match goal with
  | |- context [if ?b then _ else _] => destruct b eqn:?
  end;
  rewrite ?Z.ltb_lt, ?Z.ltb_ge, ?Z.leb_le, ?Z.leb_gt,
          ?Z.gtb_ltb, ?Z.eqb_eq, ?Z.eqb_neq in *.

(** ** Inside one era *)

Lemma yoe_of_bounds doe :
  0 <= doe < daysPerEra ->
  0 <= yoe_of doe <= 399 /\
  0 <= doe - year_start (yoe_of doe) <= 365.
Proof. unfold yoe_of, year_start, daysPerEra. intros. zdiv. Qed.

Lemma yoe_of_next doe :
  0 <= doe < daysPerEra - 1 ->
  yoe_of (doe + 1) = yoe_of doe \/
  (yoe_of (doe + 1) = yoe_of doe + 1 /\
   doe + 1 = year_start (yoe_of doe + 1)).
Proof. unfold yoe_of, year_start, daysPerEra. intros. zdiv. Qed.

(** A day of the year as the number [mmdd], the months of January and
    February, which close the year, counted above December. *)
Definition md_key (doy : Z) : Z :=
  let '(m, d) := month_day_of_doy doy in
  (if m <=? 2 then 10000 else 0) + m * 100 + d.

Lemma md_key_bounds doy : 0 <= doy <= 365 -> 301 <= md_key doy <= 10229.
Proof. unfold md_key, month_day_of_doy. intros. case_ifs; zdiv. Qed.

Lemma md_key_step doy : 0 <= doy < 365 -> md_key doy < md_key (doy + 1).
Proof. unfold md_key, month_day_of_doy. intros. case_ifs; zdiv. Qed.

Lemma month_day_range doy :
  0 <= doy <= 365 ->
  let '(m, d) := month_day_of_doy doy in
  1 <= m <= 12 /\ 1 <= d <= 31 /\ (m = 2 -> d = doy - 336) /\
  (153 * (if m >? 2 then m - 3 else m + 9) + 2) / 5 + d - 1 = doy.
Proof. unfold month_day_of_doy. intros. case_ifs; zdiv. Qed.

Lemma civil_key_of_doe doe :
  civil_key (civil_of_doe doe) =
  yoe_of doe * 10000 + md_key (doe - year_start (yoe_of doe)).
Proof.
  unfold civil_of_doe, md_key.
  destruct (month_day_of_doy _) as [m d]. cbn [civil_key].
  destruct (m <=? 2); lia.
Qed.

Lemma civil_key_of_doe_step doe :
  0 <= doe < daysPerEra - 1 ->
  civil_key (civil_of_doe doe) < civil_key (civil_of_doe (doe + 1)).
Proof.
  intros H. rewrite !civil_key_of_doe.
  destruct (yoe_of_bounds doe ltac:(lia)) as [_ Hd].
  destruct (yoe_of_bounds (doe + 1) ltac:(lia)) as [_ Hd'].
  destruct (yoe_of_next doe H) as [E | [E E']].
  - rewrite E in *.
    replace (doe + 1 - year_start (yoe_of doe))
      with (doe - year_start (yoe_of doe) + 1) in * by lia.
    pose proof (md_key_step (doe - year_start (yoe_of doe))). lia.
  - rewrite E, <- E'.
    replace (doe + 1 - (doe + 1)) with 0 by lia.
    pose proof (md_key_bounds _ Hd). change (md_key 0) with 301. lia.
Qed.

(** ** On all days *)

Lemma civil_key_shift k c :
  civil_key (shift_years k c) = civil_key c + 10000 * k.
Proof. destruct c as [[y m] d]. unfold shift_years, civil_key. lia. Qed.

Lemma civil_key_era_first : civil_key (civil_of_doe 0) = 301.
Proof. vm_compute. reflexivity. Qed.

Lemma civil_key_era_last : civil_key (civil_of_doe (daysPerEra - 1)) = 4000229.
Proof. vm_compute. reflexivity. Qed.

Lemma date_key_step z : date_key z < date_key (z + 1).
Proof.
  unfold date_key, civil_from_days. rewrite !civil_key_shift.
  set (t := z + eraShift).
  replace (z + 1 + eraShift) with (t + 1) by (subst t; lia).
  assert (Hm : 0 <= t mod daysPerEra < daysPerEra)
    by (apply Z.mod_pos_bound; reflexivity).
  destruct (Z.eq_dec (t mod daysPerEra) (daysPerEra - 1)) as [Hlast | Hin].
  - assert (E1 : (t + 1) mod daysPerEra = 0) by (unfold daysPerEra in *; zdiv).
    assert (E2 : (t + 1) / daysPerEra = t / daysPerEra + 1)
      by (unfold daysPerEra in *; zdiv).
    rewrite E1, E2, Hlast, civil_key_era_first, civil_key_era_last. lia.
  - assert (E1 : (t + 1) mod daysPerEra = t mod daysPerEra + 1)
      by (unfold daysPerEra in *; zdiv).
    assert (E2 : (t + 1) / daysPerEra = t / daysPerEra)
      by (unfold daysPerEra in *; zdiv).
    rewrite E1, E2.
    pose proof (civil_key_of_doe_step (t mod daysPerEra)). lia.
Qed.

Lemma date_key_lt a b : a < b -> date_key a < date_key b.
Proof.
  intros H. replace b with (a + 1 + Z.of_nat (Z.to_nat (b - a - 1))) by lia.
  induction (Z.to_nat (b - a - 1)) as [|n IH].
  - rewrite Z.add_0_r. apply date_key_step.
  - replace (a + 1 + Z.of_nat (S n)) with (a + 1 + Z.of_nat n + 1) by lia.
    pose proof (date_key_step (a + 1 + Z.of_nat n)). lia.
Qed.

Lemma date_key_lt_iff a b : date_key a < date_key b <-> a < b.
Proof.
  split; [|apply date_key_lt].
  intros H. destruct (Z_lt_le_dec a b) as [|Hle]; [assumption|].
  destruct (Z.eq_dec a b) as [->|]; [lia|].
  pose proof (date_key_lt b a ltac:(lia)). lia.
Qed.

Lemma date_key_le_iff a b : date_key a <= date_key b <-> a <= b.
Proof. pose proof (date_key_lt_iff b a). lia. Qed.

Lemma date_key_inj a b : date_key a = date_key b -> a = b.
Proof.
  intros H. pose proof (date_key_lt_iff a b). pose proof (date_key_lt_iff b a).
  lia.
Qed.

(** ** The fields of a day *)

Lemma month_day_length doy :
  0 <= doy <= 365 ->
  let '(m, d) := month_day_of_doy doy in
  m <> 2 ->
  d <= (if (m =? 4) || (m =? 6) || (m =? 9) || (m =? 11) then 30 else 31).
Proof.
  unfold month_day_of_doy. intros H.
  destruct (_ <? 10) eqn:E; intros Hm; case_ifs.
  all: repeat match goal with
       | H : _ || _ = true |- _ => apply orb_true_iff in H as [H | H]
       | H : _ || _ = false |- _ => apply orb_false_iff in H as [? H]
       end;
       rewrite ?Z.eqb_eq, ?Z.eqb_neq in *; zdiv.
Qed.

Lemma leap_day_year doe :
  0 <= doe < daysPerEra ->
  doe - year_start (yoe_of doe) = 365 ->
  forall era, is_leap (yoe_of doe + 1 + 400 * era) = true.
Proof.
  intros H E era.
  assert (Hy : ((yoe_of doe + 1) mod 4 = 0 /\ (yoe_of doe + 1) mod 100 <> 0)
               \/ (yoe_of doe + 1) mod 400 = 0)
    by (revert E; unfold yoe_of, year_start, daysPerEra in *; intros; zdiv).
  unfold is_leap.
  apply orb_true_iff. destruct Hy as [[H4 H100] | H400].
  - left. apply andb_true_iff. split.
    + apply Z.eqb_eq. zdiv.
    + apply negb_true_iff, Z.eqb_neq. zdiv.
  - right. apply Z.eqb_eq. zdiv.
Qed.

Lemma civil_from_days_eq z :
  let t := z + eraShift in
  let doe := t mod daysPerEra in
  let doy := doe - year_start (yoe_of doe) in
  civil_from_days z =
    ((if fst (month_day_of_doy doy) <=? 2 then yoe_of doe + 1 else yoe_of doe)
       + 400 * (t / daysPerEra),
     fst (month_day_of_doy doy), snd (month_day_of_doy doy)).
Proof.
  cbv zeta. unfold civil_from_days, civil_of_doe.
  destruct (month_day_of_doy _) as [m d]. reflexivity.
Qed.

Lemma valid_civil_from_days z :
  let '(y, m, d) := civil_from_days z in valid_civil y m d = true.
Proof.
  rewrite civil_from_days_eq. cbv zeta.
  set (t := z + eraShift). set (doe := t mod daysPerEra).
  assert (Hm : 0 <= doe < daysPerEra)
    by (apply Z.mod_pos_bound; reflexivity).
  destruct (yoe_of_bounds doe Hm) as [Hy Hd].
  set (doy := doe - year_start (yoe_of doe)) in *.
  pose proof (month_day_range doy Hd) as R.
  pose proof (month_day_length doy Hd) as L.
  pose proof (leap_day_year doe Hm) as Leap. fold doy in Leap.
  destruct (month_day_of_doy doy) as [m d]. cbn [fst snd].
  destruct R as (Rm & Rd & R2 & _).
  unfold valid_civil, days_in_month.
  repeat (apply andb_true_iff; split); try (apply Z.leb_le; lia).
  apply Z.leb_le.
  destruct (m =? 2) eqn:E2.
  - apply Z.eqb_eq in E2. specialize (R2 E2).
    replace (m <=? 2) with true by (symmetry; apply Z.leb_le; lia).
    destruct (is_leap _) eqn:El; [lia|].
    destruct (Z.eq_dec doy 365) as [E|]; [|lia].
    rewrite (Leap E) in El. discriminate.
  - apply Z.eqb_neq in E2. exact (L E2).
Qed.

Lemma civil_from_days_range z :
  let '(y, m, d) := civil_from_days z in 1 <= m <= 12 /\ 1 <= d <= 31.
Proof.
  pose proof (valid_civil_from_days z) as V.
  destruct (civil_from_days z) as [[y m] d].
  unfold valid_civil, days_in_month in V.
  repeat (apply andb_true_iff in V as [V ?]).
  rewrite ?Z.leb_le in *.
  repeat match goal with
         | H : context [if ?b then _ else _] |- _ => destruct b
         end; lia.
Qed.

(** [days_from_civil] undoes [civil_from_days]. *)
Lemma days_from_civil_from_days z :
  let '(y, m, d) := civil_from_days z in days_from_civil y m d = z.
Proof.
  rewrite civil_from_days_eq. cbv zeta.
  set (t := z + eraShift). set (doe := t mod daysPerEra).
  assert (Hm : 0 <= doe < daysPerEra)
    by (apply Z.mod_pos_bound; reflexivity).
  destruct (yoe_of_bounds doe Hm) as [Hy Hd].
  set (doy := doe - year_start (yoe_of doe)) in *.
  pose proof (month_day_range doy Hd) as R.
  destruct (month_day_of_doy doy) as [m d]. cbn [fst snd].
  destruct R as (Rm & Rd & _ & Rdoy).
  unfold days_from_civil. rewrite Rdoy.
  set (y := (if m <=? 2 then _ - 1 else _)).
  assert (Ey : y = yoe_of doe + 400 * (t / daysPerEra))
    by (subst y; destruct (m <=? 2); lia).
  assert (E1 : y / 400 = t / daysPerEra) by (rewrite Ey; zdiv).
  assert (E2 : y mod 400 = yoe_of doe) by (rewrite Ey; zdiv).
  rewrite E1, E2.
  assert (t = daysPerEra * (t / daysPerEra) + doe)
    by (apply Z.div_mod; discriminate).
  subst doy t. lia.
Qed.

Lemma four_digit_year_range z :
  four_digit_year z ->
  let '(y, m, d) := civil_from_days z in
  1 <= y <= 9999 /\ 1 <= m <= 12 /\ 1 <= d <= 31.
Proof.
  intros [Hlo Hhi].
  apply date_key_le_iff in Hlo. apply date_key_le_iff in Hhi.
  change (date_key firstDay) with 10101 in Hlo.
  change (date_key lastDay) with 99991231 in Hhi.
  pose proof (civil_from_days_range z) as R.
  unfold date_key in *.
  destruct (civil_from_days z) as [[y m] d]. unfold civil_key in *. lia.
Qed.

(** The first of January is ECMAScript's [DayFromYear]. *)
Lemma days_from_civil_new_year y :
  days_from_civil y 1 1
  = 365 * (y - 1970) + (y - 1969) / 4 - (y - 1901) / 100 + (y - 1601) / 400.
Proof.
  unfold days_from_civil, year_start, daysPerEra, eraShift.
  cbn [Z.leb Z.gtb Z.compare Pos.compare Pos.compare_cont].
  zdiv.
Qed.

(** A year has 365 days, or 366 when it is a leap year. *)
Lemma year_length y :
  days_from_civil (y + 1) 1 1 - days_from_civil y 1 1
  = if is_leap y then 366 else 365.
Proof.
  rewrite !days_from_civil_new_year. unfold is_leap.
  destruct (y mod 4 =? 0) eqn:E4, (y mod 100 =? 0) eqn:E100,
           (y mod 400 =? 0) eqn:E400; cbn [andb orb negb];
    rewrite ?Z.eqb_eq, ?Z.eqb_neq in *; zdiv.
Qed.

Lemma week_day_range z : 0 <= week_day z <= 6.
Proof. unfold week_day. zdiv. Qed.

End CalendarFacts.

(* ================================================================== *)
(** * Facts about [format] and [parseISO_date] *)
(* ================================================================== *)

Module DateFnsFacts.
Import Calendar CalendarFacts DateFns.

(** ** Decimal digits *)

Definition digit_char (k : Z) : ascii := ascii_of_N (Z.to_N (48 + k)).

Definition digits2 (n : Z) : string :=
  String (digit_char (n / 10)) (String (digit_char (n mod 10)) EmptyString).

Definition digits4 (n : Z) : string :=
  (digits2 (n / 100) ++ digits2 (n mod 100))%string.

Fixpoint all_from (P : Z -> bool) (n : nat) (z : Z) : bool :=
  match n with
  | O => true
  | S k => P z && all_from P k (z + 1)
  end.

Lemma all_from_spec P n : forall z i,
  all_from P n z = true -> z <= i < z + Z.of_nat n -> P i = true.
Proof.
  induction n as [|n IH]; intros z i H Hi; [lia|].
  cbn [all_from] in H. apply andb_true_iff in H as [Hz Hr].
  destruct (Z.eq_dec i z) as [->|Hne]; [exact Hz|].
  apply (IH (z + 1)); [exact Hr|lia].
Qed.

Lemma addLeadingZeros_2 n :
  0 <= n <= 99 -> addLeadingZeros n 2 = digits2 n.
Proof.
  intros H. apply String.eqb_eq.
  apply (all_from_spec
           (fun n => String.eqb (addLeadingZeros n 2) (digits2 n)) 100 0);
    [vm_compute; reflexivity | lia].
Qed.

Lemma addLeadingZeros_4 n :
  0 <= n <= 9999 -> addLeadingZeros n 4 = digits4 n.
Proof.
  intros H. apply String.eqb_eq.
  apply (all_from_spec
           (fun n => String.eqb (addLeadingZeros n 4) (digits4 n))
           (Z.to_nat 10000) 0);
    [vm_compute; reflexivity | lia].
Qed.

Lemma compare_digit_char a b :
  0 <= a <= 9 -> 0 <= b <= 9 ->
  Ascii.compare (digit_char a) (digit_char b) = (a ?= b).
Proof.
  intros Ha Hb. unfold Ascii.compare, digit_char.
  rewrite !N_ascii_embedding by lia.
  rewrite Z2N.inj_compare by lia. apply Z.add_compare_mono_l.
Qed.

Lemma digit_of_digit_char a :
  0 <= a <= 9 -> digit_of_char (digit_char a) = Some a.
Proof.
  intros Ha. unfold digit_of_char, digit_char.
  rewrite N_ascii_embedding by lia. rewrite Z2N.id by lia.
  replace (48 <=? 48 + a) with true by (symmetry; apply Z.leb_le; lia).
  replace (48 + a <=? 57) with true by (symmetry; apply Z.leb_le; lia).
  cbn [andb]. f_equal. lia.
Qed.

Lemma compare_same_head c s1 s2 :
  String.compare (String c s1) (String c s2) = String.compare s1 s2.
Proof.
  cbn [String.compare]. unfold Ascii.compare. now rewrite N.compare_refl.
Qed.

Lemma compare_digit_head a b s1 s2 :
  0 <= a <= 9 -> 0 <= b <= 9 ->
  String.compare (String (digit_char a) s1) (String (digit_char b) s2) =
  match a ?= b with Eq => String.compare s1 s2 | r => r end.
Proof.
  intros Ha Hb. cbn [String.compare]. rewrite compare_digit_char by lia.
  now destruct (a ?= b).
Qed.

(** ** The string of a date with a four-digit year *)

Definition date_string (c : Z * Z * Z) : string :=
  let '(y, m, d) := c in
  (digits4 y ++ "-" ++ digits2 m ++ "-" ++ digits2 d)%string.

Lemma format_date_string t :
  four_digit_year (localDay t) ->
  format t = date_string (civil_from_days (localDay t)).
Proof.
  intros H. apply four_digit_year_range in H.
  unfold format, getFullYear, getMonth, getDate, date_string.
  destruct (civil_from_days (localDay t)) as [[y m] d].
  destruct H as (Hy & Hm & Hd).
  replace (y >? 0) with true by (symmetry; apply Z.gtb_lt; lia).
  replace (m - 1 + 1) with m by lia.
  now rewrite addLeadingZeros_4, !addLeadingZeros_2 by lia.
Qed.

Definition in_range (c : Z * Z * Z) : Prop :=
  let '(y, m, d) := c in 0 <= y <= 9999 /\ 0 <= m <= 99 /\ 0 <= d <= 99.

(** Strings of dates compare as the dates. *)
Lemma date_string_compare c1 c2 :
  in_range c1 -> in_range c2 ->
  String.compare (date_string c1) (date_string c2)
  = (civil_key c1 ?= civil_key c2).
Proof.
  destruct c1 as [[y1 m1] d1], c2 as [[y2 m2] d2].
  intros (Hy1 & Hm1 & Hd1) (Hy2 & Hm2 & Hd2).
  unfold date_string, digits4, digits2, civil_key.
  cbn [String.append].
  repeat first
    [ rewrite compare_same_head
    | rewrite compare_digit_head by zdiv ].
  cbn [String.compare].
  repeat match goal with
  | |- context [match ?a ?= ?b with _ => _ end] =>
      let E := fresh "E" in
      destruct (Z.compare_spec a b) as [E | E | E];
      [ | symmetry; apply Z.compare_lt_iff; zdiv
        | symmetry; apply Z.compare_gt_iff; zdiv ]
  end.
  symmetry. apply Z.compare_eq_iff. zdiv.
Qed.

Lemma format_compare a b :
  four_digit_year (localDay a) -> four_digit_year (localDay b) ->
  String.compare (format a) (format b) = (localDay a ?= localDay b).
Proof.
  intros Ha Hb. rewrite !format_date_string by assumption.
  apply four_digit_year_range in Ha, Hb.
  rewrite date_string_compare.
  - fold (date_key (localDay a)) (date_key (localDay b)).
    destruct (Z.compare_spec (localDay a) (localDay b)) as [E | E | E].
    + rewrite E. apply Z.compare_refl.
    + apply Z.compare_lt_iff, date_key_lt, E.
    + apply Z.compare_gt_iff, date_key_lt, E.
  - destruct (civil_from_days (localDay a)) as [[y m] d]. cbn. lia.
  - destruct (civil_from_days (localDay b)) as [[y m] d]. cbn. lia.
Qed.

Lemma format_localDay a b : localDay a = localDay b -> format a = format b.
Proof.
  intros E. unfold format, getFullYear, getMonth, getDate. now rewrite E.
Qed.

Lemma format_le a b :
  four_digit_year (localDay a) -> four_digit_year (localDay b) ->
  JS.str_le (format a) (format b) = (localDay a <=? localDay b).
Proof.
  intros Ha Hb. unfold JS.str_le, String.leb, Z.leb.
  now rewrite format_compare.
Qed.

Lemma format_gt a b :
  four_digit_year (localDay a) -> four_digit_year (localDay b) ->
  JS.str_gt (format a) (format b) = (localDay b <? localDay a).
Proof.
  intros Ha Hb. unfold JS.str_gt, String.ltb, Z.ltb.
  now rewrite format_compare.
Qed.

Lemma format_eq a b :
  four_digit_year (localDay a) -> four_digit_year (localDay b) ->
  JS.str_eq (format a) (format b) = (localDay a =? localDay b).
Proof.
  intros Ha Hb. unfold JS.str_eq.
  destruct (Z.eqb_spec (localDay a) (localDay b)) as [E | E].
  - apply String.eqb_eq, format_localDay, E.
  - apply String.eqb_neq. intros F. apply E, Z.compare_eq.
    rewrite <- format_compare by assumption.
    rewrite F. clear. induction (format b) as [|c s IH]; [reflexivity|].
    now rewrite compare_same_head.
Qed.


(** [parseISO_date] reads back what [format] prints. *)
Lemma parseISO_date_format t :
  four_digit_year (localDay t) ->
  parseISO_date (format t) = Some (setHours0 t).
Proof.
  intros H. rewrite format_date_string by assumption.
  apply four_digit_year_range in H.
  pose proof (valid_civil_from_days (localDay t)) as V.
  pose proof (days_from_civil_from_days (localDay t)) as R.
  destruct (civil_from_days (localDay t)) as [[y m] d].
  destruct H as (Hy & Hm & Hd).
  unfold date_string, digits4, digits2. cbn [String.append].
  unfold parseISO_date, number4, number2.
  rewrite !digit_of_digit_char by zdiv.
  replace (100 * (10 * (y / 100 / 10) + y / 100 mod 10)
           + (10 * (y mod 100 / 10) + y mod 100 mod 10)) with y by zdiv.
  replace (10 * (m / 10) + m mod 10) with m by zdiv.
  replace (10 * (d / 10) + d mod 10) with d by zdiv.
  rewrite V, R. reflexivity.
Qed.

End DateFnsFacts.

(* ================================================================== *)
(** * The string of a date of any year *)
(* ================================================================== *)

Module FormatFacts.
Import Calendar CalendarFacts DateFns DateFnsFacts.








End FormatFacts.

(* ================================================================== *)
(** * Facts about numbers and strings *)
(* ================================================================== *)

Module JSFacts.
Import DateFnsFacts.

(** ** Rounding a quotient *)

Lemma Math_round_div a b :
  0 < b -> JS.Math_round (inject_Z a / inject_Z b) = (2 * a + b) / (2 * b).
Proof.
  intros Hb. unfold JS.Math_round. rewrite Zdiv_Qdiv.
  apply Qfloor_comp.
  rewrite inject_Z_plus, !inject_Z_mult.
  assert (Hq : ~ inject_Z b == 0)
    by (change 0%Q with (inject_Z 0); rewrite inject_Z_injective; lia).
  field. exact Hq.
Qed.

(** [Math.round] returns the integer [n] with [n - 1/2 <= x < n + 1/2]. *)
Lemma Math_round_nearest a b :
  0 < b ->
  let n := JS.Math_round (inject_Z a / inject_Z b) in
  2 * b * n - b <= 2 * a < 2 * b * n + b.
Proof.
  intros Hb. cbv zeta. rewrite Math_round_div by assumption.
  Z.div_mod_to_equations. nia.
Qed.

Lemma Math_round_spec x :
  (inject_Z (JS.Math_round x) - (1 # 2) <= x
   /\ x < inject_Z (JS.Math_round x) + (1 # 2))%Q.
Proof.
  unfold JS.Math_round.
  pose proof (Qfloor_le (x + (1 # 2))) as Hlo.
  pose proof (Qlt_floor (x + (1 # 2))) as Hhi.
  rewrite inject_Z_plus in Hhi. change (inject_Z 1) with 1%Q in Hhi.
  split; lra.
Qed.

Lemma Math_round_unique x n :
  (inject_Z n - (1 # 2) <= x)%Q -> (x < inject_Z n + (1 # 2))%Q ->
  JS.Math_round x = n.
Proof.
  intros Hlo Hhi. unfold JS.Math_round.
  assert (H1 : n <= Qfloor (x + (1 # 2))).
  { rewrite <- (Qfloor_Z n). apply Qfloor_resp_le. lra. }
  assert (H2 : Qfloor (x + (1 # 2)) < n + 1).
  { rewrite Zlt_Qlt.
    apply Qle_lt_trans with (x + (1 # 2))%Q; [apply Qfloor_le|].
    rewrite inject_Z_plus. change (inject_Z 1) with 1%Q. lra. }
  lia.
Qed.

Lemma Math_round_comp x y :
  (x == y)%Q -> JS.Math_round x = JS.Math_round y.
Proof.
  intros E. unfold JS.Math_round. apply Qfloor_comp. now rewrite E.
Qed.

(** ** Rounding errors *)

Lemma normal_mid x :
  ((1 # 10 ^ 18) <= Qabs x -> Qabs x <= 1000000000000000000 ->
   JS.normal x)%Q.
Proof.
  intros Hlo Hhi. right. split.
  - apply Qle_trans with (1 # 10 ^ 18)%Q; [|exact Hlo].
    unfold JS.min_normal, Qle. vm_compute. discriminate.
  - apply Qle_trans with 1000000000000000000%Q; [exact Hhi|].
    unfold JS.max_normal, Qle. vm_compute. discriminate.
Qed.

Lemma Qabs_quotient (a b : Z) :
  0 < b ->
  (Qabs (inject_Z a / inject_Z b) == inject_Z (Z.abs a) / inject_Z b)%Q.
Proof.
  intros Hb. unfold Qdiv. rewrite Qabs_Qmult.
  assert (Hq : (0 < inject_Z b)%Q)
    by (change 0%Q with (inject_Z 0); rewrite <- Zlt_Qlt; exact Hb).
  rewrite (Qabs_pos (/ inject_Z b))
    by (apply Qlt_le_weak, Qinv_lt_0_compat, Hq).
  apply Qmult_comp; [|reflexivity].
  symmetry. unfold inject_Z. apply Zabs_Qabs.
Qed.

(** A quotient of integers below 10^18 is in the normal range. *)
Lemma normal_quotient (a b : Z) :
  0 < b <= 10 ^ 18 -> Z.abs a <= 10 ^ 18 ->
  JS.normal (inject_Z a / inject_Z b).
Proof.
  intros Hb Ha.
  assert (Hq : (0 < inject_Z b)%Q)
    by (change 0%Q with (inject_Z 0); rewrite <- Zlt_Qlt; lia).
  assert (Hb1 : (1 <= inject_Z b)%Q)
    by (change 1%Q with (inject_Z 1); rewrite <- Zle_Qle; lia).
  assert (Hb2 : (inject_Z b <= 1000000000000000000)%Q)
    by (change 1000000000000000000%Q with (inject_Z (10 ^ 18));
        rewrite <- Zle_Qle; lia).
  assert (Ha2 : (inject_Z (Z.abs a) <= 1000000000000000000)%Q)
    by (change 1000000000000000000%Q with (inject_Z (10 ^ 18));
        rewrite <- Zle_Qle; lia).
  destruct (Z.eq_dec a 0) as [-> | Hne].
  - left. unfold Qdiv. apply Qmult_0_l.
  - assert (Ha1 : (1 <= inject_Z (Z.abs a))%Q)
      by (change 1%Q with (inject_Z 1); rewrite <- Zle_Qle; lia).
    apply normal_mid; rewrite Qabs_quotient by lia.
    + apply Qle_shift_div_l; [exact Hq|].
      change (1 # 10 ^ 18)%Q with (1 # 1000000000000000000)%Q. lra.
    + apply Qle_shift_div_r; [exact Hq|]. lra.
Qed.

(** ** Comparisons of strings *)

Lemma str_eq_true a b : JS.str_eq a b = true <-> a = b.
Proof. apply String.eqb_eq. Qed.

Lemma str_eq_false a b : JS.str_eq a b = false <-> a <> b.
Proof. apply String.eqb_neq. Qed.

Lemma str_gt_le a b : JS.str_gt a b = negb (JS.str_le a b).
Proof.
  unfold JS.str_gt, JS.str_le, String.ltb, String.leb.
  rewrite (String.compare_antisym a b). now destruct (String.compare b a).
Qed.

Lemma str_le_refl a : JS.str_le a a = true.
Proof.
  unfold JS.str_le, String.leb.
  replace (String.compare a a) with Eq; [reflexivity|].
  induction a as [|c s IH]; [reflexivity|].
  now rewrite compare_same_head.
Qed.

Lemma includes_In l x : JS.includes l x = true <-> In x l.
Proof.
  unfold JS.includes. rewrite existsb_exists. split.
  - intros (y & Hy & E). apply Z.eqb_eq in E. now subst.
  - intros H. exists x. split; [assumption | apply Z.eqb_refl].
Qed.

Lemma exact_binary64 : JS.binary64 JS.exact.
Proof.
  split; unfold JS.exact.
  - intros x _. setoid_replace (x - x)%Q with 0%Q by ring.
    apply Qmult_le_0_compat; [apply Qabs_nonneg | discriminate].
  - reflexivity.
Qed.

(** ** Rounding to 53 bits *)

Section Round53.
Import JS.

Lemma round_half_even_near n d :
  0 < d -> 2 * Z.abs (round_half_even n d * d - n) <= d.
Proof.
  intros Hd. unfold round_half_even.
  pose proof (Z.div_mod n d ltac:(lia)) as E.
  pose proof (Z.mod_pos_bound n d Hd) as B.
  set (q := n / d) in *. set (r := n mod d) in *. clearbody q r.
  destruct (Z.ltb_spec (2 * r) d); [nia|].
  destruct (Z.ltb_spec d (2 * r)); [nia|].
  destruct (Z.even q); nia.
Qed.

Lemma round_half_even_exact q d : 0 < d -> round_half_even (q * d) d = q.
Proof.
  intros Hd. unfold round_half_even.
  rewrite Z.mod_mul, Z.div_mul by lia.
  now replace (2 * 0 <? d) with true by (symmetry; apply Z.ltb_lt; lia).
Qed.

Lemma pow2_pos e : (0 < pow2 e)%Q.
Proof.
  unfold pow2. destruct (0 <=? e) eqn:E.
  - change 0%Q with (inject_Z 0). rewrite <- Zlt_Qlt.
    apply Z.pow_pos_nonneg; [lia | apply Z.leb_le, E].
  - reflexivity.
Qed.

(** [scaled a d e] is [a / d] divided by [2^e]. *)
Lemma scaled_value a d e :
  0 < d ->
  let '(N, D) := scaled a d e in
  0 < D /\ (inject_Z a / inject_Z d == inject_Z N / inject_Z D * pow2 e)%Q.
Proof.
  intros Hd. unfold scaled, pow2.
  assert (Hdq : ~ (inject_Z d == 0)%Q)
    by (change 0%Q with (inject_Z 0); rewrite inject_Z_injective; lia).
  destruct (Z.leb_spec 0 e) as [He | He].
  - assert (Hp : 0 < 2 ^ e) by (apply Z.pow_pos_nonneg; lia).
    split; [nia|].
    rewrite inject_Z_mult. field.
    repeat split;
      first [ exact Hdq
            | change 0%Q with (inject_Z 0); rewrite inject_Z_injective; lia ].
  - assert (Hp : 0 < 2 ^ (- e)) by (apply Z.pow_pos_nonneg; lia).
    split; [lia|].
    rewrite inject_Z_mult.
    setoid_replace (1 # Z.to_pos (2 ^ (- e)))%Q
      with (/ inject_Z (2 ^ (- e)))%Q.
    + field.
      repeat split;
        first [ exact Hdq
              | change 0%Q with (inject_Z 0); rewrite inject_Z_injective; lia ].
    + destruct (2 ^ (- e)) as [|p|p] eqn:Ep; try lia. reflexivity.
Qed.

Lemma binade_normal a d :
  0 < a -> 0 < d ->
  let '(N, D) := scaled a d (binade a d) in 2 ^ 52 * D <= N.
Proof.
  intros Ha Hd. unfold binade.
  pose proof (Z.log2_spec a Ha) as [La _].
  pose proof (Z.log2_spec d Hd) as [_ Ld].
  pose proof (Z.log2_nonneg a) as Na. pose proof (Z.log2_nonneg d) as Nd.
  rewrite Z.pow_succ_r in Ld by assumption.
  set (la := Z.log2 a) in *. set (ld := Z.log2 d) in *.
  set (e0 := la - ld - 53).
  assert (Pa : 0 < 2 ^ la) by (apply Z.pow_pos_nonneg; lia).
  assert (Pd : 0 < 2 ^ ld) by (apply Z.pow_pos_nonneg; lia).
  (* at e0 the scaled fraction is at least 2^52 *)
  assert (H0 : let '(N, D) := scaled a d e0 in 2 ^ 52 * D <= N).
  { unfold scaled. destruct (Z.leb_spec 0 e0) as [He | He].
    - assert (E : 2 ^ la = 2 ^ e0 * 2 ^ ld * 2 ^ 53).
      { rewrite <- !Z.pow_add_r by lia. f_equal. subst e0. lia. }
      assert (Pe : 0 < 2 ^ e0) by (apply Z.pow_pos_nonneg; lia).
      change (2 ^ 53) with (2 * 2 ^ 52) in E. nia.
    - assert (E : 2 ^ la * 2 ^ (- e0) = 2 ^ ld * 2 ^ 53).
      { rewrite <- !Z.pow_add_r by lia. f_equal. subst e0. lia. }
      assert (Pe : 0 < 2 ^ (- e0)) by (apply Z.pow_pos_nonneg; lia).
      change (2 ^ 53) with (2 * 2 ^ 52) in E. nia. }
  destruct (scaled a d e0) as [N0 D0] eqn:S0.
  destruct (Z.ltb_spec N0 (2 ^ 53 * D0)) as [Hlt | Hge].
  - rewrite S0. exact H0.
  - revert S0. unfold scaled.
    destruct (Z.leb_spec 0 e0) as [He | He].
    + intros [= <- <-].
      replace (0 <=? e0 + 1) with true by (symmetry; apply Z.leb_le; lia).
      rewrite Z.pow_add_r by lia. change (2 ^ 1) with 2.
      change (2 ^ 53) with (2 * 2 ^ 52) in Hge. nia.
    + intros [= <- <-].
      destruct (Z.leb_spec 0 (e0 + 1)) as [He' | He'].
      * replace (e0 + 1) with 0 by lia. replace (- e0) with 1 in Hge by lia.
        change (2 ^ 1) with 2 in Hge. change (2 ^ 0) with 1.
        change (2 ^ 53) with (2 * 2 ^ 52) in Hge. lia.
      * replace (- e0) with (- (e0 + 1) + 1) in Hge by lia.
        rewrite Z.pow_add_r in Hge by lia. change (2 ^ 1) with 2 in Hge.
        change (2 ^ 53) with (2 * 2 ^ 52) in Hge. lia.
Qed.

Lemma inject_Z_nonzero z : z <> 0 -> ~ (inject_Z z == 0)%Q.
Proof.
  intros H. change 0%Q with (inject_Z 0). rewrite inject_Z_injective. exact H.
Qed.

(** The nearest integer to a fraction of at least 2^52 is within a
    relative 2^-53 of it. *)
Lemma nearest_relative (m N D : Z) :
  0 < D -> 2 ^ 52 * D <= N -> 2 * Z.abs (m * D - N) <= D ->
  (Qabs (inject_Z m - inject_Z N / inject_Z D)
   <= inject_Z N / inject_Z D * unit_roundoff)%Q.
Proof.
  intros HD HN Hm.
  assert (HDq : (0 < inject_Z D)%Q)
    by (change 0%Q with (inject_Z 0); rewrite <- Zlt_Qlt; exact HD).
  apply Qle_trans with (1 # 2)%Q.
  - setoid_replace (inject_Z m - inject_Z N / inject_Z D)%Q
      with (inject_Z (m * D - N) / inject_Z D)%Q.
    + rewrite Qabs_quotient by exact HD.
      apply Qle_shift_div_r; [exact HDq|].
      rewrite Zle_Qle, inject_Z_mult in Hm.
      change (inject_Z 2) with 2%Q in Hm. lra.
    + unfold Z.sub. rewrite inject_Z_plus, inject_Z_mult, inject_Z_opp.
      field. apply inject_Z_nonzero. lia.
  - assert (Hr : (4503599627370496 <= inject_Z N / inject_Z D)%Q).
    { apply Qle_shift_div_l; [exact HDq|].
      rewrite Zle_Qle, inject_Z_mult in HN. exact HN. }
    unfold unit_roundoff. lra.
Qed.

Lemma Qabs_sgn (n : Z) (y : Q) :
  n <> 0 -> (Qabs (inject_Z (Z.sgn n) * y) == Qabs y)%Q.
Proof.
  intros Hn. rewrite Qabs_Qmult.
  destruct n as [|p|p]; [contradiction| |]; cbn [Z.sgn];
    change (Qabs (inject_Z 1)) with 1%Q;
    change (Qabs (inject_Z (-1))) with 1%Q; ring.
Qed.

(** What [round53] computes on a number other than 0: the sign, times the
    nearest integer [m] to the scaled magnitude [N / D], times the
    scale. *)
Lemma round53_parts (x : Q) :
  Qnum x <> 0 ->
  exists e N D,
    0 < D /\ 2 ^ 52 * D <= N
    /\ scaled (Z.abs (Qnum x)) (Zpos (Qden x)) e = (N, D)
    /\ (round53 x
        == inject_Z (Z.sgn (Qnum x))
           * (inject_Z (round_half_even N D) * pow2 e))%Q
    /\ (x == inject_Z (Z.sgn (Qnum x))
             * (inject_Z N / inject_Z D * pow2 e))%Q.
Proof.
  intros Hn. destruct x as [n p]. cbn [Qnum Qden] in *.
  set (d := Zpos p). set (a := Z.abs n).
  assert (Ha : 0 < a) by (subst a; lia).
  assert (Hd : 0 < d) by reflexivity.
  exists (binade a d).
  pose proof (binade_normal a d Ha Hd) as B.
  pose proof (scaled_value a d (binade a d) Hd) as S.
  unfold round53. cbn [Qnum Qden]. fold d a.
  replace (n =? 0) with false by (symmetry; apply Z.eqb_neq; exact Hn).
  destruct (scaled a d (binade a d)) as [N D].
  exists N, D. destruct S as [HD S].
  repeat split; try assumption.
  - rewrite inject_Z_mult. ring.
  - rewrite <- S. rewrite (Qmake_Qdiv n p). fold d.
    assert (En : (inject_Z n == inject_Z (Z.sgn n) * inject_Z (Z.abs n))%Q).
    { rewrite <- inject_Z_mult.
      now replace (Z.sgn n * Z.abs n) with n by (destruct n; reflexivity). }
    rewrite En. subst a d. unfold Qdiv. ring.
Qed.

Theorem round53_error (x : Q) :
  (Qabs (round53 x - x) <= Qabs x * unit_roundoff)%Q.
Proof.
  destruct (Z.eq_dec (Qnum x) 0) as [Hz | Hn].
  - assert (E : (x == 0)%Q) by (unfold Qeq; cbn; lia).
    unfold round53. rewrite Hz. cbn [Z.eqb].
    setoid_replace (0 - x)%Q with 0%Q by (rewrite E; ring).
    apply Qmult_le_0_compat; [apply Qabs_nonneg | discriminate].
  - destruct (round53_parts x Hn) as (e & N & D & HD & HN & _ & Er & Ex).
    set (m := round_half_even N D) in *.
    pose proof (round_half_even_near N D HD) as Hm. fold m in Hm.
    pose proof (nearest_relative m N D HD HN Hm) as Hrel.
    pose proof (pow2_pos e) as HP.
    set (r := (inject_Z N / inject_Z D)%Q) in *.
    assert (Hr : (0 <= r)%Q).
    { subst r. apply Qle_shift_div_l.
      - change 0%Q with (inject_Z 0). rewrite <- Zlt_Qlt. exact HD.
      - rewrite Qmult_0_l. change 0%Q with (inject_Z 0).
        rewrite <- Zle_Qle. nia. }
    setoid_replace (round53 x - x)%Q
      with (inject_Z (Z.sgn (Qnum x)) * (pow2 e * (inject_Z m - r)))%Q
      by (rewrite Er; rewrite Ex at 2; ring).
    rewrite Ex at 2.
    rewrite !Qabs_sgn by exact Hn.
    rewrite !Qabs_Qmult.
    rewrite (Qabs_pos (pow2 e)) by (apply Qlt_le_weak, HP).
    rewrite (Qabs_pos r) by exact Hr.
    setoid_replace (r * pow2 e * unit_roundoff)%Q
      with (pow2 e * (r * unit_roundoff))%Q by ring.
    apply Qmult_le_l; assumption.
Qed.

Theorem round53_exact (x : Q) (z : Z) :
  (x == inject_Z z / 2)%Q -> Z.abs z <= 2 ^ 53 -> (round53 x == x)%Q.
Proof.
  intros Ex Hz.
  destruct (Z.eq_dec (Qnum x) 0) as [Hn | Hn].
  - unfold round53. rewrite Hn. cbn [Z.eqb]. unfold Qeq. cbn. lia.
  - destruct (round53_parts x Hn) as (e & N & D & HD & HN & S & Er & Ex').
    rewrite Er. rewrite Ex' at 2.
    apply Qmult_comp; [reflexivity|]. apply Qmult_comp; [|reflexivity].
    (* the scaled magnitude is an integer *)
    assert (Hq : exists q, N = q * D).
    { assert (E2 : 2 * Z.abs (Qnum x) = Z.abs z * Zpos (Qden x)).
      { unfold Qeq in Ex. cbn in Ex.
        apply (f_equal Z.abs) in Ex. rewrite !Z.abs_mul in Ex.
        rewrite (Z.abs_eq (QDen x)) in Ex by lia.
        change (Z.abs 2) with 2 in Ex. change (Z.abs 1) with 1 in Ex. lia. }
      set (a := Z.abs (Qnum x)) in *. set (d := Zpos (Qden x)) in *.
      assert (Hd : 0 < d) by reflexivity.
      clearbody a d. revert S. unfold scaled.
      destruct (Z.leb_spec 0 e) as [He | He].
      - intros [= <- <-].
        assert (Pe : 0 < 2 ^ e) by (apply Z.pow_pos_nonneg; lia).
        assert (e = 0).
        { destruct (Z.eq_dec e 0) as [|Hne]; [assumption|].
          assert (2 <= 2 ^ e).
          { replace e with (1 + (e - 1)) by lia.
            rewrite Z.pow_add_r by lia. change (2 ^ 1) with 2.
            assert (0 < 2 ^ (e - 1)) by (apply Z.pow_pos_nonneg; lia). lia. }
          change (2 ^ 53) with (2 * 2 ^ 52) in Hz.
          assert (Z.abs z * d <= 2 * 2 ^ 52 * d) by nia.
          assert (2 ^ 52 * d * 2 <= 2 ^ 52 * (d * 2 ^ e)) by nia.
          lia. }
        subst e. change (2 ^ 0) with 1 in *.
        exists (2 ^ 52). change (2 ^ 53) with (2 * 2 ^ 52) in Hz.
        assert (Z.abs z * d <= 2 * 2 ^ 52 * d) by nia.
        lia.
      - intros [= <- <-].
        exists (Z.abs z * 2 ^ (- e - 1)).
        replace (- e) with (1 + (- e - 1)) at 1 by lia.
        rewrite Z.pow_add_r by lia. change (2 ^ 1) with 2. nia. }
    destruct Hq as [q ->].
    rewrite round_half_even_exact by exact HD.
    rewrite inject_Z_mult. field. apply inject_Z_nonzero. lia.
Qed.

Theorem round53_binary64 : binary64 round53.
Proof.
  split.
  - intros x _. apply round53_error.
  - exact round53_exact.
Qed.

End Round53.

(** ** The rounded quotient of two integers *)

Lemma near_half_bounds (X Y N T A K : Q) :
  (1 <= N -> X * N == T -> A * N < 4503599627370496 -> 0 <= A ->
   - (A * JS.unit_roundoff) <= Y - X <= A * JS.unit_roundoff ->
   2 * N * K - N + 1 <= 2 * T -> 2 * T <= 2 * N * K + N - 1 ->
   K - (1 # 2) <= Y /\ Y < K + (1 # 2))%Q.
Proof.
  unfold JS.unit_roundoff. intros HN HX HA HA0 [E1 E2] H1 H2.
  assert (P1 : (0 <= N * (Y - X + A * (1 # 9007199254740992)))%Q)
    by (apply Qmult_le_0_compat; lra).
  assert (P2 : (0 <= N * (A * (1 # 9007199254740992) - (Y - X)))%Q)
    by (apply Qmult_le_0_compat; lra).
  split.
  - apply (Qmult_le_l _ _ N); lra.
  - apply (Qmult_lt_l _ _ N); lra.
Qed.

(** Inequalities between integers, read in [Q]. *)
Ltac q_of_z :=
  unfold Qminus;
  change 2%Q with (inject_Z 2); change 1%Q with (inject_Z 1);
  rewrite <- ?inject_Z_opp, <- ?inject_Z_mult, <- ?inject_Z_plus,
          <- ?inject_Z_opp, <- ?inject_Z_mult, <- ?inject_Z_plus;
  try rewrite <- Zle_Qle; try rewrite <- Zlt_Qlt.

(** Rounding the quotient to a float does not change the integer it is
    nearest to, ties included, while the dividend is below 2^52. *)
Lemma Math_round_fl_quotient fl (x : Q) (T N : Z) :
  JS.binary64 fl -> 0 < N <= 2 ^ 32 -> Z.abs T < 2 ^ 52 ->
  (x == inject_Z T / inject_Z N)%Q ->
  JS.Math_round (fl x) = JS.Math_round (inject_Z T / inject_Z N).
Proof.
  intros Hfl [HN HN'] HT Ex.
  assert (Hn : JS.normal x).
  { destruct (normal_quotient T N ltac:(lia) ltac:(lia)) as [Z0 | [H1 H2]].
    - left. now rewrite Ex.
    - right. rewrite Ex. split; assumption. }
  rewrite <- (Math_round_comp _ _ Ex).
  set (k := JS.Math_round x).
  pose proof (Math_round_nearest T N HN) as Hk. cbv zeta in Hk.
  rewrite <- (Math_round_comp _ _ Ex) in Hk. fold k in Hk.
  assert (HNq : ~ (inject_Z N == 0)%Q)
    by (change 0%Q with (inject_Z 0); rewrite inject_Z_injective; lia).
  destruct (Z.eq_dec (2 * T) (2 * N * k - N)) as [Tie | NoTie].
  - apply Math_round_comp, (JS.fl_exact _ Hfl x (2 * k - 1)).
    + assert (Tq : (2 * inject_Z T
                    == 2 * inject_Z N * inject_Z k - inject_Z N)%Q).
      { change 2%Q with (inject_Z 2). unfold Qminus.
        rewrite <- inject_Z_opp, <- !inject_Z_mult, <- inject_Z_plus.
        now rewrite Tie. }
      unfold Z.sub. rewrite inject_Z_plus, inject_Z_mult.
      change (inject_Z 2) with 2%Q. change (inject_Z (- (1))) with (- (1))%Q.
      apply (Qmult_inj_r _ _ (2 * inject_Z N)%Q);
        [intros E; apply HNq; lra|].
      rewrite Ex. transitivity (2 * inject_Z T)%Q; [field; exact HNq|].
      rewrite Tq. field.
    + change (2 ^ 53) with (2 * 2 ^ 52). nia.
  - assert (HX : (x * inject_Z N == inject_Z T)%Q)
      by (rewrite Ex; field; exact HNq).
    assert (HA : (Qabs x * inject_Z N < 4503599627370496)%Q).
    { apply Qle_lt_trans with (inject_Z (Z.abs T)).
      - setoid_replace (inject_Z (Z.abs T)) with (Qabs (inject_Z T))
          by (unfold inject_Z; apply Zabs_Qabs).
        rewrite <- HX, Qabs_Qmult.
        rewrite (Qabs_pos (inject_Z N));
          [apply Qle_refl | change 0%Q with (inject_Z 0)].
        rewrite <- Zle_Qle. lia.
      - change 4503599627370496%Q with (inject_Z (2 ^ 52)).
        rewrite <- Zlt_Qlt. exact HT. }
    assert (HN1 : (1 <= inject_Z N)%Q) by (q_of_z; lia).
    assert (H1 : (2 * inject_Z N * inject_Z k - inject_Z N + 1
                  <= 2 * inject_Z T)%Q) by (q_of_z; lia).
    assert (H2 : (2 * inject_Z T
                  <= 2 * inject_Z N * inject_Z k + inject_Z N - 1)%Q)
      by (q_of_z; lia).
    pose proof (JS.fl_error _ Hfl x Hn) as Herr.
    apply Qabs_Qle_condition in Herr.
    destruct (near_half_bounds x (fl x) (inject_Z N) (inject_Z T) (Qabs x)
                (inject_Z k) HN1 HX HA (Qabs_nonneg x) Herr H1 H2).
    apply Math_round_unique; assumption.
Qed.

Lemma Math_round_fl_div fl (T N : Z) :
  JS.binary64 fl -> 0 < N <= 2 ^ 32 -> Z.abs T < 2 ^ 52 ->
  JS.Math_round (JS.div fl (inject_Z T) (inject_Z N))
  = JS.Math_round (inject_Z T / inject_Z N).
Proof.
  intros Hfl HN HT. unfold JS.div.
  apply Math_round_fl_quotient; [assumption .. | reflexivity].
Qed.
End JSFacts.

(* ================================================================== *)
(** * Properties of the recurrence evaluator *)
(* ================================================================== *)

Module RecurrenceFacts.
Import Calendar DateFns DateFnsFacts JSFacts Recurrence.

Section Evaluator.
Variable host : Host.t.

#[local] Abbreviation isWorkoutOnDate := (isWorkoutOnDate host).

(** The offsets in force at two local midnights differ by less than
    half a day. *)
Definition steady_zone : Prop :=
  forall a b,
    2 * Z.abs (Host.utcOffset host a - Host.utcOffset host b) < msPerDay.

(** The whole days from the day of [start] to the day of [target]. *)
Definition daysBetween (start target : JSDate) : Z :=
  localDay target - localDay start.

(** [Math.round] of the rounded quotient is the day count: the two
    midnights are a whole number of days apart but for the change of
    offset, and the rounding error of the division is far smaller than
    what is left to the next half. *)
Lemma diffDays_exact start target :
  JS.binary64 (Host.fl host) -> steady_zone ->
  Z.abs (daysBetween start target) <= 100000000 ->
  diffDays host start target = daysBetween start target.
Proof.
  intros Hfl Hz Hk. unfold diffDays, JS.div, getTime.
  specialize (Hz (setHours0 start) (setHours0 target)).
  set (s0 := setHours0 start) in *. set (t0 := setHours0 target) in *.
  set (e := Host.utcOffset host s0 - Host.utcOffset host t0) in *.
  set (k := daysBetween start target) in *.
  replace (localDay t0 * msPerDay + timeInDay t0 - Host.utcOffset host t0
           - (localDay s0 * msPerDay + timeInDay s0 - Host.utcOffset host s0))
    with (msPerDay * k + e)
    by (subst k e s0 t0; unfold daysBetween; cbn [setHours0 localDay timeInDay];
        lia).
  change (inject_Z msPerDay) with 86400000%Q.
  set (x := (inject_Z (msPerDay * k + e) / 86400000)%Q).
  assert (Ex : (x == inject_Z k + inject_Z e * (1 # 86400000))%Q).
  { subst x. rewrite inject_Z_plus, inject_Z_mult.
    change (inject_Z msPerDay) with 86400000%Q. field. }
  assert (He : (- 43199999 <= inject_Z e <= 43199999)%Q).
  { change 43199999%Q with (inject_Z 43199999).
    change (-43199999)%Q with (inject_Z (-43199999)).
    rewrite <- !Zle_Qle. unfold msPerDay in Hz. lia. }
  assert (Hk' : (- 100000000 <= inject_Z k <= 100000000)%Q).
  { change 100000000%Q with (inject_Z 100000000).
    change (-100000000)%Q with (inject_Z (-100000000)).
    rewrite <- !Zle_Qle. lia. }
  assert (Hn : JS.normal x).
  { subst x. change 86400000%Q with (inject_Z msPerDay).
    apply normal_quotient; unfold msPerDay in *; lia. }
  clearbody x k e. clear Hz Hk.
  pose proof (JS.fl_error _ Hfl x Hn) as Herr.
  apply Qabs_Qle_condition in Herr.
  assert (Hx : (Qabs x <= 100000001)%Q) by (apply Qabs_Qle_condition; lra).
  unfold JS.unit_roundoff in Herr.
  apply Math_round_unique; lra.
Qed.

(** Step 1 of the evaluator. *)
Lemma exact_date w t :
  Workout.date w = format t -> isWorkoutOnDate w t = true.
Proof.
  intros E. unfold Recurrence.isWorkoutOnDate.
  apply str_eq_true in E. now rewrite E.
Qed.

(** What is left of the evaluator once the guards of lines 12-17 have
    passed. *)
Lemma past_guards w t ty :
  Workout.recurring w = Some true ->
  Workout.recurrenceType w = Some ty ->
  ty <> EmptyString -> ty <> "none"%string ->
  Workout.date w <> format t ->
  JS.str_le (Workout.date w) (format t) = true ->
  (forall e, Workout.recurrenceEnd w = Some e ->
             JS.str_le (format t) e = true) ->
  isWorkoutOnDate w t =
    if JS.str_eq ty "daily" then true
    else if JS.str_eq ty "weekly" then
      match Workout.recurrenceDays w with
      | Some recurrenceDays => JS.includes recurrenceDays (getDay t)
      | None => false
      end
    else if JS.str_eq ty "custom" then
      if negb (JS.truthy_num (Workout.recurrenceInterval w))
         || JS.num_lt_opt (Workout.recurrenceInterval w) 1
      then false
      else
        match Host.parseISO host (Workout.date w),
              Workout.recurrenceInterval w with
        | Some start, Some recurrenceInterval =>
            let d := diffDays host start t in
            (d >=? 0) && (JS.js_rem d recurrenceInterval =? 0)
        | _, _ => false
        end
    else false.
Proof.
  intros Hr Hty Hne Hnone Hd Hle Hend.
  unfold Recurrence.isWorkoutOnDate.
  apply str_eq_false in Hd. rewrite Hd, Hr, Hty, Hle.
  cbn [JS.truthy_bool JS.truthy_str JS.is_str andb].
  apply String.eqb_neq in Hne. apply str_eq_false in Hnone.
  rewrite Hne, Hnone. cbn [negb andb].
  destruct (Workout.recurrenceEnd w) as [e|] eqn:Ee.
  - cbn [JS.str_gt_opt JS.truthy_str].
    rewrite str_gt_le, (Hend e eq_refl). cbn [negb].
    now rewrite andb_false_r.
  - reflexivity.
Qed.

Lemma format_nonempty t :
  four_digit_year (localDay t) -> format t <> EmptyString.
Proof.
  intros H. rewrite format_date_string by assumption.
  destruct (civil_from_days (localDay t)) as [[y m] d]. discriminate.
Qed.

(** C10. A workout is active on its own date whatever its recurrence
    fields hold: the exact-date match is tested before the recurring
    flag, the recurrence type and the end date are looked at, so that
    even a recurrence that ends before the anchor date leaves the anchor
    date active. *)
Theorem anchor_date_always_active (w : Workout.t) (d : JSDate) :
  Workout.date w = format d -> isWorkoutOnDate w d = true.
Proof.
  intros E. unfold Recurrence.isWorkoutOnDate.
  (* the first test of the evaluator *)
  replace (JS.str_eq (Workout.date w) (format d)) with true.
  - reflexivity.
  - symmetry. apply str_eq_true. exact E.
Qed.

(** C4. A workout that is not recurring, or whose recurrence type is
    'none' or absent, is active on a date if and only if the date's string
    equals the workout's date. *)
Theorem non_recurring_only_own_date (w : Workout.t) (d : JSDate) :
  JS.truthy_bool (Workout.recurring w) = false \/
  Workout.recurrenceType w = None \/
  Workout.recurrenceType w = Some "none"%string ->
  (isWorkoutOnDate w d = true <-> Workout.date w = format d).
Proof.
  intros H. split; [|apply exact_date].
  unfold Recurrence.isWorkoutOnDate.
  destruct (JS.str_eq (Workout.date w) (format d)) eqn:E.
  - intros _. now apply str_eq_true.
  - destruct H as [H | [H | H]]; rewrite H.
    + discriminate.
    + destruct (JS.truthy_bool (Workout.recurring w)); discriminate.
    + change (JS.is_str (Some "none"%string) "none") with true.
      destruct (JS.truthy_bool (Workout.recurring w)); discriminate.
Qed.

(** C5. For a recurring weekly workout, on a date after its own and not
    after its recurrence end, the evaluator returns true if and only if
    the weekday number of the date (0 = Sunday ... 6 = Saturday) is in
    recurrenceDays; with recurrenceDays absent or empty it returns false.
    The evaluator is a total function: no case raises an error. *)
Theorem weekly_recurrence (w : Workout.t) (targetDate : JSDate) :
  Workout.recurring w = Some true ->
  Workout.recurrenceType w = Some "weekly"%string ->
  JS.str_le (Workout.date w) (format targetDate) = true ->
  Workout.date w <> format targetDate ->
  (forall e, Workout.recurrenceEnd w = Some e ->
             JS.str_le (format targetDate) e = true) ->
  (isWorkoutOnDate w targetDate = true <->
     exists days, Workout.recurrenceDays w = Some days /\
                  In (getDay targetDate) days)
  /\ 0 <= getDay targetDate <= 6
  /\ (Workout.recurrenceDays w = None \/ Workout.recurrenceDays w = Some [] ->
      isWorkoutOnDate w targetDate = false).
Proof.
  intros Hr Hty Hle Hd Hend.
  rewrite (past_guards w targetDate _ Hr Hty) by (assumption || discriminate).
  change (JS.str_eq "weekly" "daily") with false.
  change (JS.str_eq "weekly" "weekly") with true. cbv iota.
  split; [|split].
  - destruct (Workout.recurrenceDays w) as [days|].
    + rewrite includes_In. split.
      * intros H. now exists days.
      * intros (l & E & H). now injection E as ->.
    + split; [discriminate|]. now intros (l & E & _).
  - apply CalendarFacts.week_day_range.
  - intros [-> | ->]; reflexivity.
Qed.

(** C1. For a recurring custom workout, on a date after its own and not
    after its recurrence end, the evaluator returns true if and only if the
    number of whole days from the workout's date to the target date is at
    least 0 and a multiple of recurrenceInterval, an interval that is
    absent or below 1 giving false.  The day count the code computes, from
    the two local midnights, a floating-point division and a rounding, is
    that integer exactly. *)
Theorem custom_recurrence (w : Workout.t) (targetDate start : JSDate) :
  JS.binary64 (Host.fl host) ->
  steady_zone ->
  Workout.recurring w = Some true ->
  Workout.recurrenceType w = Some "custom"%string ->
  Host.parseISO host (Workout.date w) = Some start ->
  Z.abs (daysBetween start targetDate) <= 100000000 ->
  JS.str_le (Workout.date w) (format targetDate) = true ->
  Workout.date w <> format targetDate ->
  (forall e, Workout.recurrenceEnd w = Some e ->
             JS.str_le (format targetDate) e = true) ->
  diffDays host start targetDate = daysBetween start targetDate
  /\ (isWorkoutOnDate w targetDate = true <->
        exists n, Workout.recurrenceInterval w = Some n /\ 1 <= n /\
                  0 <= daysBetween start targetDate /\
                  (n | daysBetween start targetDate))
  /\ (forall n, Workout.recurrenceInterval w = None \/
                (Workout.recurrenceInterval w = Some n /\ n < 1) ->
                isWorkoutOnDate w targetDate = false).
Proof.
  intros Hfl Hz Hr Hty Hp Hk Hle Hd Hend.
  rewrite (past_guards w targetDate _ Hr Hty) by (assumption || discriminate).
  change (JS.str_eq "custom" "daily") with false.
  change (JS.str_eq "custom" "weekly") with false.
  change (JS.str_eq "custom" "custom") with true. cbv iota.
  rewrite Hp. cbv zeta. rewrite (diffDays_exact _ _ Hfl Hz Hk).
  set (k := daysBetween start targetDate).
  split; [reflexivity|].
  destruct (Workout.recurrenceInterval w) as [n|];
    cbn [JS.truthy_num JS.num_lt_opt negb orb].
  - destruct (Z.ltb_spec n 1) as [Hn | Hn].
    + rewrite orb_true_r. split.
      * split; [discriminate|]. intros (m & E & Hm & _).
        injection E as ->. lia.
      * reflexivity.
    + replace (n =? 0) with false by (symmetry; apply Z.eqb_neq; lia).
      cbn [negb orb]. split.
      * unfold JS.js_rem. rewrite andb_true_iff, Z.geb_le, Z.eqb_eq.
        rewrite (Z.rem_divide k n) by lia. split.
        -- intros [H0 Hdiv]. exists n. repeat split; (assumption || lia).
        -- intros (m & E & _ & H0 & Hdiv). injection E as ->. now split.
      * intros m [E | [E Hm]]; [discriminate|]. injection E as ->. lia.
  - split.
    + split; [discriminate|]. now intros (m & E & _).
    + reflexivity.
Qed.

(** C2, amended.  For a recurring daily workout whose date, and whose
    recurrence end if there is one, are calendar dates: with an end the
    evaluator returns true on every date from the workout's date through
    the end inclusive, and false on every date strictly after the end
    other than the workout's own date; without an end it returns true on
    every date from the workout's date on and false on every earlier
    date. *)
Theorem daily_recurrence_window (w : Workout.t) (anchor targetDate : JSDate) :
  Workout.recurring w = Some true ->
  Workout.recurrenceType w = Some "daily"%string ->
  Workout.date w = format anchor ->
  four_digit_year (localDay anchor) ->
  four_digit_year (localDay targetDate) ->
  (forall last,
     Workout.recurrenceEnd w = Some (format last) ->
     four_digit_year (localDay last) ->
     (localDay anchor <= localDay targetDate <= localDay last ->
      isWorkoutOnDate w targetDate = true) /\
     (localDay last < localDay targetDate ->
      localDay targetDate <> localDay anchor ->
      isWorkoutOnDate w targetDate = false))
  /\ (Workout.recurrenceEnd w = None ->
      (localDay anchor <= localDay targetDate ->
       isWorkoutOnDate w targetDate = true) /\
      (localDay targetDate < localDay anchor ->
       isWorkoutOnDate w targetDate = false)).
Proof.
  intros Hr Hty Hd Ha Ht.
  pose proof (format_eq anchor targetDate Ha Ht) as Feq.
  pose proof (format_le anchor targetDate Ha Ht) as Fle.
  unfold Recurrence.isWorkoutOnDate.
  rewrite Hr, Hty, Hd, Feq, Fle.
  cbn [JS.truthy_bool JS.truthy_str JS.is_str andb].
  change (String.eqb "daily" EmptyString) with false.
  change (JS.str_eq "daily" "none") with false.
  change (JS.str_eq "daily" "daily") with true.
  cbn [negb andb].
  split.
  - intros last He Hl. rewrite He.
    cbn [JS.truthy_str JS.str_gt_opt].
    pose proof (format_nonempty last Hl) as Hne.
    apply String.eqb_neq in Hne. rewrite Hne. cbn [negb andb].
    rewrite (format_gt targetDate last Ht Hl).
    split.
    + intros [H1 H2].
      destruct (Z.eqb_spec (localDay anchor) (localDay targetDate));
        [reflexivity|].
      replace (localDay anchor <=? localDay targetDate) with true
        by (symmetry; apply Z.leb_le; lia).
      replace (localDay last <? localDay targetDate) with false
        by (symmetry; apply Z.ltb_ge; lia).
      reflexivity.
    + intros H1 H2.
      replace (localDay anchor =? localDay targetDate) with false
        by (symmetry; apply Z.eqb_neq; lia).
      replace (localDay last <? localDay targetDate) with true
        by (symmetry; apply Z.ltb_lt; lia).
      now destruct (localDay anchor <=? localDay targetDate).
  - intros He. rewrite He. cbn [JS.truthy_str andb]. split.
    + intros H1.
      destruct (Z.eqb_spec (localDay anchor) (localDay targetDate));
        [reflexivity|].
      now replace (localDay anchor <=? localDay targetDate) with true
        by (symmetry; apply Z.leb_le; lia).
    + intros H1.
      replace (localDay anchor =? localDay targetDate) with false
        by (symmetry; apply Z.eqb_neq; lia).
      now replace (localDay anchor <=? localDay targetDate) with false
        by (symmetry; apply Z.leb_gt; lia).
Qed.

End Evaluator.

(** ** The theorems at concrete workouts *)

(** A zone with daylight saving: UTC+1, and UTC+2 from 2024-03-31 up to
    2024-10-27. *)
Definition summer_zone (t : JSDate) : Z :=
  if (days_from_civil 2024 3 31 <=? localDay t)
     && (localDay t <? days_from_civil 2024 10 27)
  then 7200000 else 3600000.

Definition summer_host : Host.t :=
  {| Host.fl := JS.round53;
     Host.utcOffset := summer_zone;
     Host.parseISO := parseISO_date |}.

Lemma summer_zone_steady : steady_zone summer_host.
Proof.
  intros a b. cbn [summer_host Host.utcOffset]. unfold summer_zone.
  destruct (_ && _), (_ && _); vm_compute; reflexivity.
Qed.

(** Across the change of offset the two midnights are 47 hours apart. *)
Example diffDays_across_dst :
  getTime summer_zone (ymd 2024 4 1) - getTime summer_zone (ymd 2024 3 30)
    = 47 * 3600000
  /\ diffDays summer_host (ymd 2024 3 30) (ymd 2024 4 1) = 2.
Proof. split; vm_compute; reflexivity. Qed.

Lemma anchor_date_always_active_witness :
  let w := scheduled "2024-01-10" (Some true) (Some "daily"%string)
                     None None (Some "2024-01-05"%string) in
  Workout.date w = format (ymd 2024 1 10)
  /\ isWorkoutOnDate utc w (ymd 2024 1 10) = true.
Proof.
  split; [reflexivity|].
  apply (anchor_date_always_active utc). reflexivity.
Defined.

Lemma non_recurring_only_own_date_witness :
  let w := scheduled "2024-01-10" (Some false) (Some "daily"%string)
                     None None None in
  isWorkoutOnDate utc w (ymd 2024 1 11) = true
  <-> Workout.date w = format (ymd 2024 1 11).
Proof.
  apply (non_recurring_only_own_date utc).
  left. reflexivity.
Defined.

Lemma weekly_recurrence_witness :
  let w := scheduled "2024-01-01" (Some true) (Some "weekly"%string)
                     None (Some [1; 3; 5]) (Some "2024-01-31"%string) in
  let targetDate := ymd 2024 1 12 in
  (isWorkoutOnDate utc w targetDate = true <->
     exists days, Workout.recurrenceDays w = Some days /\
                  In (getDay targetDate) days)
  /\ 0 <= getDay targetDate <= 6
  /\ (Workout.recurrenceDays w = None \/ Workout.recurrenceDays w = Some [] ->
      isWorkoutOnDate utc w targetDate = false).
Proof.
  apply (weekly_recurrence utc).
  - reflexivity.
  - reflexivity.
  - reflexivity.
  - vm_compute. discriminate.
  - intros e E. injection E as <-. reflexivity.
Defined.

Lemma custom_recurrence_witness :
  let w := scheduled "2024-03-30" (Some true) (Some "custom"%string)
                     (Some 2) None None in
  let targetDate := mkDate (days_from_civil 2024 4 1) (18 * 3600000) in
  let start := ymd 2024 3 30 in
  diffDays summer_host start targetDate = daysBetween start targetDate
  /\ (isWorkoutOnDate summer_host w targetDate = true <->
        exists n, Workout.recurrenceInterval w = Some n /\ 1 <= n /\
                  0 <= daysBetween start targetDate /\
                  (n | daysBetween start targetDate))
  /\ (forall n, Workout.recurrenceInterval w = None \/
                (Workout.recurrenceInterval w = Some n /\ n < 1) ->
                isWorkoutOnDate summer_host w targetDate = false).
Proof.
  apply (custom_recurrence summer_host).
  - exact round53_binary64.
  - exact summer_zone_steady.
  - reflexivity.
  - reflexivity.
  - reflexivity.
  - vm_compute. discriminate.
  - reflexivity.
  - vm_compute. discriminate.
  - discriminate.
Defined.

Lemma daily_recurrence_window_witness :
  let w := scheduled "2024-01-01" (Some true) (Some "daily"%string)
                     None None (Some "2024-01-05"%string) in
  let anchor := ymd 2024 1 1 in
  let targetDate := ymd 2024 1 6 in
  (forall last,
     Workout.recurrenceEnd w = Some (format last) ->
     four_digit_year (localDay last) ->
     (localDay anchor <= localDay targetDate <= localDay last ->
      isWorkoutOnDate utc w targetDate = true) /\
     (localDay last < localDay targetDate ->
      localDay targetDate <> localDay anchor ->
      isWorkoutOnDate utc w targetDate = false))
  /\ (Workout.recurrenceEnd w = None ->
      (localDay anchor <= localDay targetDate ->
       isWorkoutOnDate utc w targetDate = true) /\
      (localDay targetDate < localDay anchor ->
       isWorkoutOnDate utc w targetDate = false)).
Proof.
  apply (daily_recurrence_window utc).
  - reflexivity.
  - reflexivity.
  - reflexivity.
  - split; vm_compute; discriminate.
  - split; vm_compute; discriminate.
Defined.

(** C2 as stated fails where the recurrence ends before the workout's own
    date: on that date, strictly after the end, the workout is active. *)
Lemma daily_active_after_end :
  let w := scheduled "2024-01-10" (Some true) (Some "daily"%string)
                     None None (Some "2024-01-05"%string) in
  let last := ymd 2024 1 5 in
  let targetDate := ymd 2024 1 10 in
  Workout.recurring w = Some true
  /\ Workout.recurrenceType w = Some "daily"%string
  /\ Workout.recurrenceEnd w = Some (format last)
  /\ JS.str_gt (format targetDate) (format last) = true
  /\ localDay last < localDay targetDate
  /\ isWorkoutOnDate utc w targetDate <> false.
Proof. vm_compute. repeat split; discriminate. Qed.

End RecurrenceFacts.

(* ================================================================== *)
(** * Properties of the period aggregator *)
(* ================================================================== *)

Module DashboardFacts.
Import Calendar DateFns DateFnsFacts JSFacts.
Import Recurrence RecurrenceFacts Dashboard.

(** The sum of a list of integers. *)
Fixpoint sumZ (l : list Z) : Z :=
  match l with
  | [] => 0
  | x :: l => x + sumZ l
  end.

Lemma reduce_sum {A : Type} (f : A -> Z) (l : list A) (init : Z) :
  reduce l (fun s x => s + f x) init = init + sumZ (map f l).
Proof.
  unfold reduce. revert init.
  induction l as [|x l IH]; intros init; cbn [fold_left map sumZ].
  - lia.
  - rewrite IH. lia.
Qed.

(** The sum of a list of floats as [reduce] takes it: from the left,
    starting at [init], every addition rounded. *)
Definition fsum (fl : Q -> Q) (init : Q) (l : list Q) : Q :=
  fold_left (JS.add fl) l init.

(** The sum of a list of numbers without rounding. *)
Fixpoint sumQ (l : list Q) : Q :=
  match l with
  | [] => 0%Q
  | x :: l => (x + sumQ l)%Q
  end.

Lemma reduce_fsum {A : Type} fl (f : A -> Q) (l : list A) (init : Q) :
  reduce l (fun s x => JS.add fl s (f x)) init = fsum fl init (map f l).
Proof.
  unfold reduce, fsum. revert init.
  induction l as [|x l IH]; intros init; cbn [fold_left map];
    [reflexivity | apply IH].
Qed.

(** A number that is whole, as [Number.isInteger] tells. *)
Definition isInteger (x : Q) : Prop := (x == inject_Z (Qfloor x))%Q.

Lemma isInteger_inject_Z z : isInteger (inject_Z z).
Proof. unfold isInteger. now rewrite Qfloor_Z. Qed.

Lemma isInteger_floor x z : (x == inject_Z z)%Q -> Qfloor x = z.
Proof. intros E. rewrite (Qfloor_comp _ _ E). apply Qfloor_Z. Qed.

(** An integer of size up to 2^52 is a float. *)
Lemma fl_integer fl (x : Q) (z : Z) :
  JS.binary64 fl -> (x == inject_Z z)%Q -> Z.abs z <= 2 ^ 52 -> (fl x == x)%Q.
Proof.
  intros Hfl E Hz. apply (JS.fl_exact _ Hfl x (2 * z)).
  - rewrite E, inject_Z_mult. change (inject_Z 2) with 2%Q. field.
  - change (2 ^ 53) with (2 * 2 ^ 52). lia.
Qed.

(** The sizes of a list of whole numbers, added. *)
Definition size (l : list Q) : Z := sumZ (map (fun x => Z.abs (Qfloor x)) l).

Lemma size_nonneg l : 0 <= size l.
Proof.
  unfold size. induction l as [|x l IH]; cbn [map sumZ]; lia.
Qed.

(** Whole numbers are added without error while the sum of their sizes
    stays within 2^52. *)
Lemma fsum_whole fl (l : list Q) : forall (init : Q) (z0 : Z),
  JS.binary64 fl -> (init == inject_Z z0)%Q -> Forall isInteger l ->
  Z.abs z0 + size l <= 2 ^ 52 ->
  (fsum fl init l == inject_Z (z0 + sumZ (map Qfloor l)))%Q.
Proof.
  unfold fsum. induction l as [|x l IH]; intros init z0 Hfl E Hl Hb;
    cbn [fold_left map sumZ].
  - now rewrite Z.add_0_r.
  - inversion Hl as [|? ? Hx Hl']; subst.
    unfold size in Hb. cbn [map sumZ] in Hb. fold (size l) in Hb.
    pose proof (size_nonneg l) as Hs.
    assert (E1 : (init + x == inject_Z (z0 + Qfloor x))%Q).
    { rewrite inject_Z_plus, <- E. unfold isInteger in Hx.
      now rewrite <- Hx. }
    rewrite (IH (JS.add fl init x) (z0 + Qfloor x) Hfl).
    + now rewrite Z.add_assoc.
    + unfold JS.add.
      rewrite (fl_integer fl _ _ Hfl E1) by lia. exact E1.
    + exact Hl'.
    + lia.
Qed.

Lemma sumQ_whole (l : list Q) :
  Forall isInteger l -> (sumQ l == inject_Z (sumZ (map Qfloor l)))%Q.
Proof.
  induction 1 as [|x l Hx _ IH]; cbn [sumQ map sumZ]; [reflexivity|].
  rewrite inject_Z_plus, IH. unfold isInteger in Hx. now rewrite <- Hx.
Qed.


(** [totalStats], from any accumulator. *)
Definition add_day (host : Host.t) (acc : Totals.t) (d : DayData.t)
  : Totals.t :=
  {| Totals.caloriesIn :=
       JS.add (Host.fl host) (Totals.caloriesIn acc) (DayData.caloriesIn d);
     Totals.caloriesOut := Totals.caloriesOut acc + DayData.caloriesOut d;
     Totals.protein :=
       JS.add (Host.fl host) (Totals.protein acc) (DayData.protein d);
     Totals.carbs := JS.add (Host.fl host) (Totals.carbs acc) (DayData.carbs d);
     Totals.fat := JS.add (Host.fl host) (Totals.fat acc) (DayData.fat d);
     Totals.workoutMinutes :=
       Totals.workoutMinutes acc + DayData.workoutMinutes d;
     Totals.workoutCount := Totals.workoutCount acc + DayData.workoutCount d |}.

Ltac fields :=
  cbn [fold_left fold_right map sumZ add_day
       Totals.caloriesIn Totals.caloriesOut Totals.protein Totals.carbs
       Totals.fat Totals.workoutMinutes Totals.workoutCount
       DayData.date DayData.caloriesIn DayData.caloriesOut DayData.balance
       DayData.protein DayData.carbs DayData.fat DayData.workoutMinutes
       DayData.workoutCount DayData.workouts] in *.

Lemma fold_add_day host (l : list DayData.t) (acc : Totals.t) :
  fold_left (add_day host) l acc =
  {| Totals.caloriesIn :=
       fsum (Host.fl host) (Totals.caloriesIn acc) (map DayData.caloriesIn l);
     Totals.caloriesOut :=
       Totals.caloriesOut acc + sumZ (map DayData.caloriesOut l);
     Totals.protein :=
       fsum (Host.fl host) (Totals.protein acc) (map DayData.protein l);
     Totals.carbs :=
       fsum (Host.fl host) (Totals.carbs acc) (map DayData.carbs l);
     Totals.fat := fsum (Host.fl host) (Totals.fat acc) (map DayData.fat l);
     Totals.workoutMinutes :=
       Totals.workoutMinutes acc + sumZ (map DayData.workoutMinutes l);
     Totals.workoutCount :=
       Totals.workoutCount acc + sumZ (map DayData.workoutCount l) |}.
Proof.
  unfold fsum. revert acc. induction l as [|d l IH]; intros acc.
  - destruct acc. fields. f_equal; lia.
  - cbn [fold_left]. rewrite IH. fields. f_equal; lia.
Qed.


Lemma sumZ_abs (l : list Z) : Z.abs (sumZ l) <= sumZ (map Z.abs l).
Proof. induction l as [|x l IH]; cbn [map sumZ]; lia. Qed.

Lemma sumZ_filter_abs {A : Type} (f : A -> Z) (p : A -> bool) (l : list A) :
  sumZ (map (fun x => Z.abs (f x)) (filter p l))
  <= sumZ (map (fun x => Z.abs (f x)) l).
Proof.
  induction l as [|x l IH]; cbn [filter map sumZ]; [lia|].
  destruct (p x); cbn [map sumZ]; lia.
Qed.

Lemma sumZ_minus {A : Type} (f g : A -> Z) (l : list A) :
  sumZ (map (fun x => f x - g x) l) = sumZ (map f l) - sumZ (map g l).
Proof. induction l as [|x l IH]; cbn [map sumZ]; lia. Qed.

Lemma sumZ_bounded {A : Type} (f : A -> Z) (b : Z) (l : list A) :
  Forall (fun x => f x <= b) l ->
  sumZ (map f l) <= Z.of_nat (List.length l) * b.
Proof.
  induction 1 as [|x l Hx _ IH]; cbn [map sumZ List.length]; lia.
Qed.

Section Aggregator.
Variable host : Host.t.

#[local] Abbreviation aggregateForPeriod :=
  (aggregateForPeriod host).
#[local] Abbreviation fl := (Host.fl host).

(** What one day of the period holds: the sums over the meals of that date
    and over the workouts the evaluator finds active on it, and their
    difference. *)
Lemma aggregate_day dates workouts meals :
  Forall2 (fun day d =>
      let dayWorkouts :=
        filter (fun w => isWorkoutOnDate host w day) workouts in
      let dayMeals :=
        filter (fun m => JS.str_eq (Meal.date m) (format day)) meals in
      DayData.date d = day
      /\ DayData.caloriesIn d = fsum fl 0 (map Meal.totalCalories dayMeals)
      /\ DayData.caloriesOut d = sumZ (map Workout.caloriesBurned dayWorkouts)
      /\ DayData.balance d
         = JS.sub fl (DayData.caloriesIn d) (inject_Z (DayData.caloriesOut d))
      /\ DayData.protein d = fsum fl 0 (map Meal.totalProtein dayMeals)
      /\ DayData.carbs d = fsum fl 0 (map Meal.totalCarbs dayMeals)
      /\ DayData.fat d = fsum fl 0 (map Meal.totalFat dayMeals)
      /\ DayData.workoutMinutes d = sumZ (map Workout.duration dayWorkouts)
      /\ DayData.workoutCount d = Z.of_nat (List.length dayWorkouts)
      /\ DayData.workouts d = dayWorkouts)
    dates (aggregateForPeriod dates workouts meals).
Proof.
  unfold Dashboard.aggregateForPeriod.
  induction dates as [|day dates IH]; cbn [map]; constructor; [|exact IH].
  fields. rewrite !reduce_sum, !reduce_fsum. repeat split; reflexivity.
Qed.


(** A day of whole numbers: the calories consumed are whole and of size
    [A] at most, the calories burned of size [W] at most, and the balance
    is their difference. *)
Definition whole_day (A W : Z) (d : DayData.t) : Prop :=
  isInteger (DayData.caloriesIn d)
  /\ Z.abs (Qfloor (DayData.caloriesIn d)) <= A
  /\ Z.abs (DayData.caloriesOut d) <= W
  /\ (DayData.balance d
      == inject_Z (Qfloor (DayData.caloriesIn d) - DayData.caloriesOut d))%Q.

Lemma size_filter {A : Type} (f : A -> Q) (p : A -> bool) (l : list A) :
  size (map f (filter p l)) <= size (map f l).
Proof.
  unfold size. rewrite !map_map.
  apply (sumZ_filter_abs (fun x => Qfloor (f x))).
Qed.

Lemma sumZ_size (l : list Q) : Z.abs (sumZ (map Qfloor l)) <= size l.
Proof.
  unfold size. etransitivity; [apply sumZ_abs|]. rewrite map_map.
  apply Z.le_refl.
Qed.

Lemma aggregate_whole dates workouts meals :
  JS.binary64 fl ->
  Forall (fun m => isInteger (Meal.totalCalories m)) meals ->
  let A := size (map Meal.totalCalories meals) in
  let W := sumZ (map (fun w => Z.abs (Workout.caloriesBurned w)) workouts) in
  A + W <= 2 ^ 52 ->
  Forall (whole_day A W) (aggregateForPeriod dates workouts meals).
Proof.
  intros Hfl Hm A W Hb.
  assert (HW0 : 0 <= W).
  { subst W. clear. induction workouts as [|w l IH]; cbn [map sumZ]; lia. }
  pose proof (size_nonneg (map Meal.totalCalories meals)) as HA0. fold A in HA0.
  unfold Dashboard.aggregateForPeriod. apply Forall_map, Forall_forall.
  intros day _. unfold whole_day. fields.
  rewrite reduce_fsum, reduce_sum, Z.add_0_l.
  set (dayMeals := filter _ meals). set (dayWorkouts := filter _ workouts).
  assert (Hd : Forall isInteger (map Meal.totalCalories dayMeals)).
  { apply Forall_map. subst dayMeals. apply Forall_forall. intros m Hin.
    apply filter_In in Hin. rewrite Forall_forall in Hm. apply Hm, Hin. }
  assert (Hs : size (map Meal.totalCalories dayMeals) <= A)
    by apply size_filter.
  pose proof (sumZ_size (map Meal.totalCalories dayMeals)) as Hz.
  assert (E : (fsum fl 0 (map Meal.totalCalories dayMeals)
               == inject_Z (sumZ (map Qfloor
                                      (map Meal.totalCalories dayMeals))))%Q).
  { rewrite (fsum_whole fl _ 0%Q 0 Hfl); [reflexivity | reflexivity | exact Hd|].
    cbn [Z.abs]. lia. }
  pose proof (isInteger_floor _ _ E) as F.
  assert (Ho : Z.abs (sumZ (map Workout.caloriesBurned dayWorkouts)) <= W).
  { etransitivity; [apply sumZ_abs|]. rewrite map_map.
    apply (sumZ_filter_abs Workout.caloriesBurned). }
  split; [|split; [|split]].
  - unfold isInteger. now rewrite F.
  - rewrite F. lia.
  - exact Ho.
  - rewrite F. unfold JS.sub.
    set (zin := sumZ (map Qfloor (map Meal.totalCalories dayMeals))) in *.
    set (out := sumZ (map Workout.caloriesBurned dayWorkouts)) in *.
    assert (E1 : (fsum fl 0 (map Meal.totalCalories dayMeals) - inject_Z out
                  == inject_Z (zin - out))%Q).
    { rewrite E. unfold Z.sub. rewrite inject_Z_plus, inject_Z_opp.
      reflexivity. }
    rewrite (fl_integer fl _ _ Hfl E1) by lia. exact E1.
Qed.

(** The balance of a period of whole days, and the sums of the daily
    balances, rounded at every step or not at all. *)
Lemma whole_period (A W : Z) (l : list DayData.t) :
  JS.binary64 fl -> Forall (whole_day A W) l ->
  Z.of_nat (List.length l) * (A + W) <= 2 ^ 52 ->
  let totals := fold_left (add_day host) l
                  {| Totals.caloriesIn := 0%Q; Totals.caloriesOut := 0;
                     Totals.protein := 0%Q; Totals.carbs := 0%Q;
                     Totals.fat := 0%Q; Totals.workoutMinutes := 0;
                     Totals.workoutCount := 0 |} in
  (periodBalance host totals == fsum fl 0 (map DayData.balance l))%Q
  /\ (periodBalance host totals == sumQ (map DayData.balance l))%Q.
Proof.
  intros Hfl Hl Hb. cbv zeta. rewrite fold_add_day. unfold periodBalance.
  cbn [Totals.caloriesIn Totals.caloriesOut]. rewrite Z.add_0_l.
  set (zin := fun d => Qfloor (DayData.caloriesIn d)).
  assert (HA : 0 <= A \/ l = []).
  { destruct Hl as [|d l (_ & H & _) _]; [right; reflexivity | left; lia]. }
  assert (HW : 0 <= W \/ l = []).
  { destruct Hl as [|d l (_ & _ & H & _) _]; [right; reflexivity | left; lia]. }
  assert (Hin : Forall isInteger (map DayData.caloriesIn l)).
  { apply Forall_map. eapply Forall_impl; [|exact Hl]. now intros d (H & _). }
  assert (Sin : size (map DayData.caloriesIn l) <= Z.of_nat (List.length l) * A).
  { unfold size. rewrite map_map. apply sumZ_bounded.
    eapply Forall_impl; [|exact Hl]. now intros d (_ & H & _). }
  assert (Sout : sumZ (map (fun d => Z.abs (DayData.caloriesOut d)) l)
                 <= Z.of_nat (List.length l) * W).
  { apply sumZ_bounded. eapply Forall_impl; [|exact Hl].
    now intros d (_ & _ & H & _). }
  assert (Hbal : Forall isInteger (map DayData.balance l)
                 /\ map Qfloor (map DayData.balance l)
                    = map (fun d => zin d - DayData.caloriesOut d) l).
  { clear - Hl. induction Hl as [|d l (_ & _ & _ & E) _ [IH1 IH2]];
      cbn [map]; [split; [constructor | reflexivity]|].
    pose proof (isInteger_floor _ _ E) as F. split.
    - constructor; [|exact IH1]. unfold isInteger. now rewrite F.
    - now rewrite F, IH2. }
  destruct Hbal as [Hbal Fbal].
  assert (Sbal : size (map DayData.balance l)
                 <= Z.of_nat (List.length l) * (A + W)).
  { unfold size. rewrite <- map_map, Fbal, map_map.
    apply sumZ_bounded. eapply Forall_impl; [|exact Hl].
    intros d (_ & H1 & H2 & _). subst zin. cbn beta. lia. }
  assert (Hlen : 0 <= Z.of_nat (List.length l)) by lia.
  assert (B1 : Z.of_nat (List.length l) * A <= 2 ^ 52)
    by (destruct HW as [HW | ->]; [nia | cbn; lia]).
  assert (B2 : Z.of_nat (List.length l) * W
               <= 2 ^ 52 - Z.of_nat (List.length l) * A) by nia.
  assert (Ein : (fsum fl 0 (map DayData.caloriesIn l)
                 == inject_Z (sumZ (map zin l)))%Q).
  { rewrite (fsum_whole fl _ 0%Q 0 Hfl);
      [rewrite map_map; reflexivity | reflexivity | exact Hin|].
    cbn [Z.abs]. lia. }
  pose proof (sumZ_size (map DayData.caloriesIn l)) as Zin.
  rewrite map_map in Zin. fold zin in Zin.
  pose proof (sumZ_abs (map DayData.caloriesOut l)) as Zout.
  rewrite map_map in Zout.
  assert (Ebal : (JS.sub fl (fsum fl 0 (map DayData.caloriesIn l))
                         (inject_Z (sumZ (map DayData.caloriesOut l)))
                  == inject_Z (sumZ (map zin l)
                               - sumZ (map DayData.caloriesOut l)))%Q).
  { unfold JS.sub.
    assert (E1 : (fsum fl 0 (map DayData.caloriesIn l)
                  - inject_Z (sumZ (map DayData.caloriesOut l))
                  == inject_Z (sumZ (map zin l)
                               - sumZ (map DayData.caloriesOut l)))%Q).
    { rewrite Ein. unfold Z.sub. rewrite inject_Z_plus, inject_Z_opp.
      reflexivity. }
    rewrite (fl_integer fl _ _ Hfl E1) by lia. exact E1. }
  rewrite Ebal. split.
  - rewrite (fsum_whole fl _ 0%Q 0 Hfl);
      [| reflexivity | exact Hbal | cbn [Z.abs]; lia].
    now rewrite Fbal, sumZ_minus, Z.add_0_l.
  - rewrite (sumQ_whole _ Hbal). now rewrite Fbal, sumZ_minus.
Qed.


End Aggregator.


(** ** The streak *)

(** The date [k] days before [today], at the same time of day. *)
Definition daysAgo (today : JSDate) (k : nat) : JSDate :=
  addDays today (- Z.of_nat k).

Lemma daysAgo_0 today : daysAgo today 0 = today.
Proof.
  destruct today as [d ms]. unfold daysAgo, addDays. cbn. f_equal. lia.
Qed.

Lemma daysAgo_S today k :
  daysAgo (addDays today (-1)) k = daysAgo today (S k).
Proof. unfold daysAgo, addDays. cbn [localDay timeInDay]. f_equal. lia. Qed.


Section Streak.
Variable host : Host.t.
Variable workouts : list Workout.t.
Variable meals : list Meal.t.

#[local] Abbreviation isWorkoutOnDate :=
  (Recurrence.isWorkoutOnDate host).
#[local] Abbreviation hasActivity :=
  (Dashboard.hasActivity host workouts meals).
#[local] Abbreviation streak_loop :=
  (Dashboard.streak_loop host workouts meals).

(** A day with activity: one of the workouts is found active on it by the
    evaluator, or one of the meals has the day's date for its date. *)
Definition active (day : JSDate) : Prop :=
  (exists w, In w workouts /\ isWorkoutOnDate w day = true)
  \/ (exists m, In m meals /\ Meal.date m = format day).

(** The test of the loop is the test for such a day. *)
Lemma hasActivity_active day : hasActivity day = true <-> active day.
Proof.
  unfold Dashboard.hasActivity, active.
  rewrite orb_true_iff, !existsb_exists. split.
  - intros [(w & Hin & H) | (m & Hin & H)].
    + left. exists w. split; assumption.
    + right. exists m. split; [assumption | apply str_eq_true, H].
  - intros [(w & Hin & H) | (m & Hin & H)].
    + left. exists w. split; assumption.
    + right. exists m. split; [assumption | apply str_eq_true, H].
Qed.

Lemma hasActivity_idle day : hasActivity day = false <-> ~ active day.
Proof.
  rewrite <- hasActivity_active. destruct (hasActivity day); split;
    congruence.
Qed.

(** The days [today], [today - 1], ..., [today - (k - 1)] all have
    activity and the day [today - k] has none. *)
Definition first_idle_day (today : JSDate) (k : nat) : Prop :=
  (forall i, (i < k)%nat -> active (daysAgo today i))
  /\ ~ active (daysAgo today k).

Lemma first_idle_day_unique today k k' :
  first_idle_day today k -> first_idle_day today k' -> k = k'.
Proof.
  intros [A I] [A' I'].
  destruct (Nat.lt_trichotomy k k') as [H | [H | H]]; [|assumption|].
  - exfalso. apply I, A', H.
  - exfalso. apply I', A, H.
Qed.

Lemma streak_loop_stops k : forall fuel streak checkDate,
  (k < fuel)%nat -> first_idle_day checkDate k ->
  streak_loop fuel streak checkDate = Some (streak + Z.of_nat k).
Proof.
  induction k as [|k IH]; intros fuel streak checkDate Hf [A I];
    (destruct fuel as [|fuel]; [lia|]); cbn [Dashboard.streak_loop].
  - rewrite daysAgo_0 in I. apply hasActivity_idle in I. rewrite I.
    cbn [negb]. f_equal. lia.
  - pose proof (A 0%nat ltac:(lia)) as A0. rewrite daysAgo_0 in A0.
    apply hasActivity_active in A0. rewrite A0. cbn [negb].
    rewrite (IH fuel (streak + 1) (addDays checkDate (-1))).
    + f_equal. lia.
    + lia.
    + split.
      * intros i Hi. rewrite daysAgo_S. apply A. lia.
      * now rewrite daysAgo_S.
Qed.

Lemma streak_loop_result fuel : forall streak checkDate n,
  streak_loop fuel streak checkDate = Some n ->
  exists k, n = streak + Z.of_nat k /\ (k < fuel)%nat
            /\ first_idle_day checkDate k.
Proof.
  induction fuel as [|fuel IH]; intros streak checkDate n;
    cbn [Dashboard.streak_loop]; [discriminate|].
  destruct (hasActivity checkDate) eqn:E; cbn [negb].
  - apply hasActivity_active in E.
    intros H. apply IH in H as (k & -> & Hk & A & I).
    exists (S k). split; [lia|]. split; [lia|]. split.
    + intros [|i] Hi.
      * now rewrite daysAgo_0.
      * rewrite <- daysAgo_S. apply A. lia.
    + now rewrite <- daysAgo_S.
  - apply hasActivity_idle in E.
    intros [= <-]. exists 0%nat. split; [lia|]. split; [lia|]. split.
    + intros i Hi. lia.
    + now rewrite daysAgo_0.
Qed.

(** C3. The streak is the number of consecutive days, counted backward
    from today and with today included, that have activity: a workout
    the evaluator finds active on the day, or a meal whose date is the
    day's.  The first day without activity ends the count and is left
    out.  The loop returns [k] exactly when the [k] days from today back
    have activity and the next one has none (and the fuel covers the
    [k + 1] tests); with no activity today it returns 0. *)
Theorem current_streak_counts (today : JSDate) (fuel : nat) :
  (forall n,
     currentStreak host fuel workouts meals today = Some n <->
     exists k,
       n = Z.of_nat k /\ (k < fuel)%nat
       /\ (forall i, (i < k)%nat -> active (daysAgo today i))
       /\ ~ active (daysAgo today k))
  /\ (~ active today ->
      currentStreak host (S fuel) workouts meals today = Some 0).
Proof.
  unfold currentStreak. split.
  - intros n. split.
    + intros H. apply streak_loop_result in H as (k & -> & Hk & Hd).
      exists k. repeat split; (lia || apply Hd).
    + intros (k & -> & Hk & Hd).
      now rewrite (streak_loop_stops k fuel 0 today Hk Hd).
  - intros H. cbn [Dashboard.streak_loop].
    apply hasActivity_idle in H. now rewrite H.
Qed.

(** ** Termination of the scan *)


Lemma active_not_before w t :
  isWorkoutOnDate w t = true -> JS.str_le (Workout.date w) (format t) = true.
Proof.
  unfold Recurrence.isWorkoutOnDate.
  destruct (JS.str_eq _ _) eqn:E.
  - intros _. apply str_eq_true in E. rewrite E. apply str_le_refl.
  - destruct (JS.str_le _ _); [reflexivity|].
    rewrite andb_false_r. discriminate.
Qed.






End Streak.

(** ** The aggregator and the streak on a week of records *)

(** The number a decimal text is read as, by [parseFloat] or as a
    literal. *)
Definition float (x : Q) : Q := JS.round53 x.

Definition meal_on (date : string) (kcal : Q) : Meal.t :=
  Meal.mk "m" date "13:00" lunch kcal 100 250 60.

Definition first_week_2024 : list JSDate :=
  map (ymd 2024 1) [1; 2; 3; 4; 5; 6; 7].

Definition week_meals : list Meal.t :=
  map (fun d => meal_on (format d) 2000) first_week_2024.

(** A run of 30 minutes every day from 2024-01-01 on, 300 kcal each. *)
Definition daily_run : Workout.t :=
  scheduled "2024-01-01" (Some true) (Some "daily"%string) None None None.

Definition week_data : list DayData.t :=
  aggregateForPeriod utc first_week_2024 [daily_run] week_meals.

Example week_balances :
  Forall2 Qeq (map DayData.balance week_data)
          [1700; 1700; 1700; 1700; 1700; 1700; 1700]%Q.
Proof. repeat constructor. Qed.

Example week_totals :
  let totals := totalStats utc week_data in
  (Totals.caloriesIn totals == 14000)%Q
  /\ Totals.caloriesOut totals = 2100
  /\ (Totals.protein totals == 700)%Q
  /\ (Totals.carbs totals == 1750)%Q
  /\ (Totals.fat totals == 420)%Q
  /\ Totals.workoutMinutes totals = 210
  /\ Totals.workoutCount totals = 7
  /\ avgCalories utc first_week_2024 totals = 2000.
Proof. repeat split. Qed.

(** Halves go up, and a day without meals has a negative balance. *)
Example avg_half_up :
  avgCalories utc [ymd 2024 1 1; ymd 2024 1 2]
    {| Totals.caloriesIn := 4001; Totals.caloriesOut := 0;
       Totals.protein := 0; Totals.carbs := 0; Totals.fat := 0;
       Totals.workoutMinutes := 0; Totals.workoutCount := 0 |} = 2001.
Proof. vm_compute. reflexivity. Qed.

Example balance_negative :
  let data := aggregateForPeriod utc [ymd 2024 1 8]
                                 [daily_run] week_meals in
  Forall2 Qeq (map DayData.balance data) [-300]%Q
  /\ (periodBalance utc (totalStats utc data) == -300)%Q.
Proof. split; [repeat constructor | reflexivity]. Qed.

(** Calories with a fraction: 0.1 + 0.2 kcal on one day. *)
Example fractions_of_a_calorie :
  let meals := [meal_on "2024-01-01" (float 0.1);
                meal_on "2024-01-01" (float 0.2)] in
  let data := aggregateForPeriod utc [ymd 2024 1 1] [] meals in
  Forall2 Qeq (map DayData.caloriesIn data)
          [5404319552844596 # 18014398509481984]%Q
  /\ ~ (Totals.caloriesIn (totalStats utc data) == float 0.3)%Q.
Proof. split; [repeat constructor | vm_compute; discriminate]. Qed.

(** Meals on D, D-1 and D-2, none on D-3. *)
Definition three_meals : list Meal.t :=
  [meal_on "2024-05-10" 600; meal_on "2024-05-09" 550;
   meal_on "2024-05-08" 700; meal_on "2024-05-06" 500].

Example streak_of_three :
  currentStreak utc 10 [] three_meals (ymd 2024 5 10) = Some 3.
Proof. vm_compute. reflexivity. Qed.

Example streak_idle_today :
  currentStreak utc 10 [] three_meals (ymd 2024 5 11) = Some 0.
Proof. vm_compute. reflexivity. Qed.

(** With the daily run the streak reaches back to the first meal, the
    day before the run starts. *)
Example streak_with_recurring :
  currentStreak utc 20 [daily_run]
                [meal_on "2023-12-31" 1800] (ymd 2024 1 10) = Some 11.
Proof. vm_compute. reflexivity. Qed.







End DashboardFacts.

(* ================================================================== *)
(** * Facts about a few roundings in a row *)
(* ================================================================== *)

Module RoundingFacts.
Import JSFacts.

#[local] Open Scope Q_scope.

(** Rounding moves a number that is not negative by at most its share
    2^-53. *)
Lemma fl_relative fl (x : Q) :
  JS.binary64 fl -> 0 <= x -> JS.normal x ->
  x * (1 - JS.unit_roundoff) <= fl x <= x * (1 + JS.unit_roundoff).
Proof.
  intros Hfl Hx Hn.
  pose proof (JS.fl_error _ Hfl x Hn) as Herr.
  rewrite (Qabs_pos x) in Herr by exact Hx.
  apply Qabs_Qle_condition in Herr. lra.
Qed.

Lemma fl_zero fl (x : Q) : JS.binary64 fl -> x == 0 -> fl x == 0.
Proof.
  intros Hfl E.
  assert (Hn : JS.normal x) by (left; exact E).
  pose proof (JS.fl_error _ Hfl x Hn) as Herr.
  rewrite E in Herr at 2 3. change (Qabs 0) with 0 in Herr.
  apply Qabs_Qle_condition in Herr. lra.
Qed.

Lemma Qmult_le_r_nonneg (x y z : Q) : 0 <= z -> x <= y -> x * z <= y * z.
Proof. intros Hz Hxy. apply Qmult_le_compat_r; assumption. Qed.

Lemma Math_round_le (x y : Q) :
  x <= y -> (JS.Math_round x <= JS.Math_round y)%Z.
Proof. intros H. unfold JS.Math_round. apply Qfloor_resp_le. lra. Qed.

(** Two numbers a half apart or less round to integers one apart or
    less. *)
Lemma Math_round_close (x y : Q) :
  Qabs (x - y) <= 1 -> (Z.abs (JS.Math_round x - JS.Math_round y) <= 1)%Z.
Proof.
  intros H. apply Qabs_Qle_condition in H.
  pose proof (Math_round_spec x) as [X1 X2].
  pose proof (Math_round_spec y) as [Y1 Y2].
  assert (H1 : inject_Z (JS.Math_round x - JS.Math_round y) < inject_Z 2).
  { unfold Z.sub. rewrite inject_Z_plus, inject_Z_opp.
    change (inject_Z 2) with 2. lra. }
  assert (H2 : inject_Z (-2) < inject_Z (JS.Math_round x - JS.Math_round y)).
  { unfold Z.sub. rewrite inject_Z_plus, inject_Z_opp.
    change (inject_Z (-2)) with (-2). lra. }
  rewrite <- Zlt_Qlt in H1, H2. lia.
Qed.

(** Between a tenth and twenty thousand, rounding moves a number by less
    than 10^-11. *)
Lemma fl_small_error fl (x : Q) :
  JS.binary64 fl -> (1 # 10) <= x <= 20000 ->
  x - (1 # 100000000000) <= fl x <= x + (1 # 100000000000).
Proof.
  intros Hfl Hx.
  assert (Hn : JS.normal x).
  { apply normal_mid; rewrite Qabs_pos by lra.
    - change (1 # 10 ^ 18) with (1 # 1000000000000000000). lra.
    - lra. }
  pose proof (fl_relative fl x Hfl ltac:(lra) Hn) as R.
  unfold JS.unit_roundoff in R. lra.
Qed.

(** [x] is within [eps] of [y]. *)
Definition near (eps x y : Q) : Prop := y - eps <= x <= y + eps.

Lemma mul_near (eps a a0 b B : Q) :
  near eps a a0 -> 0 <= b <= B -> 0 <= eps -> near (eps * B) (a * b) (a0 * b).
Proof.
  unfold near. intros [H1 H2] [Hb HB] He.
  assert (P1 : 0 <= (a - (a0 - eps)) * b)
    by (apply Qmult_le_0_compat; lra).
  assert (P2 : 0 <= (a0 + eps - a) * b)
    by (apply Qmult_le_0_compat; lra).
  assert (P3 : 0 <= eps * (B - b))
    by (apply Qmult_le_0_compat; lra).
  split; lra.
Qed.

Lemma prod_near (da db a a0 b b0 A B : Q) :
  near da a a0 -> near db b b0 -> 0 <= a0 <= A -> 0 <= b <= B ->
  0 <= da -> 0 <= db ->
  near (da * B + A * db) (a * b) (a0 * b0).
Proof.
  unfold near. intros [H1 H2] [H3 H4] [Ha HA] [Hb HB] Hda Hdb.
  assert (P1 : 0 <= (a - (a0 - da)) * b) by (apply Qmult_le_0_compat; lra).
  assert (P2 : 0 <= (a0 + da - a) * b) by (apply Qmult_le_0_compat; lra).
  assert (P3 : 0 <= da * (B - b)) by (apply Qmult_le_0_compat; lra).
  assert (P4 : 0 <= a0 * (b - (b0 - db))) by (apply Qmult_le_0_compat; lra).
  assert (P5 : 0 <= a0 * (b0 + db - b)) by (apply Qmult_le_0_compat; lra).
  assert (P6 : 0 <= (A - a0) * db) by (apply Qmult_le_0_compat; lra).
  split; lra.
Qed.

End RoundingFacts.

(* ================================================================== *)
(** * Properties of the daily targets *)
(* ================================================================== *)

Module StorageFacts.
Import JSFacts RoundingFacts Storage TargetFormulas.

#[local] Open Scope Q_scope.

(** The activity levels that name a property [activityMultipliers]
    inherits. *)
Definition inherits (level : string) : bool :=
  existsb (String.eqb level) JS.Object_prototype.

Lemma multiplier_range level : 1.2 <= activity_multiplier level <= 1.9.
Proof.
  unfold activity_multiplier.
  repeat match goal with
         | |- context [if ?b then _ else _] => destruct b
         end; split; vm_compute; discriminate.
Qed.

Lemma lit_nonzero fl (c : Q) :
  JS.binary64 fl -> 1 <= c <= 2 -> Qeq_bool (fl c) 0 = false.
Proof.
  intros Hfl Hc.
  pose proof (fl_small_error fl c Hfl ltac:(lra)) as H.
  destruct (Qeq_bool (fl c) 0) eqn:E; [|reflexivity].
  apply Qeq_bool_iff in E. lra.
Qed.

(** The multiplier the code takes: the table's, 1.55 for a level the
    table does not have, and an object, NaN as a number, for a level that
    names an inherited property. *)
Lemma multiplier_lookup fl level :
  JS.binary64 fl ->
  JS.num_or (JS.lookup (activityMultipliers fl) level) (JS.lit fl 1.55)
  = if inherits level then None else Some (fl (activity_multiplier level)).
Proof.
  intros Hfl.
  assert (Hit : forall name c,
            1 <= c <= 2 -> inherits name = false ->
            JS.num_or (JS.own (JS.lit fl c)) (JS.lit fl 1.55)
            = if inherits name then None else Some (fl c)).
  { intros name c Hc ->. unfold JS.num_or, JS.lit.
    now rewrite (lit_nonzero fl c Hfl Hc). }
  unfold JS.lookup, activityMultipliers, activity_multiplier.
  cbn [JS.getOwnProperty]. rewrite !(String.eqb_sym _ level).
  repeat match goal with
         | |- context [String.eqb level ?k] =>
             let E := fresh "E" in
             destruct (String.eqb level k) eqn:E;
             [apply String.eqb_eq in E; subst level;
              apply Hit; [split; vm_compute; discriminate | reflexivity]|]
         end.
  fold (inherits level). destruct (inherits level); reflexivity.
Qed.

(** In exact arithmetic the code computes the formulas. *)
Lemma targets_exact (profile : UserProfile.t) (s : Sex) (g : Goal) :
  sex_of (UserProfile.sex profile) = Some s ->
  goal_of (UserProfile.goal profile) = Some g ->
  calculateDailyTargets JS.exact profile
  = if inherits (UserProfile.activityLevel profile) then None
    else Some (daily_targets s g (UserProfile.activityLevel profile)
                 (UserProfile.weight profile) (UserProfile.height profile)
                 (UserProfile.age profile)).
Proof.
  destruct profile as [age weight height sex level goal done].
  intros Hs Hg.
  unfold calculateDailyTargets, daily_targets, sex_of, goal_of, JS.str_eq in *.
  cbn [UserProfile.sex UserProfile.goal UserProfile.age UserProfile.weight
       UserProfile.height UserProfile.activityLevel] in *.
  rewrite (multiplier_lookup JS.exact level exact_binary64).
  destruct (inherits level); [reflexivity|].
  unfold JS.add, JS.sub, JS.mul, JS.div, JS.lit, JS.exact.
  assert (R : forall x y a b c a' b' c',
            x = y -> a = a' -> b = b' -> c = c' ->
            Some (DailyTargets.mk x a b c) = Some (DailyTargets.mk y a' b' c'))
    by (intros; subst; reflexivity).
  destruct (String.eqb sex "male");
    [|destruct (String.eqb sex "female"); [|discriminate]];
    injection Hs as <-;
    (destruct (String.eqb goal "lose_fat");
     [|destruct (String.eqb goal "gain_muscle");
       [|destruct (String.eqb goal "maintain"); [|discriminate]]]);
    injection Hg as <-;
    unfold macro_percent, grams, goal_adjustment, basal_metabolic_rate,
      kcal_per_gram_protein, kcal_per_gram_carbs, kcal_per_gram_fat.
  all: match goal with
       | |- Some (DailyTargets.mk (JS.Math_round ?x) _ _ _)
            = Some (DailyTargets.mk (JS.Math_round ?y) _ _ _) =>
           assert (E : JS.Math_round x = JS.Math_round y)
             by (apply Math_round_comp; ring)
       end;
       try rewrite E; apply R; [reflexivity | | | ];
       apply Math_round_comp; field.
Qed.

(** ** The worked example in floating point *)

(** A rounded result stays within [r'] of [c] when the exact one is
    within [r]: between a tenth and a million the rounding moves it by
    less than 10^-9. *)
Lemma fl_near fl (e c r r' : Q) :
  JS.binary64 fl ->
  (1 # 10) <= c - r -> c + r <= 1000000 -> c - r <= e <= c + r ->
  r + (1 # 1000000000) <= r' ->
  c - r' <= fl e <= c + r'.
Proof.
  intros Hfl H0 H1 He Hr.
  assert (Hn : JS.normal e).
  { apply normal_mid; rewrite (Qabs_pos e) by lra.
    - change (1 # 10 ^ 18) with (1 # 1000000000000000000). lra.
    - lra. }
  pose proof (JS.fl_error _ Hfl e Hn) as Herr.
  rewrite (Qabs_pos e) in Herr by lra.
  apply Qabs_Qle_condition in Herr. unfold JS.unit_roundoff in Herr. lra.
Qed.

Lemma Qmult_between (x y a b c d : Q) :
  0 <= a -> a <= x <= b -> 0 <= c -> c <= y <= d ->
  a * c <= x * y <= b * d.
Proof.
  intros Ha [Hax Hxb] Hc [Hcy Hyd]. split.
  - apply Qle_trans with (a * y).
    + rewrite (Qmult_comm a c), (Qmult_comm a y).
      apply Qmult_le_compat_r; assumption.
    + apply Qmult_le_compat_r; lra.
  - apply Qle_trans with (b * y).
    + apply Qmult_le_compat_r; lra.
    + rewrite (Qmult_comm b y), (Qmult_comm b d).
      apply Qmult_le_compat_r; lra.
Qed.

(** The profile of the worked example. *)
Definition example_profile : UserProfile.t :=
  {| UserProfile.age := 30; UserProfile.weight := 80;
     UserProfile.height := 180; UserProfile.sex := "male";
     UserProfile.activityLevel := "moderate"; UserProfile.goal := "maintain";
     UserProfile.onboardingComplete := true |}.

Ltac near Hfl c r := apply (fl_near _ _ c r _ Hfl); lra.

Lemma example_targets fl :
  JS.binary64 fl ->
  calculateDailyTargets fl example_profile
  = Some {| DailyTargets.calories := 2759; DailyTargets.protein := 172;
            DailyTargets.carbs := 310; DailyTargets.fat := 92 |}.
Proof.
  intros Hfl. unfold calculateDailyTargets, example_profile.
  cbn [UserProfile.sex UserProfile.goal UserProfile.age UserProfile.weight
       UserProfile.height UserProfile.activityLevel].
  rewrite (multiplier_lookup fl "moderate" Hfl).
  change (inherits "moderate") with false.
  change (activity_multiplier "moderate") with 1.55.
  change (JS.str_eq "male" "male") with true.
  change (JS.str_eq "maintain" "lose_fat") with false.
  change (JS.str_eq "maintain" "gain_muscle") with false.
  cbv iota.
  unfold JS.add, JS.sub, JS.mul, JS.div, JS.lit.
  (* the constants *)
  assert (C625 : 6.25 - (1 # 1000000) <= fl 6.25 <= 6.25 + (1 # 1000000))
    by near Hfl 6.25 0.
  assert (C155 : 1.55 - (1 # 1000000) <= fl 1.55 <= 1.55 + (1 # 1000000))
    by near Hfl 1.55 0.
  assert (C025 : 0.25 - (1 # 1000000) <= fl 0.25 <= 0.25 + (1 # 1000000))
    by near Hfl 0.25 0.
  assert (C045 : 0.45 - (1 # 1000000) <= fl 0.45 <= 0.45 + (1 # 1000000))
    by near Hfl 0.45 0.
  assert (C030 : 0.30 - (1 # 1000000) <= fl 0.30 <= 0.30 + (1 # 1000000))
    by near Hfl 0.30 0.
  set (c625 := fl 6.25) in *. set (c155 := fl 1.55) in *.
  set (c025 := fl 0.25) in *. set (c045 := fl 0.45) in *.
  set (c030 := fl 0.30) in *.
  clearbody c625 c155 c025 c045 c030.
  (* the basal metabolic rate *)
  set (p1 := fl (10 * 80)).
  assert (P1 : 800 - (1 # 1000000) <= p1 <= 800 + (1 # 1000000))
    by (subst p1; near Hfl 800 0).
  clearbody p1.
  set (p2 := fl (c625 * 180)).
  assert (P2 : 1125 - (1 # 1000) <= p2 <= 1125 + (1 # 1000))
    by (subst p2; near Hfl 1125 (2 # 10000)).
  clearbody p2.
  set (s1 := fl (p1 + p2)).
  assert (S1 : 1925 - (2 # 1000) <= s1 <= 1925 + (2 # 1000))
    by (subst s1; near Hfl 1925 (11 # 10000)).
  clearbody s1.
  set (p3 := fl (5 * 30)).
  assert (P3 : 150 - (1 # 1000000) <= p3 <= 150 + (1 # 1000000))
    by (subst p3; near Hfl 150 0).
  clearbody p3.
  set (s2 := fl (s1 - p3)).
  assert (S2 : 1775 - (3 # 1000) <= s2 <= 1775 + (3 # 1000))
    by (subst s2; near Hfl 1775 (21 # 10000)).
  clearbody s2.
  set (bmr := fl (s2 + 5)).
  assert (Bmr : 1780 - (4 # 1000) <= bmr <= 1780 + (4 # 1000))
    by (subst bmr; near Hfl 1780 (3 # 1000)).
  clearbody bmr.
  (* total energy expenditure and calories *)
  pose proof (Qmult_between bmr c155 (1780 - (4 # 1000)) (1780 + (4 # 1000))
                (1.55 - (1 # 1000000)) (1.55 + (1 # 1000000))) as M.
  set (tdee := fl (bmr * c155)).
  assert (Tdee : 2759 - (1 # 10) <= tdee <= 2759 + (1 # 10)).
  { subst tdee. apply (fl_near _ _ 2759 (5 # 100) _ Hfl); try lra.
    all: pose proof (M ltac:(lra) Bmr ltac:(lra) C155); lra. }
  clearbody tdee. clear M.
  assert (E : JS.Math_round tdee = 2759%Z)
    by (apply Math_round_unique; change (inject_Z 2759) with 2759; lra).
  rewrite E. change (inject_Z 2759) with 2759.
  (* the macros *)
  set (g1 := fl (2759 * c025)).
  assert (G1 : 689.75 - (1 # 100) <= g1 <= 689.75 + (1 # 100))
    by (subst g1; near Hfl 689.75 (3 # 1000)).
  clearbody g1.
  set (g2 := fl (2759 * c045)).
  assert (G2 : 1241.55 - (1 # 100) <= g2 <= 1241.55 + (1 # 100))
    by (subst g2; near Hfl 1241.55 (3 # 1000)).
  clearbody g2.
  set (g3 := fl (2759 * c030)).
  assert (G3 : 827.7 - (1 # 100) <= g3 <= 827.7 + (1 # 100))
    by (subst g3; near Hfl 827.7 (3 # 1000)).
  clearbody g3.
  assert (D1 : g1 / 4 == g1 * (1 # 4)) by field.
  assert (D2 : g2 / 4 == g2 * (1 # 4)) by field.
  assert (D3 : g3 / 9 == g3 * (1 # 9)) by field.
  set (q1 := g1 / 4) in *. set (q2 := g2 / 4) in *. set (q3 := g3 / 9) in *.
  clearbody q1 q2 q3.
  set (m1 := fl q1).
  assert (M1 : 172.4375 - (1 # 100) <= m1 <= 172.4375 + (1 # 100))
    by (subst m1; near Hfl 172.4375 (3 # 1000)).
  set (m2 := fl q2).
  assert (M2 : 310.3875 - (1 # 100) <= m2 <= 310.3875 + (1 # 100))
    by (subst m2; near Hfl 310.3875 (3 # 1000)).
  set (m3 := fl q3).
  assert (M3 : 92 - (1 # 10) <= m3 <= 92 + (1 # 10))
    by (subst m3; near Hfl 92 (5 # 100)).
  clearbody m1 m2 m3.
  do 2 f_equal; apply Math_round_unique;
    rewrite ?inject_Z_plus;
    match goal with
    | |- context [inject_Z ?n] => change (inject_Z n) with (n # 1)
    end; lra.
Qed.

Example example_targets_round53 :
  calculateDailyTargets JS.round53 example_profile
  = Some {| DailyTargets.calories := 2759; DailyTargets.protein := 172;
            DailyTargets.carbs := 310; DailyTargets.fat := 92 |}.
Proof. vm_compute. reflexivity. Qed.

(** A level the table does not have counts as moderate; a level that
    names a property every object has gives targets that are NaN. *)
Example unknown_level :
  calculateDailyTargets JS.round53
    {| UserProfile.age := 30; UserProfile.weight := 80;
       UserProfile.height := 180; UserProfile.sex := "male";
       UserProfile.activityLevel := "extreme"; UserProfile.goal := "maintain";
       UserProfile.onboardingComplete := true |}
  = calculateDailyTargets JS.round53 example_profile.
Proof. vm_compute. reflexivity. Qed.

Example inherited_level :
  calculateDailyTargets JS.round53
    {| UserProfile.age := 30; UserProfile.weight := 80;
       UserProfile.height := 180; UserProfile.sex := "male";
       UserProfile.activityLevel := "constructor";
       UserProfile.goal := "maintain";
       UserProfile.onboardingComplete := true |}
  = None.
Proof. reflexivity. Qed.

(** ** The targets of any profile in floating point *)

(** The quotient a macro target is rounded from: the share [p] of the
    calories at [1 / ik] calories a gram, but for three roundings. *)
Lemma macro_quotient fl (calories : Z) (p ik : Q) :
  JS.binary64 fl ->
  (0 <= calories <= 1000000)%Z ->
  (1 # 5) <= p <= (1 # 2) -> (1 # 10) <= ik <= (1 # 4) ->
  let r := fl (fl (inject_Z calories * fl p) * ik) in
  let W := inject_Z calories * p * ik in
  0 <= r /\ W - (1 # 1000000000) <= r <= W + (1 # 1000000000).
Proof.
  intros Hfl Hc Hp Hik. cbv zeta.
  assert (HP : p * (1 - JS.unit_roundoff) <= fl p
               <= p * (1 + JS.unit_roundoff)).
  { apply fl_relative; [exact Hfl | lra |].
    apply normal_mid; rewrite Qabs_pos by lra.
    - change (1 # 10 ^ 18) with (1 # 1000000000000000000). lra.
    - lra. }
  unfold JS.unit_roundoff in HP.
  destruct (Z.eq_dec calories 0) as [-> | Hne].
  - change (inject_Z 0) with 0.
    assert (E1 : 0 * fl p == 0) by ring.
    pose proof (fl_zero fl _ Hfl E1) as E2.
    assert (E3 : fl (0 * fl p) * ik == 0) by (rewrite E2; ring).
    pose proof (fl_zero fl _ Hfl E3) as E4.
    rewrite E4. split; [lra | split; ring_simplify; lra].
  - assert (HC : 1 <= inject_Z calories <= 1000000).
    { change 1 with (inject_Z 1). change 1000000 with (inject_Z 1000000).
      rewrite <- !Zle_Qle. lia. }
    set (C := inject_Z calories) in *. clearbody C.
    assert (HT : (1 # 5) <= C * p <= 500000).
    { split.
      - apply Qle_trans with (1 * p); [lra|].
        apply Qmult_le_r_nonneg; lra.
      - apply Qle_trans with (1000000 * p); [|lra].
        apply Qmult_le_r_nonneg; lra. }
    assert (H1 : C * p * (1 - (1 # 9007199254740992)) <= C * fl p
                 <= C * p * (1 + (1 # 9007199254740992))).
    { split.
      - apply Qle_trans with (p * (1 - (1 # 9007199254740992)) * C); [lra|].
        rewrite (Qmult_comm C (fl p)). apply Qmult_le_r_nonneg; lra.
      - apply Qle_trans with (p * (1 + (1 # 9007199254740992)) * C); [|lra].
        rewrite (Qmult_comm C (fl p)). apply Qmult_le_r_nonneg; lra. }
    set (T := C * p) in *. set (y1 := C * fl p) in *.
    assert (Ha : y1 * (1 - JS.unit_roundoff) <= fl y1
                 <= y1 * (1 + JS.unit_roundoff)).
    { apply fl_relative; [exact Hfl | clearbody T y1; lra |].
      apply normal_mid; rewrite Qabs_pos by (clearbody T y1; lra).
      - change (1 # 10 ^ 18) with (1 # 1000000000000000000).
        clearbody T y1. lra.
      - clearbody T y1. lra. }
    unfold JS.unit_roundoff in Ha. set (a := fl y1) in *.
    assert (Ha' : T * (1 - (1 # 4000000000000000)) <= a
                  <= T * (1 + (1 # 4000000000000000)))
      by (clearbody T y1 a; lra).
    clear Ha H1. clearbody a. clear y1.
    assert (HW : (1 # 50) <= T * ik <= 125000).
    { split.
      - apply Qle_trans with ((1 # 5) * ik); [lra|].
        apply Qmult_le_r_nonneg; clearbody T; lra.
      - apply Qle_trans with (500000 * ik); [|lra].
        apply Qmult_le_r_nonneg; clearbody T; lra. }
    assert (H2 : T * ik * (1 - (1 # 4000000000000000)) <= a * ik
                 <= T * ik * (1 + (1 # 4000000000000000))).
    { split.
      - apply Qle_trans with (T * (1 - (1 # 4000000000000000)) * ik);
          [clearbody T; lra | apply Qmult_le_r_nonneg; clearbody T; lra].
      - apply Qle_trans with (T * (1 + (1 # 4000000000000000)) * ik);
          [apply Qmult_le_r_nonneg; clearbody T; lra | clearbody T; lra]. }
    set (W := T * ik) in *. set (y2 := a * ik) in *.
    assert (Hb : y2 * (1 - JS.unit_roundoff) <= fl y2
                 <= y2 * (1 + JS.unit_roundoff)).
    { apply fl_relative; [exact Hfl | clearbody W y2; lra |].
      apply normal_mid; rewrite Qabs_pos by (clearbody W y2; lra).
      - change (1 # 10 ^ 18) with (1 # 1000000000000000000).
        clearbody W y2. lra.
      - clearbody W y2. lra. }
    unfold JS.unit_roundoff in Hb. set (r := fl y2) in *.
    clearbody W y2 r. split; [lra | split; lra].
Qed.

Section Accuracy.
Variable fl : Q -> Q.
Hypothesis Hfl : JS.binary64 fl.
Variables weight height age : Q.
Hypothesis Hweight : 30 <= weight <= 500.
Hypothesis Hheight : 130 <= height <= 300.
Hypothesis Hage : 1 <= age <= 120.

(** The rate as the code computes it. *)
Definition bmr (s : Sex) : Q :=
  let sum :=
    JS.sub fl (JS.add fl (JS.mul fl 10 weight)
                         (JS.mul fl (JS.lit fl 6.25) height))
              (JS.mul fl 5 age) in
  match s with
  | Male => JS.add fl sum 5
  | Female => JS.sub fl sum 161
  end.

Lemma bmr_near (s : Sex) :
  near (1 # 10000000) (bmr s) (basal_metabolic_rate s weight height age)
  /\ 351 <= basal_metabolic_rate s weight height age <= 6880.
Proof.
  unfold bmr, JS.add, JS.sub, JS.mul, JS.lit, near. cbv zeta.
  pose proof (fl_small_error fl 6.25 Hfl ltac:(lra)) as C.
  set (c := fl 6.25) in *. clearbody c.
  pose proof (fl_small_error fl (10 * weight) Hfl ltac:(lra)) as P1.
  set (p1 := fl (10 * weight)) in *. clearbody p1.
  pose proof (mul_near (1 # 100000000000) c 6.25 height 300) as M.
  unfold near in M. specialize (M ltac:(lra) ltac:(lra) ltac:(lra)).
  set (ch := c * height) in *.
  pose proof (fl_small_error fl ch Hfl ltac:(clearbody ch; lra)) as P2.
  set (p2 := fl ch) in *. clearbody p2 ch.
  pose proof (fl_small_error fl (p1 + p2) Hfl ltac:(lra)) as S1.
  set (s1 := fl (p1 + p2)) in *. clearbody s1.
  pose proof (fl_small_error fl (5 * age) Hfl ltac:(lra)) as P3.
  set (p3 := fl (5 * age)) in *. clearbody p3.
  pose proof (fl_small_error fl (s1 - p3) Hfl ltac:(lra)) as S2.
  set (s2 := fl (s1 - p3)) in *. clearbody s2.
  destruct s; unfold basal_metabolic_rate.
  - pose proof (fl_small_error fl (s2 + 5) Hfl ltac:(lra)) as B.
    set (b := fl (s2 + 5)) in *. clearbody b. split; split; lra.
  - pose proof (fl_small_error fl (s2 - 161) Hfl ltac:(lra)) as B.
    set (b := fl (s2 - 161)) in *. clearbody b. split; split; lra.
Qed.

(** The energy as the code computes it, adjusted for the goal. *)
Definition tdee (s : Sex) (g : Goal) (multiplier : Q) : Q :=
  let tdee := JS.mul fl (bmr s) multiplier in
  match g with
  | LoseFat => JS.sub fl tdee 400
  | GainMuscle => JS.add fl tdee 300
  | Maintain => tdee
  end.

Lemma tdee_near (s : Sex) (g : Goal) (c : Q) :
  1.2 <= c <= 1.9 ->
  let exact := basal_metabolic_rate s weight height age * c
               + goal_adjustment g in
  near (1 # 1000000) (tdee s g (fl c)) exact /\ 21 <= exact <= 13400.
Proof.
  intros Hc. cbv zeta. unfold tdee, JS.add, JS.sub, JS.mul.
  destruct (bmr_near s) as [B HB].
  pose proof (fl_small_error fl c Hfl ltac:(lra)) as C.
  pose proof (prod_near (1 # 10000000) (1 # 100000000000)
                (bmr s) (basal_metabolic_rate s weight height age)
                (fl c) c 6880 2) as P.
  unfold near in P, B |- *.
  specialize (P B C ltac:(lra) ltac:(lra) ltac:(lra) ltac:(lra)).
  pose proof (Qmult_between (basal_metabolic_rate s weight height age) c
                351 6880 1.2 1.9 ltac:(lra) HB ltac:(lra) Hc) as E.
  set (B0 := basal_metabolic_rate s weight height age) in *.
  set (b := bmr s) in *. set (m := fl c) in *.
  set (bm := b * m) in *. set (E0 := B0 * c) in *.
  clearbody B0 b m bm E0.
  pose proof (fl_small_error fl bm Hfl ltac:(lra)) as T.
  set (t := fl bm) in *. clearbody t.
  destruct g; unfold goal_adjustment.
  - pose proof (fl_small_error fl (t - 400) Hfl ltac:(lra)) as A.
    set (a := fl (t - 400)) in *. clearbody a. split; split; lra.
  - pose proof (fl_small_error fl (t + 300) Hfl ltac:(lra)) as A.
    set (a := fl (t + 300)) in *. clearbody a. split; split; lra.
  - split; split; lra.
Qed.

(** The calories, within 1 of the formula's. *)
Lemma calories_close (s : Sex) (g : Goal) (c : Q) :
  1.2 <= c <= 1.9 ->
  let calories := JS.Math_round (tdee s g (fl c)) in
  let formula :=
    JS.Math_round (basal_metabolic_rate s weight height age * c
                   + goal_adjustment g) in
  (0 <= calories <= 1000000 /\ Z.abs (calories - formula) <= 1)%Z.
Proof.
  intros Hc. cbv zeta. destruct (tdee_near s g c Hc) as [T E].
  unfold near in T.
  set (t := tdee s g (fl c)) in *.
  set (e := basal_metabolic_rate s weight height age * c + goal_adjustment g)
    in *.
  split.
  - pose proof (Math_round_spec t) as [R1 R2].
    assert (H1 : inject_Z (-1) < inject_Z (JS.Math_round t))
      by (change (inject_Z (-1)) with (-1); clearbody t e; lra).
    assert (H2 : inject_Z (JS.Math_round t) < inject_Z 1000000)
      by (change (inject_Z 1000000) with 1000000; clearbody t e; lra).
    rewrite <- Zlt_Qlt in H1, H2. lia.
  - apply Math_round_close, Qabs_Qle_condition. clearbody t e. split; lra.
Qed.

End Accuracy.

(** The grams of a macro, within 1 of the formula's when the calories
    are. *)
Lemma grams_close fl (calories formula : Z) (p ik : Q) (percent k : Z) :
  JS.binary64 fl ->
  (0 <= calories <= 1000000)%Z -> (Z.abs (calories - formula) <= 1)%Z ->
  (1 # 5) <= p <= (1 # 2) -> p == inject_Z percent / 100 ->
  (1 # 10) <= ik <= (1 # 4) -> ik == 1 / inject_Z k ->
  (Z.abs (JS.Math_round (fl (fl (inject_Z calories * fl p) * ik)%Q)
          - grams formula percent k) <= 1)%Z.
Proof.
  intros Hfl Hc Hd Hp Ep Hik Eik. unfold grams.
  destruct (macro_quotient fl calories p ik Hfl Hc Hp Hik) as [_ R].
  apply Math_round_close, Qabs_Qle_condition.
  assert (E : inject_Z formula * (inject_Z percent / 100) / inject_Z k
              == inject_Z formula * p * ik).
  { rewrite Ep, Eik. unfold Qdiv. ring. }
  rewrite E.
  assert (D : -1 <= inject_Z calories - inject_Z formula <= 1).
  { assert (D1 : inject_Z (calories - formula) <= inject_Z 1)
      by (rewrite <- Zle_Qle; lia).
    assert (D2 : inject_Z (-1) <= inject_Z (calories - formula))
      by (rewrite <- Zle_Qle; lia).
    unfold Z.sub in D1, D2. rewrite inject_Z_plus, inject_Z_opp in D1, D2.
    change (inject_Z 1) with 1 in D1. change (inject_Z (-1)) with (-1) in D2.
    split; lra. }
  set (r := fl (fl (inject_Z calories * fl p) * ik)) in *.
  set (C := inject_Z calories) in *. set (F := inject_Z formula) in *.
  assert (Hpk : 0 <= p * ik <= (1 # 8)).
  { split; [apply Qmult_le_0_compat; lra|].
    apply Qle_trans with ((1 # 2) * ik);
      [apply Qmult_le_r_nonneg; lra | lra]. }
  assert (P1 : 0 <= (C - F + 1) * (p * ik))
    by (apply Qmult_le_0_compat; lra).
  assert (P2 : 0 <= (1 - (C - F)) * (p * ik))
    by (apply Qmult_le_0_compat; lra).
  set (pk := p * ik) in *.
  assert (EC : C * p * ik == C * pk) by (subst pk; ring).
  assert (EF : F * p * ik == F * pk) by (subst pk; ring).
  rewrite EF. rewrite EC in R.
  set (Cpk := C * pk) in *. set (Fpk := F * pk) in *.
  assert (L1 : (C - F + 1) * pk == Cpk - Fpk + pk) by (subst Cpk Fpk; ring).
  assert (L2 : (1 - (C - F)) * pk == pk - Cpk + Fpk) by (subst Cpk Fpk; ring).
  rewrite L1 in P1. rewrite L2 in P2.
  clearbody r C F pk Cpk Fpk. split; lra.
Qed.

(** Every target is within 1 of the formula's. *)
Definition within_one (a b : DailyTargets.t) : Prop :=
  (Z.abs (DailyTargets.calories a - DailyTargets.calories b) <= 1
   /\ Z.abs (DailyTargets.protein a - DailyTargets.protein b) <= 1
   /\ Z.abs (DailyTargets.carbs a - DailyTargets.carbs b) <= 1
   /\ Z.abs (DailyTargets.fat a - DailyTargets.fat b) <= 1)%Z.

Lemma targets_close fl (profile : UserProfile.t) (s : Sex) (g : Goal) :
  JS.binary64 fl ->
  sex_of (UserProfile.sex profile) = Some s ->
  goal_of (UserProfile.goal profile) = Some g ->
  inherits (UserProfile.activityLevel profile) = false ->
  30 <= UserProfile.weight profile <= 500 ->
  130 <= UserProfile.height profile <= 300 ->
  1 <= UserProfile.age profile <= 120 ->
  exists targets,
    calculateDailyTargets fl profile = Some targets
    /\ within_one targets
         (daily_targets s g (UserProfile.activityLevel profile)
            (UserProfile.weight profile) (UserProfile.height profile)
            (UserProfile.age profile)).
Proof.
  destruct profile as [age weight height sex level goal done].
  cbn [UserProfile.sex UserProfile.goal UserProfile.age UserProfile.weight
       UserProfile.height UserProfile.activityLevel].
  intros Hfl Hs Hg Hl Hw Hh Ha.
  pose proof (multiplier_range level) as Hc.
  pose proof (calories_close fl Hfl weight height age Hw Hh Ha s g
                (activity_multiplier level) Hc) as C.
  cbv zeta in C. destruct C as [C0 C1].
  unfold calculateDailyTargets.
  cbn [UserProfile.sex UserProfile.goal UserProfile.age UserProfile.weight
       UserProfile.height UserProfile.activityLevel].
  rewrite (multiplier_lookup fl level Hfl), Hl.
  assert (S1 : (1 # 5) <= 0.35 <= (1 # 2)) by (split; vm_compute; discriminate).
  assert (S2 : (1 # 5) <= 0.30 <= (1 # 2)) by (split; vm_compute; discriminate).
  assert (S3 : (1 # 5) <= 0.45 <= (1 # 2)) by (split; vm_compute; discriminate).
  assert (S4 : (1 # 5) <= 0.25 <= (1 # 2)) by (split; vm_compute; discriminate).
  assert (K4 : (1 # 10) <= (1 # 4) <= (1 # 4))
    by (split; vm_compute; discriminate).
  assert (K9 : (1 # 10) <= (1 # 9) <= (1 # 4))
    by (split; vm_compute; discriminate).
  unfold sex_of, goal_of, JS.str_eq in *.
  destruct (String.eqb sex "male");
    [|destruct (String.eqb sex "female"); [|discriminate]];
    injection Hs as <-;
    (destruct (String.eqb goal "lose_fat");
     [|destruct (String.eqb goal "gain_muscle");
       [|destruct (String.eqb goal "maintain"); [|discriminate]]]);
    injection Hg as <-;
    (eexists; split; [reflexivity|]);
    unfold within_one, daily_targets, macro_percent;
    cbn [DailyTargets.calories DailyTargets.protein DailyTargets.carbs
         DailyTargets.fat];
    unfold tdee, bmr in C0, C1; cbv zeta in C0, C1;
    (split; [exact C1|]);
    unfold JS.div, JS.mul at 1 2 3 4 5 6, JS.lit at 1 2 3, Qdiv;
    change (/ 4) with (1 # 4); change (/ 9) with (1 # 9);
    repeat split;
    (apply grams_close;
     [exact Hfl | exact C0 | exact C1 | assumption | reflexivity
     | assumption | reflexivity]).
Qed.

(** A man of 21, 60 kg and 160 cm, sedentary, who wants to lose fat. *)
Definition tie_profile : UserProfile.t :=
  {| UserProfile.age := 21; UserProfile.weight := 60;
     UserProfile.height := 160; UserProfile.sex := "male";
     UserProfile.activityLevel := "sedentary"; UserProfile.goal := "lose_fat";
     UserProfile.onboardingComplete := true |}.

(** C9 as stated fails where a formula falls on a half: for this profile
    the calories are 1400 and 35% of them at 4 kcal/g is 122.5 g, which
    the formula rounds to 123 g; the code multiplies 1400 by the float
    nearest to 0.35, which gives a product just below 490, and returns
    122 g, for the protein and for the carbohydrates. *)
Lemma targets_at_a_tie :
  calculateDailyTargets JS.round53 tie_profile
  = Some {| DailyTargets.calories := 1400; DailyTargets.protein := 122;
            DailyTargets.carbs := 122; DailyTargets.fat := 47 |}
  /\ daily_targets Male LoseFat "sedentary" 60 160 21
     = {| DailyTargets.calories := 1400; DailyTargets.protein := 123;
          DailyTargets.carbs := 123; DailyTargets.fat := 47 |}
  /\ inject_Z 1400 * (inject_Z 35 / 100) / inject_Z 4 == 122.5
  /\ JS.mul JS.round53 1400 (JS.lit JS.round53 0.35) < 490.
Proof. repeat split; vm_compute; reflexivity. Qed.

(** C9. The daily targets are the Mifflin-St Jeor rate of the profile's
    sex times the activity multiplier, plus the goal adjustment, rounded;
    the macro grams are the goal's percentage of those calories at 4 kcal/g
    for protein and carbs and 9 kcal/g for fat, rounded.  The code
    evaluates these formulas one floating-point operation at a time: its
    targets are within 1 kcal and 1 g of the formulas', for a weight of
    30 to 500 kg, a height of 130 to 300 cm and an age of 1 to 120 years,
    and they are the formulas' when no operation rounds.  A level the
    table of multipliers does not have counts as moderate, but one that
    names a property every object inherits gives targets that are NaN.
    For a man of 30, 80 kg, 180 cm, of moderate activity and with the
    goal to maintain the rate is 1780 and the targets are 2759 kcal, 172 g
    protein, 310 g carbs and 92 g fat, in floating-point arithmetic as in
    exact arithmetic. *)
Theorem daily_targets_formulas :
  (forall fl (profile : UserProfile.t) (s : Sex) (g : Goal),
     JS.binary64 fl ->
     sex_of (UserProfile.sex profile) = Some s ->
     goal_of (UserProfile.goal profile) = Some g ->
     inherits (UserProfile.activityLevel profile) = false ->
     30 <= UserProfile.weight profile <= 500 ->
     130 <= UserProfile.height profile <= 300 ->
     1 <= UserProfile.age profile <= 120 ->
     exists targets,
       calculateDailyTargets fl profile = Some targets
       /\ within_one targets
            (daily_targets s g (UserProfile.activityLevel profile)
               (UserProfile.weight profile) (UserProfile.height profile)
               (UserProfile.age profile)))
  /\ (forall (profile : UserProfile.t) (s : Sex) (g : Goal),
        sex_of (UserProfile.sex profile) = Some s ->
        goal_of (UserProfile.goal profile) = Some g ->
        inherits (UserProfile.activityLevel profile) = false ->
        calculateDailyTargets JS.exact profile
        = Some (daily_targets s g (UserProfile.activityLevel profile)
                  (UserProfile.weight profile) (UserProfile.height profile)
                  (UserProfile.age profile)))
  /\ (forall fl (profile : UserProfile.t),
        JS.binary64 fl ->
        inherits (UserProfile.activityLevel profile) = true ->
        calculateDailyTargets fl profile = None)
  /\ basal_metabolic_rate Male 80 180 30 == 1780
  /\ daily_targets Male Maintain "moderate" 80 180 30
     = {| DailyTargets.calories := 2759; DailyTargets.protein := 172;
          DailyTargets.carbs := 310; DailyTargets.fat := 92 |}
  /\ (forall fl, JS.binary64 fl ->
      calculateDailyTargets fl example_profile
      = Some {| DailyTargets.calories := 2759; DailyTargets.protein := 172;
                DailyTargets.carbs := 310; DailyTargets.fat := 92 |}).
Proof.
  split; [|split; [|split; [|split; [|split]]]].
  - exact targets_close.
  - intros profile s g Hs Hg Hl. rewrite (targets_exact profile s g Hs Hg).
    now rewrite Hl.
  - intros fl profile Hfl Hl. unfold calculateDailyTargets.
    now rewrite (multiplier_lookup fl _ Hfl), Hl.
  - reflexivity.
  - vm_compute. reflexivity.
  - exact example_targets.
Qed.

Lemma daily_targets_formulas_witness :
  (exists targets,
     calculateDailyTargets JS.round53 tie_profile = Some targets
     /\ within_one targets (daily_targets Male LoseFat "sedentary" 60 160 21))
  /\ calculateDailyTargets JS.exact example_profile
     = Some (daily_targets Male Maintain "moderate" 80 180 30)
  /\ calculateDailyTargets JS.round53
       {| UserProfile.age := 30; UserProfile.weight := 80;
          UserProfile.height := 180; UserProfile.sex := "male";
          UserProfile.activityLevel := "toString";
          UserProfile.goal := "maintain";
          UserProfile.onboardingComplete := true |} = None
  /\ calculateDailyTargets JS.round53 example_profile
     = Some {| DailyTargets.calories := 2759; DailyTargets.protein := 172;
               DailyTargets.carbs := 310; DailyTargets.fat := 92 |}.
Proof.
  destruct daily_targets_formulas as (Close & Exact & NaN & _ & _ & Example).
  split; [|split; [|split]].
  - apply (Close JS.round53 tie_profile Male LoseFat round53_binary64);
      try reflexivity; split; vm_compute; discriminate.
  - apply Exact; reflexivity.
  - apply NaN; [exact round53_binary64 | reflexivity].
  - apply Example. exact round53_binary64.
Defined.

End StorageFacts.

(* ================================================================== *)
(** * Facts about months *)
(* ================================================================== *)

Module CalendarMonths.
Import Calendar CalendarFacts.

Lemma year_start_step yoe :
  0 <= yoe <= 399 ->
  365 <= year_start (yoe + 1) - year_start yoe <= 366.
Proof. unfold year_start. intros. zdiv. Qed.

Lemma yoe_of_year_start yoe doy :
  0 <= yoe <= 399 -> 0 <= doy <= 365 ->
  (doy = 365 -> (yoe + 1) mod 4 = 0 /\ ((yoe + 1) mod 100 <> 0 \/ yoe = 399)) ->
  yoe_of (year_start yoe + doy) = yoe.
Proof. unfold yoe_of, year_start. intros. zdiv. Qed.

Ltac each_month m :=
  let C := fresh in
  assert (C : m = 1 \/ m = 2 \/ m = 3 \/ m = 4 \/ m = 5 \/ m = 6 \/ m = 7
              \/ m = 8 \/ m = 9 \/ m = 10 \/ m = 11 \/ m = 12) by lia;
  repeat match goal with H : _ \/ _ |- _ => destruct H as [H | H] end;
  subst m.

Ltac closed_gtb :=
  match goal with
  | |- context [?a >? 2] =>
      let v := eval vm_compute in (a >? 2) in change (a >? 2) with v
  end; cbv iota.

Lemma month_day_of_doy_inv m d :
  1 <= m <= 12 -> 1 <= d <= days_in_month 0 m ->
  month_day_of_doy ((153 * (if m >? 2 then m - 3 else m + 9) + 2) / 5 + d - 1)
  = (m, d).
Proof.
  intros Hm Hd. unfold month_day_of_doy.
  each_month m; cbn in Hd; closed_gtb;
    match goal with
    | |- (if ?b then _ else _, _) = _ =>
        let E := fresh in
        destruct b eqn:E; rewrite ?Z.ltb_lt, ?Z.ltb_ge in E; f_equal; zdiv
    end.
Qed.

Lemma doy_of_month_day m d :
  1 <= m <= 12 -> 1 <= d <= days_in_month 0 m ->
  let doy := (153 * (if m >? 2 then m - 3 else m + 9) + 2) / 5 + d - 1 in
  0 <= doy <= 365 /\ (doy = 365 -> m = 2 /\ d = 29).
Proof.
  intros Hm Hd. cbv zeta.
  each_month m; cbn in Hd; closed_gtb; zdiv.
Qed.

Lemma days_in_month_le y m : days_in_month y m <= days_in_month 0 m.
Proof.
  unfold days_in_month. destruct (m =? 2); [|lia].
  destruct (is_leap y); cbn; lia.
Qed.

Lemma valid_civil_iff y m d :
  valid_civil y m d = true <-> 1 <= m <= 12 /\ 1 <= d <= days_in_month y m.
Proof.
  unfold valid_civil. rewrite !andb_true_iff, !Z.leb_le. lia.
Qed.

(** [civil_from_days] undoes [days_from_civil] on the dates that exist. *)
Lemma civil_from_days_from_civil y m d :
  valid_civil y m d = true ->
  civil_from_days (days_from_civil y m d) = (y, m, d).
Proof.
  intros V. apply valid_civil_iff in V. destruct V as [Hm Hd].
  pose proof (days_in_month_le y m) as Hle.
  rewrite civil_from_days_eq. cbv zeta. unfold days_from_civil.
  set (y0 := if m <=? 2 then y - 1 else y).
  set (doy := (153 * (if m >? 2 then m - 3 else m + 9) + 2) / 5 + d - 1).
  assert (Hmd : month_day_of_doy doy = (m, d))
    by (apply month_day_of_doy_inv; lia).
  pose proof (month_day_range doy) as R.
  destruct (doy_of_month_day m d ltac:(lia) ltac:(lia)) as [Hdoy Hleap].
  fold doy in Hdoy, Hleap.
  set (yoe := y0 mod 400). set (era := y0 / 400).
  assert (Hyoe : 0 <= yoe <= 399) by (subst yoe; zdiv).
  assert (Hys : 0 <= year_start yoe <= 145731)
    by (unfold year_start; zdiv).
  replace (era * daysPerEra + (year_start yoe + doy) - eraShift + eraShift)
    with (era * daysPerEra + (year_start yoe + doy)) by lia.
  assert (E1 : (era * daysPerEra + (year_start yoe + doy)) / daysPerEra = era)
    by (unfold daysPerEra; zdiv).
  assert (E2 : (era * daysPerEra + (year_start yoe + doy)) mod daysPerEra
               = year_start yoe + doy)
    by (unfold daysPerEra; zdiv).
  rewrite E1, E2.
  assert (E3 : yoe_of (year_start yoe + doy) = yoe).
  { apply yoe_of_year_start; try assumption.
    intros E365. destruct (Hleap E365) as [-> ->].
    unfold days_in_month in Hd. cbn in Hd.
    destruct (is_leap y) eqn:L; [|lia].
    unfold is_leap in L. subst yoe y0. cbn.
    apply orb_true_iff in L. destruct L as [L | L].
    - apply andb_true_iff in L. destruct L as [L4 L100].
      apply Z.eqb_eq in L4. apply negb_true_iff, Z.eqb_neq in L100. zdiv.
    - apply Z.eqb_eq in L. zdiv. }
  rewrite E3.
  replace (year_start yoe + doy - year_start yoe) with doy by lia.
  rewrite Hmd. cbn [fst snd]. f_equal. f_equal.
  subst yoe era y0. destruct (m <=? 2); zdiv.
Qed.

End CalendarMonths.

(* ================================================================== *)
(** * Properties of the periods and of the calendar *)
(* ================================================================== *)

Module PeriodFacts.
Import Calendar CalendarFacts CalendarMonths DateFns DateFnsIntervals.
Import DashboardStats.

(** The integers from [start], [len] of them. *)
Fixpoint zseq (start : Z) (len : nat) : list Z :=
  match len with
  | O => []
  | S k => start :: zseq (start + 1) k
  end.

Definition midnight (z : Z) : JSDate := {| localDay := z; timeInDay := 0 |}.

Lemma days_from_zseq n : forall d, days_from n d = map midnight (zseq d n).
Proof.
  induction n as [|n IH]; intros d; [reflexivity|].
  cbn [days_from zseq map]. rewrite IH. reflexivity.
Qed.

Lemma zseq_length len : forall start, List.length (zseq start len) = len.
Proof. induction len; intros; cbn; [|rewrite IHlen]; reflexivity. Qed.

Lemma zseq_In len : forall start z,
  In z (zseq start len) <-> start <= z < start + Z.of_nat len.
Proof.
  induction len as [|n IH]; intros start z; cbn [zseq In].
  - lia.
  - rewrite IH. lia.
Qed.

Lemma zseq_shift len : forall start k,
  zseq (start + k) len = map (fun z => z + k) (zseq start len).
Proof.
  induction len as [|n IH]; intros start k; [reflexivity|].
  cbn [zseq map]. f_equal.
  replace (start + k + 1) with (start + 1 + k) by lia. apply IH.
Qed.

Lemma days_from_civil_day y m d :
  days_from_civil y m d = days_from_civil y m 1 + d - 1.
Proof. unfold days_from_civil. lia. Qed.

Lemma MakeDay_month y m d :
  1 <= m <= 12 -> MakeDay y (m - 1) d = days_from_civil y m d.
Proof.
  intros Hm. unfold MakeDay.
  replace ((m - 1) / 12) with 0 by zdiv.
  replace ((m - 1) mod 12 + 1) with m by zdiv.
  rewrite Z.add_0_r, (days_from_civil_day y m d). lia.
Qed.

(** From the first of a month to the first of the next. *)
Lemma month_length y m :
  1 <= m <= 12 ->
  MakeDay y m 1 - days_from_civil y m 1 = days_in_month y m.
Proof.
  intros Hm. unfold MakeDay, days_in_month.
  each_month m;
    match goal with
    | |- context [?a / 12] =>
        let v := eval vm_compute in (a / 12) in change (a / 12) with v
    end;
    match goal with
    | |- context [?a mod 12 + 1] =>
        let v := eval vm_compute in (a mod 12 + 1) in
        change (a mod 12 + 1) with v
    end;
    cbn [Z.eqb Pos.eqb orb];
    unfold days_from_civil, year_start, daysPerEra, eraShift, is_leap;
    cbn [Z.leb Z.gtb Z.compare Pos.compare Pos.compare_cont];
    rewrite ?Z.add_0_r;
    try (destruct (y mod 4 =? 0) eqn:E4, (y mod 100 =? 0) eqn:E100,
                  (y mod 400 =? 0) eqn:E400; cbn [andb orb negb];
         rewrite ?Z.eqb_eq, ?Z.eqb_neq in * );
    zdiv.
Qed.

Lemma days_in_month_range y m : 28 <= days_in_month y m <= 31.
Proof. unfold days_in_month. case_ifs; lia. Qed.

Lemma startOfWeek_monday t :
  let monday := localDay (startOfWeek t 1) in
  startOfWeek t 1 = midnight monday
  /\ week_day monday = 1
  /\ monday <= localDay t <= monday + 6.
Proof.
  cbv zeta. unfold startOfWeek, setHours0, addDays, getDay, midnight.
  cbn [localDay timeInDay].
  pose proof (week_day_range (localDay t)) as R. unfold week_day in *.
  split; [reflexivity|].
  destruct (_ <? 1) eqn:E; rewrite ?Z.ltb_lt, ?Z.ltb_ge in E; split; zdiv.
Qed.

Lemma eachDayOfInterval_days a b ta tb :
  a <= b -> 0 <= ta <= tb \/ a < b ->
  eachDayOfInterval {| localDay := a; timeInDay := ta |}
                    {| localDay := b; timeInDay := tb |}
  = Some (map midnight (zseq a (Z.to_nat (b - a + 1)))).
Proof.
  intros Hab Ht. unfold eachDayOfInterval, not_after. cbn [localDay timeInDay].
  replace ((a <? b) || ((a =? b) && (ta <=? tb))) with true.
  - rewrite days_from_zseq. reflexivity.
  - symmetry. apply orb_true_iff. destruct (Z.eq_dec a b) as [->|].
    + right. rewrite Z.eqb_refl. apply Z.leb_le. lia.
    + left. apply Z.ltb_lt. lia.
Qed.

Lemma week_period_days (refDate : JSDate) :
  exists monday,
    getPeriodDates StatsPeriod.week refDate
    = Some (map midnight (zseq monday 7))
    /\ week_day monday = 1
    /\ monday <= localDay refDate <= monday + 6.
Proof.
  destruct (startOfWeek_monday refDate) as (E & Hmon & Hin).
  exists (localDay (startOfWeek refDate 1)).
  split; [|split; assumption].
  unfold getPeriodDates. cbv zeta. rewrite E. unfold addDays, midnight at 1 2.
  cbn [localDay timeInDay].
  rewrite eachDayOfInterval_days by lia.
  replace (localDay (startOfWeek refDate 1) + 6
           - localDay (startOfWeek refDate 1) + 1) with 7 by lia.
  reflexivity.
Qed.

Lemma zseq_7 z :
  zseq z 7 = map (fun i => z + i) [0; 1; 2; 3; 4; 5; 6].
Proof. cbn [zseq map]. repeat (f_equal; try lia). Qed.

(** X1. The week period is seven days in a row, each at local midnight,
    from the Monday on or before the reference date to the Sunday after
    it: the reference date's own day is one of them. *)
Theorem week_period (refDate : JSDate) :
  exists monday,
    getPeriodDates StatsPeriod.week refDate
    = Some (map (fun i => midnight (monday + i)) [0; 1; 2; 3; 4; 5; 6])
    /\ week_day monday = 1
    /\ monday <= localDay refDate <= monday + 6.
Proof.
  destruct (week_period_days refDate) as (monday & E & Hmon & Hin).
  exists monday. split; [|split; assumption].
  rewrite E, zseq_7, map_map. reflexivity.
Qed.

Lemma civil_fields t :
  civil_from_days (localDay t) = (getFullYear t, getMonth t + 1, getDate t).
Proof.
  unfold getFullYear, getMonth, getDate.
  destruct (civil_from_days (localDay t)) as [[y m] d]. f_equal. f_equal. lia.
Qed.

Lemma month_of_date t :
  let y := getFullYear t in
  let m := getMonth t + 1 in
  1 <= m <= 12
  /\ 1 <= getDate t <= days_in_month y m
  /\ localDay t = days_from_civil y m (getDate t)
  /\ localDay (startOfMonth t) = days_from_civil y m 1
  /\ localDay (endOfMonth t) = days_from_civil y m (days_in_month y m).
Proof.
  cbv zeta.
  pose proof (valid_civil_from_days (localDay t)) as V.
  pose proof (days_from_civil_from_days (localDay t)) as D.
  rewrite civil_fields in V, D. apply valid_civil_iff in V.
  destruct V as [Hm Hd].
  split; [exact Hm|]. split; [exact Hd|]. split; [symmetry; exact D|]. split.
  - unfold startOfMonth. cbn [localDay].
    replace (getMonth t) with (getMonth t + 1 - 1) at 1 by lia.
    apply MakeDay_month. exact Hm.
  - unfold endOfMonth. cbn [localDay].
    pose proof (month_length (getFullYear t) (getMonth t + 1) Hm) as L.
    rewrite (days_from_civil_day _ _ (days_in_month _ _)).
    unfold MakeDay in *. lia.
Qed.

Lemma month_period_days (refDate : JSDate) :
  let y := getFullYear refDate in
  let m := getMonth refDate + 1 in
  let n := days_in_month y m in
  getPeriodDates StatsPeriod.month refDate
  = Some (map (ymd y m) (zseq 1 (Z.to_nat n)))
  /\ 28 <= n <= 31
  /\ 1 <= getDate refDate <= n
  /\ localDay refDate = localDay (ymd y m (getDate refDate)).
Proof.
  cbv zeta.
  destruct (month_of_date refDate) as (Hm & Hd & Href & Hs & He).
  pose proof (days_in_month_range (getFullYear refDate)
                (getMonth refDate + 1)) as Hn.
  split; [|split; [exact Hn | split; [exact Hd | exact Href]]].
  unfold getPeriodDates. cbv zeta.
  replace (startOfMonth refDate)
    with {| localDay := localDay (startOfMonth refDate); timeInDay := 0 |}
    by reflexivity.
  replace (endOfMonth refDate)
    with {| localDay := localDay (endOfMonth refDate);
            timeInDay := msPerDay - 1 |} by reflexivity.
  rewrite Hs, He, eachDayOfInterval_days.
  - f_equal.
    rewrite (days_from_civil_day _ _ (days_in_month _ _)).
    match goal with
    | |- context [Z.to_nat ?a] =>
        replace a with (days_in_month (getFullYear refDate)
                          (getMonth refDate + 1)) by lia
    end.
    replace (days_from_civil (getFullYear refDate) (getMonth refDate + 1) 1)
      with (1 + (days_from_civil (getFullYear refDate)
                   (getMonth refDate + 1) 1 - 1)) at 1 by lia.
    rewrite zseq_shift, map_map. apply map_ext. intros d.
    unfold midnight, ymd. f_equal.
    rewrite (days_from_civil_day _ _ d). lia.
  - rewrite (days_from_civil_day _ _ (days_in_month _ _)). lia.
  - right. rewrite (days_from_civil_day _ _ (days_in_month _ _)). lia.
Qed.

(** X2. The month period is local midnight of every day of the reference
    date's month, in order from the 1st to the last (28 to 31 days); each
    of these days reads back as that year, month and day, and the
    reference date's own day is one of them. *)
Theorem month_period (refDate : JSDate) :
  let y := getFullYear refDate in
  let m := getMonth refDate + 1 in
  let n := days_in_month y m in
  getPeriodDates StatsPeriod.month refDate
  = Some (map (ymd y m) (zseq 1 (Z.to_nat n)))
  /\ 28 <= n <= 31
  /\ (forall d, 1 <= d <= n ->
        civil_from_days (localDay (ymd y m d)) = (y, m, d))
  /\ 1 <= getDate refDate <= n
  /\ localDay refDate = localDay (ymd y m (getDate refDate)).
Proof.
  cbv zeta.
  destruct (month_period_days refDate) as (E & Hn & Hd & Href).
  destruct (month_of_date refDate) as (Hm & _).
  split; [exact E | split; [exact Hn | split; [|split; assumption]]].
  intros d Hdn. unfold ymd. cbn [localDay].
  apply civil_from_days_from_civil, valid_civil_iff. lia.
Qed.

Section Average.
Variable host : Host.t.

(** X3. Whatever the period and the reference date, the period is not
    empty, has at most 31 days and holds the reference date's day; so
    the average shown is always the rounded quotient, never the 0 of
    the empty period. *)
Theorem period_never_empty (period : StatsPeriod.t) (refDate : JSDate)
    (totals : Totals.t) :
  exists dates,
    getPeriodDates period refDate = Some dates
    /\ (1 <= List.length dates <= 31)%nat
    /\ In (localDay refDate) (map localDay dates)
    /\ Dashboard.avgCalories host dates totals
       = JS.Math_round
           (JS.div (Host.fl host) (Totals.caloriesIn totals)
                   (inject_Z (Z.of_nat (List.length dates)))).
Proof.
  assert (Havg : forall dates, (1 <= List.length dates)%nat ->
    Dashboard.avgCalories host dates totals
    = JS.Math_round
        (JS.div (Host.fl host) (Totals.caloriesIn totals)
                (inject_Z (Z.of_nat (List.length dates))))).
  { intros dates H. unfold Dashboard.avgCalories.
    replace (Z.of_nat (List.length dates) =? 0) with false
      by (symmetry; apply Z.eqb_neq; lia).
    reflexivity. }
  destruct period.
  - exists [refDate]. cbn [List.length map In].
    split; [reflexivity|]. split; [lia|]. split; [left; reflexivity|].
    apply Havg. cbn. lia.
  - destruct (week_period_days refDate) as (monday & E & _ & Hin).
    eexists. split; [exact E|].
    assert (L : List.length (map midnight (zseq monday 7)) = 7%nat)
      by reflexivity.
    rewrite L. split; [lia|]. split.
    + rewrite map_map. cbn [midnight localDay]. rewrite map_id.
      apply zseq_In. lia.
    + apply Havg. lia.
  - destruct (month_period_days refDate) as (E & Hn & Hd & Href).
    eexists. split; [exact E|].
    match goal with
    | |- (1 <= List.length ?l <= 31)%nat /\ _ =>
        assert (L : List.length l
                    = Z.to_nat (days_in_month (getFullYear refDate)
                                  (getMonth refDate + 1)))
          by (rewrite length_map, zseq_length; reflexivity)
    end.
    split; [rewrite L; lia|]. split.
    + rewrite Href. apply in_map, in_map, zseq_In. lia.
    + apply Havg. rewrite L. lia.
Qed.

End Average.

Lemma endOfWeek_sunday t :
  let sunday := localDay (endOfWeek t 1) in
  week_day sunday = 0 /\ localDay t <= sunday <= localDay t + 6.
Proof.
  cbv zeta. unfold endOfWeek, endOfDay, addDays, getDay.
  cbn [localDay timeInDay].
  pose proof (week_day_range (localDay t)) as R. unfold week_day in *.
  destruct (_ <? 1) eqn:E; rewrite ?Z.ltb_lt, ?Z.ltb_ge in E; split; zdiv.
Qed.

Lemma endOfWeek_fields t weekStartsOn :
  endOfWeek t weekStartsOn
  = {| localDay := localDay (endOfWeek t weekStartsOn);
       timeInDay := msPerDay - 1 |}.
Proof. reflexivity. Qed.

Lemma grid_weeks (first n monday sunday : Z) :
  28 <= n <= 31 ->
  week_day monday = 1 -> monday <= first <= monday + 6 ->
  week_day sunday = 0 -> first + n - 1 <= sunday <= first + n - 1 + 6 ->
  exists weeks : nat,
    eachDayOfInterval (midnight monday)
                      {| localDay := sunday; timeInDay := msPerDay - 1 |}
    = Some (map midnight (zseq monday (7 * weeks)))
    /\ (4 <= weeks <= 6)%nat
    /\ monday + 7 * Z.of_nat weeks - 7 <= first + n - 1
       <= monday + 7 * Z.of_nat weeks - 1.
Proof.
  intros Hn Hmon Hin Hsun Hout.
  assert (Hw : exists w, sunday - monday + 1 = 7 * w /\ 4 <= w <= 6)
    by (exists ((sunday - monday + 1) / 7); unfold week_day in *; zdiv).
  destruct Hw as (w & Ew & Hw).
  exists (Z.to_nat w). split; [|split; lia].
  unfold midnight at 1. rewrite eachDayOfInterval_days by lia.
  do 3 f_equal. lia.
Qed.

(** X4. The month calendar is whole weeks: it runs from a Monday to a
    Sunday over four, five or six rows of seven days, its first row
    holds the 1st of the month and its last row the last day of the
    month. *)
Theorem calendar_grid (monthDate : JSDate) :
  let y := getFullYear monthDate in
  let m := getMonth monthDate + 1 in
  let first := days_from_civil y m 1 in
  let last := days_from_civil y m (days_in_month y m) in
  exists (monday : Z) (weeks : nat),
    calDays monthDate = Some (map midnight (zseq monday (7 * weeks)))
    /\ week_day monday = 1
    /\ (4 <= weeks <= 6)%nat
    /\ monday <= first <= monday + 6
    /\ monday + 7 * Z.of_nat weeks - 7 <= last
       <= monday + 7 * Z.of_nat weeks - 1.
Proof.
  cbv zeta.
  destruct (month_of_date monthDate) as (Hm & Hd & Href & Hs & He).
  pose proof (days_in_month_range (getFullYear monthDate)
                (getMonth monthDate + 1)) as Hn.
  destruct (startOfWeek_monday (startOfMonth monthDate)) as (E & Hmon & Hin).
  destruct (endOfWeek_sunday (endOfMonth monthDate)) as (Hsun & Hout).
  rewrite Hs in Hin. rewrite He in Hout.
  rewrite (days_from_civil_day _ _ (days_in_month _ _)) in Hout |- *.
  destruct (grid_weeks _ _ _ _ Hn Hmon Hin Hsun Hout) as (weeks & Eq & Hw & Hl).
  exists (localDay (startOfWeek (startOfMonth monthDate) 1)), weeks.
  split; [|split; [exact Hmon|]; split; [exact Hw|]; split;
           [exact Hin | exact Hl]].
  unfold calDays. cbv zeta.
  rewrite E, (endOfWeek_fields (endOfMonth monthDate)). exact Eq.
Qed.

Import Training.

Lemma weekStart_monday (now : JSDate) (arrows : list Arrow) :
  let weekStart := fold_left setWeekStart arrows (initialWeekStart now) in
  weekStart = midnight (localDay weekStart)
  /\ week_day (localDay weekStart) = 1.
Proof.
  cbv zeta. unfold initialWeekStart.
  destruct (startOfWeek_monday now) as (E & Hmon & _).
  revert E Hmon. generalize (startOfWeek now 1).
  induction arrows as [|a arrows IH]; intros ws E Hmon; cbn [fold_left].
  - split; assumption.
  - apply IH.
    + rewrite E. destruct a; reflexivity.
    + unfold week_day in *. destruct a; cbn [setWeekStart addDays localDay];
        zdiv.
Qed.

(** How many weeks the arrows have moved the strip: the clicks on the
    right arrow less those on the left one. *)
Fixpoint weeks_moved (arrows : list Arrow) : Z :=
  match arrows with
  | [] => 0
  | ChevronLeft :: arrows => weeks_moved arrows - 1
  | ChevronRight :: arrows => weeks_moved arrows + 1
  end.

Lemma weekStart_moved (arrows : list Arrow) : forall weekStart,
  localDay (fold_left setWeekStart arrows weekStart)
  = localDay weekStart + 7 * weeks_moved arrows.
Proof.
  induction arrows as [|a arrows IH]; intros ws;
    cbn [fold_left weeks_moved]; [lia|].
  rewrite IH. destruct a; cbn [setWeekStart addDays localDay]; lia.
Qed.

(** X5. However the week strip of the training page has been moved with
    its two arrows, it shows seven days in a row, each at local midnight,
    from a Monday to a Sunday: the week that lies as many weeks after the
    week of today as the right arrow was clicked more often than the
    left one.  Before any click it is the week of today. *)
Theorem week_strip (now : JSDate) (arrows : list Arrow) :
  let weekStart := fold_left setWeekStart arrows (initialWeekStart now) in
  let thisMonday := localDay (initialWeekStart now) in
  let monday := thisMonday + 7 * weeks_moved arrows in
  weekDays weekStart
  = map (fun i => midnight (monday + i)) [0; 1; 2; 3; 4; 5; 6]
  /\ map getDay (weekDays weekStart) = [1; 2; 3; 4; 5; 6; 0]
  /\ week_day thisMonday = 1
  /\ thisMonday <= localDay now <= thisMonday + 6.
Proof.
  cbv zeta. destruct (weekStart_monday now arrows) as (E & Hmon).
  rewrite <- (weekStart_moved arrows (initialWeekStart now)).
  set (ws := fold_left setWeekStart arrows (initialWeekStart now)) in *.
  split; [|split].
  - assert (T : timeInDay ws = 0) by (rewrite E; reflexivity).
    unfold weekDays. apply map_ext. intros i.
    unfold addDays, midnight. rewrite T. reflexivity.
  - unfold weekDays, getDay, week_day in *.
    cbn [map addDays localDay].
    repeat match goal with
           | |- _ :: _ = _ :: _ => f_equal; [zdiv | ..]
           end.
  - unfold initialWeekStart.
    destruct (startOfWeek_monday now) as (_ & Hm & Hin).
    split; [exact Hm | exact Hin].
Qed.

End PeriodFacts.

(* ================================================================== *)
(** * Properties of the charts *)
(* ================================================================== *)

Module ChartFacts.
Import Dashboard DashboardCharts JSObject JSFacts DashboardFacts.
Import RoundingFacts.




Section Maps.
Context {V : Type}.
Implicit Types (o : list (ExerciseType * V)) (k : ExerciseType).





End Maps.






























(** ** The percentages of the macro chart *)

#[local] Open Scope Q_scope.

(** The grams a slice is drawn for: from a milligram to 10^14 grams. *)
Definition drawn (v : Q) : Prop := (1 # 1000) <= v <= 100000000000000.

Definition slack : Q := 1 # 1000000000000.

Lemma drawn_normal (x : Q) :
  (1 # 2000) <= x <= 1000000000000000 -> JS.normal x.
Proof.
  intros H. apply normal_mid; rewrite Qabs_pos by lra.
  - change (1 # 10 ^ 18) with (1 # 1000000000000000000). lra.
  - lra.
Qed.

(** The rounded total of up to three slices is the exact one but for four
    parts in 2^53. *)
Lemma fsum_near fl (l : list Q) :
  JS.binary64 fl -> Forall drawn l -> (List.length l <= 3)%nat ->
  sumQ l * (1 - 4 * JS.unit_roundoff) <= fsum fl 0 l
  <= sumQ l * (1 + 4 * JS.unit_roundoff).
Proof.
  intros Hfl Hl Hn. unfold fsum.
  destruct l as [|a [|b [|c [|e l]]]]; cbn [List.length] in Hn; try lia;
    cbn [fold_left sumQ]; unfold JS.add;
    repeat match goal with
           | H : Forall _ (_ :: _) |- _ => inversion H; subst; clear H
           end;
    unfold drawn in *.
  - unfold JS.unit_roundoff. pose proof (fl_zero fl 0 Hfl ltac:(reflexivity)).
    change (0 + 0) with 0 in *. lra.
  - assert (R1 := fl_relative fl (0 + a) Hfl ltac:(lra)
                    (drawn_normal (0 + a) ltac:(lra))).
    unfold JS.unit_roundoff in *. lra.
  - assert (R1 := fl_relative fl (0 + a) Hfl ltac:(lra)
                    (drawn_normal (0 + a) ltac:(lra))).
    unfold JS.unit_roundoff in R1.
    assert (R2 := fl_relative fl (fl (0 + a) + b) Hfl ltac:(lra)
                    (drawn_normal (fl (0 + a) + b) ltac:(lra))).
    unfold JS.unit_roundoff in *. lra.
  - assert (R1 := fl_relative fl (0 + a) Hfl ltac:(lra)
                    (drawn_normal (0 + a) ltac:(lra))).
    unfold JS.unit_roundoff in R1.
    assert (R2 := fl_relative fl (fl (0 + a) + b) Hfl ltac:(lra)
                    (drawn_normal (fl (0 + a) + b) ltac:(lra))).
    unfold JS.unit_roundoff in R2.
    assert (R3 := fl_relative fl (fl (fl (0 + a) + b) + c) Hfl ltac:(lra)
                    (drawn_normal (fl (fl (0 + a) + b) + c) ltac:(lra))).
    unfold JS.unit_roundoff in *. lra.
Qed.

(** The share of a slice in the rounded total is its share in the exact
    one but for five parts in 2^53. *)
Lemma share_near (v S T : Q) :
  0 < v <= S ->
  S * (1 - 4 * JS.unit_roundoff) <= T <= S * (1 + 4 * JS.unit_roundoff) ->
  v / S * (1 - 5 * JS.unit_roundoff) <= v / T
  <= v / S * (1 + 5 * JS.unit_roundoff).
Proof.
  intros Hv HT. unfold JS.unit_roundoff in *.
  assert (HS : 0 < S) by lra.
  assert (HT0 : 0 < T) by lra.
  assert (Hx : 0 <= v / S)
    by (apply Qle_shift_div_l; lra).
  assert (Hr : 1 - 5 * (1 # 9007199254740992) <= S / T
               <= 1 + 5 * (1 # 9007199254740992)).
  { split.
    - apply Qle_shift_div_l; [exact HT0 | lra].
    - apply Qle_shift_div_r; [exact HT0 | lra]. }
  assert (E : v / T == v / S * (S / T)) by (field; split; lra).
  rewrite E. set (x := v / S) in *. set (r := S / T) in *. clearbody x r.
  assert (P1 : 0 <= x * (r - (1 - 5 * (1 # 9007199254740992))))
    by (apply Qmult_le_0_compat; lra).
  assert (P2 : 0 <= x * (1 + 5 * (1 # 9007199254740992) - r))
    by (apply Qmult_le_0_compat; lra).
  split; lra.
Qed.

Lemma share_range (v S : Q) :
  drawn v -> v <= S <= 300000000000000 ->
  (1 # 300000000000000000) <= v / S <= 1.
Proof.
  unfold drawn. intros Hv HS.
  split; [apply Qle_shift_div_l | apply Qle_shift_div_r]; lra.
Qed.

(** The product the percentage is rounded from. *)
Lemma percent_near fl (v S T : Q) :
  JS.binary64 fl -> drawn v -> v <= S <= 300000000000000 ->
  S * (1 - 4 * JS.unit_roundoff) <= T <= S * (1 + 4 * JS.unit_roundoff) ->
  let p := JS.mul fl (JS.div fl v T) 100 in
  0 <= p /\ near slack p (100 * (v / S)).
Proof.
  intros Hfl Hv HS HT. cbv zeta. unfold JS.mul, JS.div.
  pose proof (share_range v S Hv HS) as Hx.
  pose proof (share_near v S T ltac:(unfold drawn in Hv; lra) HT) as Hy.
  unfold JS.unit_roundoff in Hy.
  set (x := v / S) in *. set (y := v / T) in *.
  assert (Hq : y * (1 - JS.unit_roundoff) <= fl y
               <= y * (1 + JS.unit_roundoff)).
  { apply fl_relative; [exact Hfl | lra |].
    apply normal_mid; rewrite Qabs_pos by lra.
    - change (1 # 10 ^ 18) with (1 # 1000000000000000000). lra.
    - lra. }
  unfold JS.unit_roundoff in Hq.
  assert (Hp : fl y * 100 * (1 - JS.unit_roundoff) <= fl (fl y * 100)
               <= fl y * 100 * (1 + JS.unit_roundoff)).
  { apply fl_relative; [exact Hfl | lra |].
    apply normal_mid; rewrite Qabs_pos by lra.
    - change (1 # 10 ^ 18) with (1 # 1000000000000000000). lra.
    - lra. }
  unfold JS.unit_roundoff in Hp. unfold slack, near. clearbody x y.
  split; [|split]; lra.
Qed.

Lemma num_gt_true (x y : Q) : JS.num_gt x y = true <-> y < x.
Proof.
  unfold JS.num_gt. rewrite negb_true_iff.
  destruct (Qle_bool x y) eqn:E.
  - apply Qle_bool_iff in E. split; [discriminate | lra].
  - split; [|reflexivity]. intros _. apply Qnot_le_lt. intros H.
    apply Qle_bool_iff in H. congruence.
Qed.

Lemma num_gt_false (x y : Q) : JS.num_gt x y = false <-> x <= y.
Proof.
  destruct (JS.num_gt x y) eqn:E.
  - apply num_gt_true in E. split; [discriminate | lra].
  - split; [|reflexivity]. intros _. apply Qnot_lt_le. intros H.
    apply num_gt_true in H. congruence.
Qed.

(** The slices of a chart: up to three, each of them drawn. *)
Definition chart (l : list PieSlice.t) : Prop :=
  Forall drawn (map PieSlice.value l) /\ (List.length l <= 3)%nat.

Lemma chart_total fl (l : list PieSlice.t) :
  JS.binary64 fl -> chart l ->
  let S := sumQ (map PieSlice.value l) in
  let T := fsum fl 0 (map PieSlice.value l) in
  S <= 300000000000000
  /\ S * (1 - 4 * JS.unit_roundoff) <= T <= S * (1 + 4 * JS.unit_roundoff)
  /\ Forall (fun d => PieSlice.value d <= S) l.
Proof.
  intros Hfl [Hl Hn]. cbv zeta.
  split; [|split].
  - destruct l as [|a [|b [|c [|e l]]]]; cbn [List.length] in Hn; try lia;
      cbn [map sumQ] in *;
      repeat match goal with
             | H : Forall _ (_ :: _) |- _ => inversion H; subst; clear H
             end;
      unfold drawn in *; lra.
  - apply fsum_near; [exact Hfl | exact Hl | now rewrite length_map].
  - clear Hn.
    assert (G : forall l, Forall drawn l ->
                  0 <= sumQ l /\ Forall (fun v => v <= sumQ l) l).
    { induction 1 as [|v l0 Hv _ [IH0 IH]]; cbn [sumQ].
      - split; [lra | constructor].
      - unfold drawn in Hv. split; [lra|]. constructor; [lra|].
        eapply Forall_impl; [|exact IH]. cbn. intros; lra. }
    destruct (G _ Hl) as [_ G']. rewrite Forall_map in G'. exact G'.
Qed.

Lemma pct_item fl (l : list PieSlice.t) (d : PieSlice.t) :
  JS.binary64 fl -> chart l -> In d l ->
  let S := sumQ (map PieSlice.value l) in
  (0 <= pct fl l d <= 100)%Z
  /\ near ((1 # 2) + slack) (inject_Z (pct fl l d))
          (100 * (PieSlice.value d / S)).
Proof.
  intros Hfl Hl Hd S.
  destruct (chart_total fl l Hfl Hl) as (HS & HT & Hle). fold S in HS, HT, Hle.
  assert (Hv : drawn (PieSlice.value d)).
  { destruct Hl as [Hl _]. rewrite Forall_map in Hl.
    rewrite Forall_forall in Hl. apply Hl, Hd. }
  assert (HvS : PieSlice.value d <= S)
    by (rewrite Forall_forall in Hle; apply Hle, Hd).
  unfold pct. rewrite reduce_fsum.
  set (T := fsum fl 0 (map PieSlice.value l)) in *.
  replace (JS.num_gt T 0) with true.
  2:{ symmetry. apply num_gt_true. unfold drawn, JS.unit_roundoff in *. lra. }
  destruct (percent_near fl _ S T Hfl Hv (conj HvS HS) HT) as [H0 Hp].
  pose proof (share_range _ S Hv (conj HvS HS)) as Hx.
  set (p := JS.mul fl _ 100) in *.
  set (x := PieSlice.value d / S) in *.
  pose proof (Math_round_spec p) as [Hlo Hhi].
  unfold slack, near in *. split; [|split; lra].
  split.
  - assert (H : -1 < inject_Z (JS.Math_round p)) by lra.
    change (-1) with (inject_Z (-1)) in H. rewrite <- Zlt_Qlt in H. lia.
  - assert (H : inject_Z (JS.Math_round p) < 101) by lra.
    change 101 with (inject_Z 101) in H. rewrite <- Zlt_Qlt in H. lia.
Qed.

Lemma pct_sum fl (l : list PieSlice.t) :
  JS.binary64 fl -> chart l ->
  let S := sumQ (map PieSlice.value l) in
  forall part : list PieSlice.t,
    incl part l ->
    let n := inject_Z (Z.of_nat (List.length part)) in
    near (n * ((1 # 2) + slack))
         (inject_Z (sumZ (map (pct fl l) part)))
         (100 * (sumQ (map PieSlice.value part) / S)).
Proof.
  intros Hfl Hl S part. cbv zeta.
  induction part as [|d part IH]; intros Hpart.
  - cbn [map sumZ sumQ List.length]. unfold Qdiv, near.
    change (inject_Z 0) with 0. split; ring_simplify; apply Qle_refl.
  - cbn [map sumZ sumQ List.length].
    rewrite Nat2Z.inj_succ, <- Z.add_1_r, !inject_Z_plus.
    change (inject_Z 1) with 1.
    destruct (pct_item fl l d Hfl Hl (Hpart d (or_introl eq_refl))) as [_ Hi].
    fold S in Hi.
    specialize (IH (fun x Hx => Hpart x (or_intror Hx))).
    unfold Qdiv, near in *. rewrite Qmult_plus_distr_l.
    set (a := PieSlice.value d * / S) in *.
    set (b := sumQ (map PieSlice.value part) * / S) in *.
    set (n := inject_Z (Z.of_nat (List.length part))) in *.
    unfold slack in *. clearbody a b n. split; lra.
Qed.

(** The totals the macro chart is drawn for: each of them nothing (or
    less), or between a milligram and 10^14 grams. *)
Definition charted (v : Q) : Prop := v <= 0 \/ drawn v.

(** X8. The percentages printed beside the macro chart: only the macros
    with a positive total get a slice, each percentage is between 0 and
    100, and together they make 99, 100 or 101.  The totals are floats,
    whole or not; neither the roundings of their sum nor those of the
    quotient and the product change that, while every total that is
    positive lies between a milligram and 10^14 grams. *)
Theorem macro_percentages fl (totalStats : Totals.t) :
  JS.binary64 fl ->
  charted (Totals.protein totalStats) ->
  charted (Totals.carbs totalStats) ->
  charted (Totals.fat totalStats) ->
  let slices := macroPieData totalStats in
  let shown := map (pct fl slices) slices in
  Forall (fun d => 0 < PieSlice.value d) slices
  /\ Forall (fun p => 0 <= p <= 100)%Z shown
  /\ (slices <> [] -> 99 <= sumZ shown <= 101)%Z
  /\ (slices = [] <-> (Totals.protein totalStats <= 0
                       /\ Totals.carbs totalStats <= 0
                       /\ Totals.fat totalStats <= 0)).
Proof.
  intros Hfl Hp Hc Hf. cbv zeta.
  set (slices := macroPieData totalStats).
  assert (Hpos : Forall (fun d => 0 < PieSlice.value d) slices).
  { apply Forall_forall. intros d Hd. apply filter_In in Hd.
    destruct Hd as [_ Hd]. apply num_gt_true in Hd. exact Hd. }
  assert (Hchart : chart slices).
  { split.
    - rewrite Forall_map. apply Forall_forall. intros d Hd.
      apply filter_In in Hd. destruct Hd as [Hin Hd].
      apply num_gt_true in Hd.
      cbn [In] in Hin. unfold charted in *.
      destruct Hin as [<- | [<- | [<- | []]]]; cbn [PieSlice.value] in *;
        tauto || (exfalso; lra) || idtac.
      all: match goal with
           | H : _ <= 0 \/ drawn ?v |- drawn ?v =>
               destruct H as [H | H]; [exfalso; lra | exact H]
           end.
    - subst slices. unfold macroPieData.
      etransitivity; [apply filter_length_le | reflexivity]. }
  split; [exact Hpos | split; [|split]].
  - apply Forall_map, Forall_forall. intros d Hd.
    apply (pct_item fl slices d Hfl Hchart Hd).
  - intros Hne.
    pose proof (pct_sum fl slices Hfl Hchart slices (incl_refl _)) as S.
    cbv zeta in S.
    destruct (chart_total fl slices Hfl Hchart) as (_ & _ & Hle).
    assert (Ht : 0 < sumQ (map PieSlice.value slices)).
    { destruct slices as [|d l]; [congruence|].
      inversion Hle; subst. inversion Hpos; subst. lra. }
    assert (E : sumQ (map PieSlice.value slices)
                / sumQ (map PieSlice.value slices) == 1)
      by (field; lra).
    unfold near in S. rewrite E in S.
    assert (Hn : 0 <= inject_Z (Z.of_nat (List.length slices)) <= 3).
    { destruct Hchart as [_ Hlen].
      change 0 with (inject_Z 0). change 3 with (inject_Z 3).
      rewrite <- !Zle_Qle. lia. }
    set (n := inject_Z (Z.of_nat (List.length slices))) in *.
    set (total := inject_Z (sumZ (map (pct fl slices) slices))) in *.
    unfold slack in S.
    assert (Hlo : inject_Z 98 < total)
      by (change (inject_Z 98) with 98; lra).
    assert (Hhi : total < inject_Z 102)
      by (change (inject_Z 102) with 102; lra).
    subst total. rewrite <- Zlt_Qlt in Hlo, Hhi. lia.
  - subst slices. unfold macroPieData. cbn [filter PieSlice.value].
    destruct (JS.num_gt (Totals.protein totalStats) 0) eqn:E1,
             (JS.num_gt (Totals.carbs totalStats) 0) eqn:E2,
             (JS.num_gt (Totals.fat totalStats) 0) eqn:E3;
      rewrite ?num_gt_true, ?num_gt_false in *;
      split; intros H; try discriminate; try reflexivity;
      try (repeat split; assumption); exfalso; lra.
Qed.

Lemma macro_percentages_witness :
  let slices := macroPieData (macro_totals 33.5 67.25 100) in
  let shown := map (pct JS.round53 slices) slices in
  Forall (fun d => 0 < PieSlice.value d) slices
  /\ Forall (fun p => 0 <= p <= 100)%Z shown
  /\ (slices <> [] -> 99 <= sumZ shown <= 101)%Z
  /\ (slices = [] <-> (33.5 <= 0 /\ 67.25 <= 0 /\ 100 <= 0)).
Proof.
  apply (macro_percentages JS.round53 (macro_totals 33.5 67.25 100)
           round53_binary64);
    right; split; vm_compute; discriminate.
Defined.

End ChartFacts.

(* ================================================================== *)
(** * Properties of the calorie estimate *)
(* ================================================================== *)

Module EstimateFacts.
Import Estimate JSFacts RoundingFacts.

#[local] Open Scope Q_scope.

(** More than four roundings in a row can move a number by, relative to
    it: 10^-15. *)
Definition drift : Q := 1 # 1000000000000000.

(** The MET of a table entry, rounded or not. *)
Definition met_near (c m : Q) : Prop :=
  c * (1 - JS.unit_roundoff) <= m <= c * (1 + JS.unit_roundoff).

(** The MET the estimate is computed with: [mets[exerciseType]?.[intensity]
    || 5]. *)
Definition met_used fl (exerciseType intensity : string) : option Q :=
  match met_entry fl exerciseType intensity with
  | None => None
  | Some entry => JS.num_or entry 5
  end.

Lemma estimate_met fl (exerciseType : string) (duration : Q)
    (intensity : string) (weight : Q) :
  estimateCaloriesBurned fl exerciseType duration intensity weight
  = match met_used fl exerciseType intensity with
    | None => None
    | Some m =>
        Some (JS.Math_round
                (JS.div fl (JS.mul fl (JS.mul fl m weight) duration) 60))
    end.
Proof.
  unfold estimateCaloriesBurned, met_used.
  destruct (met_entry fl exerciseType intensity); reflexivity.
Qed.

Lemma met_table fl (e : ExerciseType) (i : Intensity) :
  JS.binary64 fl ->
  (5 # 2) <= met e i <= (64 # 5)
  /\ exists m,
       met_used fl (TypeNames.exerciseType e) (TypeNames.intensity i) = Some m
       /\ met_near (met e i) m.
Proof.
  intros Hfl.
  assert (Hlit : forall c, (5 # 2) <= c <= (64 # 5) ->
             exists m, JS.num_or (JS.own (fl c)) 5 = Some m /\ met_near c m).
  { intros c Hc. eexists. split; [reflexivity|]. unfold met_near.
    assert (Hn : JS.normal c).
    { apply normal_mid; rewrite Qabs_pos by lra.
      - change (1 # 10 ^ 18) with (1 # 1000000000000000000). lra.
      - lra. }
    pose proof (fl_relative fl c Hfl ltac:(lra) Hn) as R.
    unfold JS.unit_roundoff in *.
    destruct (Qeq_bool (fl c) 0) eqn:E; [|exact R].
    apply Qeq_bool_iff in E. lra. }
  assert (Hint : forall c, (5 # 2) <= c <= (64 # 5) ->
             exists m, JS.num_or (JS.own c) 5 = Some m /\ met_near c m).
  { intros c Hc. eexists. split; [reflexivity|].
    unfold met_near, JS.unit_roundoff.
    destruct (Qeq_bool c 0) eqn:E; [|lra].
    apply Qeq_bool_iff in E. lra. }
  split.
  - destruct e, i; vm_compute; split; discriminate.
  - destruct e, i;
      first [ apply Hlit; split; vm_compute; discriminate
            | apply Hint; split; vm_compute; discriminate ].
Qed.

(** The quotient the estimate is rounded from: within four roundings of
    [c * weight * duration / 60]. *)
Lemma estimate_chain fl (c m weight duration : Q) :
  JS.binary64 fl ->
  (5 # 2) <= c <= (64 # 5) -> met_near c m ->
  (1 # 1000) <= weight <= 1000 ->
  duration == 0 \/ 1 <= duration <= 100000 ->
  let r := JS.div fl (JS.mul fl (JS.mul fl m weight) duration) 60 in
  let V := c * weight * duration in
  0 <= V <= 1280000000
  /\ V * (1 # 60) * (1 - drift) <= r <= V * (1 # 60) * (1 + drift).
Proof.
  intros Hfl Hc Hm Hw Hd. cbv zeta. unfold JS.mul, JS.div, met_near in *.
  unfold JS.unit_roundoff in Hm.
  (* the first product *)
  assert (Hcw : (5 # 2000) <= c * weight <= 12800).
  { split.
    - apply Qle_trans with ((5 # 2) * weight); [lra|].
      apply Qmult_le_r_nonneg; lra.
    - apply Qle_trans with ((64 # 5) * weight); [|lra].
      apply Qmult_le_r_nonneg; lra. }
  assert (H1 : c * weight * (1 - JS.unit_roundoff) <= m * weight
               <= c * weight * (1 + JS.unit_roundoff)).
  { unfold JS.unit_roundoff. split.
    - apply Qle_trans with (c * (1 - (1 # 9007199254740992)) * weight);
        [lra | apply Qmult_le_r_nonneg; lra].
    - apply Qle_trans with (c * (1 + (1 # 9007199254740992)) * weight);
        [apply Qmult_le_r_nonneg; lra | lra]. }
  unfold JS.unit_roundoff in H1.
  set (cw := c * weight) in *. set (mw := m * weight) in *.
  assert (Ha : mw * (1 - JS.unit_roundoff) <= fl mw
               <= mw * (1 + JS.unit_roundoff)).
  { apply fl_relative; [exact Hfl | lra |].
    apply normal_mid; rewrite Qabs_pos by lra.
    - change (1 # 10 ^ 18) with (1 # 1000000000000000000). lra.
    - lra. }
  unfold JS.unit_roundoff in Ha.
  set (a := fl mw) in *.
  assert (Ha' : cw * (1 - (1 # 4000000000000000)) <= a
                <= cw * (1 + (1 # 4000000000000000)))
    by (clearbody a mw cw; lra).
  clear Ha H1 Hm. clearbody a. clear mw.
  destruct Hd as [Hd | Hd].
  - (* no minutes: every product is 0 *)
    assert (E1 : a * duration == 0) by (rewrite Hd; ring).
    pose proof (fl_zero fl _ Hfl E1) as E2.
    assert (E3 : fl (a * duration) / 60 == 0)
      by (rewrite E2; reflexivity).
    pose proof (fl_zero fl _ Hfl E3) as E4.
    assert (EV : cw * duration == 0) by (rewrite Hd; ring).
    rewrite E4, EV. split; split; lra.
  - assert (Hcwd : (5 # 2000) <= cw * duration <= 1280000000).
    { split.
      - apply Qle_trans with (cw * 1); [lra|].
        rewrite !(Qmult_comm cw). apply Qmult_le_r_nonneg; lra.
      - apply Qle_trans with (12800 * duration); [|lra].
        apply Qmult_le_r_nonneg; lra. }
    assert (H2 : cw * duration * (1 - (1 # 4000000000000000)) <= a * duration
                 <= cw * duration * (1 + (1 # 4000000000000000))).
    { split.
      - apply Qle_trans with (cw * (1 - (1 # 4000000000000000)) * duration);
          [lra | apply Qmult_le_r_nonneg; lra].
      - apply Qle_trans with (cw * (1 + (1 # 4000000000000000)) * duration);
          [apply Qmult_le_r_nonneg; lra | lra]. }
    set (V := cw * duration) in *. set (ad := a * duration) in *.
    assert (Hb : ad * (1 - JS.unit_roundoff) <= fl ad
                 <= ad * (1 + JS.unit_roundoff)).
    { apply fl_relative; [exact Hfl | clearbody V ad; lra |].
      apply normal_mid; rewrite Qabs_pos by (clearbody V ad; lra).
      - change (1 # 10 ^ 18) with (1 # 1000000000000000000).
        clearbody V ad. lra.
      - clearbody V ad. lra. }
    unfold JS.unit_roundoff in Hb.
    set (b := fl ad) in *.
    assert (Hq : b / 60 * (1 - JS.unit_roundoff) <= fl (b / 60)
                 <= b / 60 * (1 + JS.unit_roundoff)).
    { unfold Qdiv. change (/ 60) with (1 # 60).
      apply fl_relative; [exact Hfl | clearbody V ad b; lra |].
      apply normal_mid; rewrite Qabs_pos by (clearbody V ad b; lra).
      - change (1 # 10 ^ 18) with (1 # 1000000000000000000).
        clearbody V ad b. lra.
      - clearbody V ad b. lra. }
    unfold JS.unit_roundoff, Qdiv in Hq |- *.
    change (/ 60) with (1 # 60) in *.
    set (r := fl (b * (1 # 60))) in *.
    unfold drift. clearbody V ad b r. split; [lra | split; lra].
Qed.

Lemma duration_cases (duration : Z) :
  (0 <= duration <= 100000)%Z ->
  inject_Z duration == 0 \/ 1 <= inject_Z duration <= 100000.
Proof.
  intros H. destruct (Z.eq_dec duration 0) as [-> | Hne].
  - left. reflexivity.
  - right. change 1 with (inject_Z 1). change 100000 with (inject_Z 100000).
    rewrite <- !Zle_Qle. lia.
Qed.

(** X9. For a weight from a gram to a ton and a whole number of minutes
    up to 100000, the estimate is a number that is never negative, it is
    0 for no minutes, and it is the MET of the table times the weight
    times the hours, rounded to an integer: the floating-point roundings
    of the literals, the two products and the division move it by less
    than a millionth of a calorie before the final rounding. *)
Theorem estimate_accuracy fl (e : ExerciseType) (i : Intensity)
    (duration : Z) (weight : Q) :
  JS.binary64 fl ->
  (1 # 1000) <= weight <= 1000 ->
  (0 <= duration <= 100000)%Z ->
  let exact := met e i * weight * inject_Z duration / 60 in
  exists kcal : Z,
    estimateCaloriesBurned fl (TypeNames.exerciseType e) (inject_Z duration)
                           (TypeNames.intensity i) weight = Some kcal
    /\ (0 <= kcal)%Z
    /\ exact - (1 # 2) - (1 # 1000000) <= inject_Z kcal
       <= exact + (1 # 2) + (1 # 1000000)
    /\ (duration = 0%Z -> kcal = 0%Z).
Proof.
  intros Hfl Hw Hd. cbv zeta. rewrite estimate_met.
  destruct (met_table fl e i Hfl) as (Hc & m & -> & Hm).
  eexists. split; [reflexivity|].
  destruct (estimate_chain fl _ _ weight (inject_Z duration) Hfl Hc Hm Hw
              (duration_cases _ Hd)) as [HV Hr].
  set (r := JS.div fl _ 60) in *.
  pose proof (Math_round_spec r) as [Hlo Hhi].
  unfold Qdiv. change (/ 60) with (1 # 60).
  set (V := met e i * weight * inject_Z duration) in *.
  unfold drift in Hr.
  assert (Hk : -1 < inject_Z (JS.Math_round r)) by (clearbody V r; lra).
  change (-1) with (inject_Z (-1)) in Hk. rewrite <- Zlt_Qlt in Hk.
  split; [lia | split; [clearbody V r; split; lra|]].
  intros ->.
  assert (EV : V == 0) by (subst V; change (inject_Z 0) with 0; ring).
  assert (H1 : inject_Z (JS.Math_round r) < 1) by (clearbody V r; lra).
  change 1 with (inject_Z 1) in H1. rewrite <- Zlt_Qlt in H1. lia.
Qed.

(** X10. With the same weight and minutes, a higher intensity never gives
    a lower estimate, whatever the exercise type: the MET values of a
    row of the table grow by a fifth or more, far more than the
    roundings can take back. *)
Theorem estimate_grows_with_intensity fl (e : ExerciseType)
    (duration : Z) (weight : Q) :
  JS.binary64 fl ->
  (1 # 1000) <= weight <= 1000 ->
  (0 <= duration <= 100000)%Z ->
  let kcal i :=
    estimateCaloriesBurned fl (TypeNames.exerciseType e) (inject_Z duration)
                           (TypeNames.intensity i) weight in
  exists l m h : Z,
    kcal low = Some l /\ kcal medium = Some m /\ kcal high = Some h
    /\ (l <= m <= h)%Z.
Proof.
  intros Hfl Hw Hd. cbv beta zeta. rewrite !estimate_met.
  assert (Hstep : forall i j mi mj,
            met e i * (6 # 5) <= met e j ->
            met_near (met e i) mi -> met_near (met e j) mj ->
            JS.div fl (JS.mul fl (JS.mul fl mi weight) (inject_Z duration)) 60
            <= JS.div fl (JS.mul fl (JS.mul fl mj weight)
                                 (inject_Z duration)) 60).
  { intros i j mi mj Hij Hmi Hmj.
    destruct (met_table fl e i Hfl) as [Hci _].
    destruct (met_table fl e j Hfl) as [Hcj _].
    destruct (estimate_chain fl _ _ weight (inject_Z duration) Hfl Hci Hmi Hw
                (duration_cases _ Hd)) as [HVi Hri].
    destruct (estimate_chain fl _ _ weight (inject_Z duration) Hfl Hcj Hmj Hw
                (duration_cases _ Hd)) as [HVj Hrj].
    set (ri := JS.div fl _ 60) in *. clearbody ri.
    set (rj := JS.div fl _ 60) in *. clearbody rj.
    assert (HV : met e i * weight * inject_Z duration * (6 # 5)
                 <= met e j * weight * inject_Z duration).
    { assert (Hwd : 0 <= weight * inject_Z duration).
      { apply Qmult_le_0_compat; [lra|].
        change 0 with (inject_Z 0). rewrite <- Zle_Qle. lia. }
      setoid_replace (met e i * weight * inject_Z duration * (6 # 5))
        with (met e i * (6 # 5) * (weight * inject_Z duration)) by ring.
      setoid_replace (met e j * weight * inject_Z duration)
        with (met e j * (weight * inject_Z duration)) by ring.
      apply Qmult_le_r_nonneg; assumption. }
    set (Vi := met e i * weight * inject_Z duration) in *.
    set (Vj := met e j * weight * inject_Z duration) in *.
    unfold drift in *. clearbody Vi Vj. lra. }
  destruct (met_table fl e low Hfl) as (_ & ml & -> & Hl).
  destruct (met_table fl e medium Hfl) as (_ & mm & -> & Hm).
  destruct (met_table fl e high Hfl) as (_ & mh & -> & Hh).
  do 3 eexists. repeat (split; [reflexivity|]).
  split; apply Math_round_le;
    [apply (Hstep low medium) | apply (Hstep medium high)];
    try assumption; destruct e; vm_compute; discriminate.
Qed.

Lemma estimate_accuracy_witness :
  let exact := (met running high * 72.5 * inject_Z 30 / 60)%Q in
  exists kcal : Z,
    estimateCaloriesBurned JS.round53 "running" 30%Q "high" 72.5%Q = Some kcal
    /\ (0 <= kcal)%Z
    /\ (exact - (1 # 2) - (1 # 1000000) <= inject_Z kcal
        <= exact + (1 # 2) + (1 # 1000000))%Q
    /\ (30%Z = 0%Z -> kcal = 0%Z).
Proof.
  apply (estimate_accuracy JS.round53 running high 30%Z 72.5%Q
           round53_binary64).
  - split; vm_compute; discriminate.
  - lia.
Defined.

Lemma estimate_grows_with_intensity_witness :
  exists l m h : Z,
    estimateCaloriesBurned JS.round53 "yoga" 45%Q "low" 60%Q = Some l
    /\ estimateCaloriesBurned JS.round53 "yoga" 45%Q "medium" 60%Q = Some m
    /\ estimateCaloriesBurned JS.round53 "yoga" 45%Q "high" 60%Q = Some h
    /\ (l <= m <= h)%Z.
Proof.
  apply (estimate_grows_with_intensity JS.round53 yoga 45%Z 60%Q
           round53_binary64).
  - split; vm_compute; discriminate.
  - lia.
Defined.

End EstimateFacts.

(* ================================================================== *)
(** * The macro targets and the calorie target *)
(* ================================================================== *)

Module TargetFacts.
Import Storage JSFacts RoundingFacts StorageFacts.

#[local] Open Scope Q_scope.

Definition share (p : Q) : Prop := (1 # 5) <= p <= (1 # 2).

(** X11. The macro targets account for the calorie target: at 4 calories
    a gram of protein and of carbohydrate and 9 a gram of fat they add up
    to the calorie target within 8 calories, whatever the goal, and none
    of them is negative.  This holds in floating point for the targets
    of any profile, when they are numbers, with a calorie target from 0
    to a million. *)
Theorem macros_account_for_calories fl (profile : UserProfile.t)
    (targets : DailyTargets.t) :
  JS.binary64 fl ->
  calculateDailyTargets fl profile = Some targets ->
  (0 <= DailyTargets.calories targets <= 1000000)%Z ->
  (Z.abs (4 * DailyTargets.protein targets + 4 * DailyTargets.carbs targets
          + 9 * DailyTargets.fat targets - DailyTargets.calories targets) <= 8
   /\ 0 <= DailyTargets.protein targets
   /\ 0 <= DailyTargets.carbs targets
   /\ 0 <= DailyTargets.fat targets)%Z.
Proof.
  intros Hfl. unfold calculateDailyTargets.
  destruct (JS.num_or _ _) as [multiplier|]; [|discriminate].
  set (calories := JS.Math_round _).
  assert (Hgen : forall pp pc pf : Q,
            share pp -> share pc -> share pf -> pp + pc + pf == 1 ->
            (0 <= calories <= 1000000)%Z ->
            let P := JS.Math_round
                       (JS.div fl (JS.mul fl (inject_Z calories) (fl pp)) 4) in
            let C := JS.Math_round
                       (JS.div fl (JS.mul fl (inject_Z calories) (fl pc)) 4) in
            let F := JS.Math_round
                       (JS.div fl (JS.mul fl (inject_Z calories) (fl pf)) 9) in
            (Z.abs (4 * P + 4 * C + 9 * F - calories) <= 8
             /\ 0 <= P /\ 0 <= C /\ 0 <= F)%Z).
  { clearbody calories. intros pp pc pf Hpp Hpc Hpf Hsum Hc. cbv zeta.
    unfold JS.div, JS.mul, Qdiv.
    change (/ 4) with (1 # 4). change (/ 9) with (1 # 9).
    destruct (macro_quotient fl calories pp (1 # 4) Hfl Hc Hpp ltac:(lra))
      as [HP0 HP].
    destruct (macro_quotient fl calories pc (1 # 4) Hfl Hc Hpc ltac:(lra))
      as [HC0 HC].
    destruct (macro_quotient fl calories pf (1 # 9) Hfl Hc Hpf ltac:(lra))
      as [HF0 HF].
    set (rp := fl (fl (inject_Z calories * fl pp) * (1 # 4))) in *.
    set (rc := fl (fl (inject_Z calories * fl pc) * (1 # 4))) in *.
    set (rf := fl (fl (inject_Z calories * fl pf) * (1 # 9))) in *.
    pose proof (Math_round_spec rp) as [HP1 HP2].
    pose proof (Math_round_spec rc) as [HC1 HC2].
    pose proof (Math_round_spec rf) as [HF1 HF2].
    set (P := JS.Math_round rp) in *. set (C := JS.Math_round rc) in *.
    set (F := JS.Math_round rf) in *.
    clearbody rp rc rf P C F.
    assert (Hsum' : inject_Z calories * pp + inject_Z calories * pc
                    + inject_Z calories * pf == inject_Z calories)
      by (rewrite <- !Qmult_plus_distr_r, Hsum; ring).
    set (K := inject_Z calories) in *.
    set (kp := K * pp) in *. set (kc := K * pc) in *. set (kf := K * pf) in *.
    assert (Hd : inject_Z (-9) < inject_Z (4 * P + 4 * C + 9 * F - calories)
                 < inject_Z 9).
    { unfold Z.sub. rewrite !inject_Z_plus, !inject_Z_mult, inject_Z_opp.
      fold K. change (inject_Z 4) with 4. change (inject_Z 9) with 9.
      change (inject_Z (-9)) with (-9).
      clearbody K kp kc kf. split; lra. }
    destruct Hd as [Hd1 Hd2]. rewrite <- Zlt_Qlt in Hd1, Hd2.
    assert (HP3 : inject_Z (-1) < inject_Z P)
      by (change (inject_Z (-1)) with (-1); clearbody K kp kc kf; lra).
    assert (HC3 : inject_Z (-1) < inject_Z C)
      by (change (inject_Z (-1)) with (-1); clearbody K kp kc kf; lra).
    assert (HF3 : inject_Z (-1) < inject_Z F)
      by (change (inject_Z (-1)) with (-1); clearbody K kp kc kf; lra).
    rewrite <- Zlt_Qlt in HP3, HC3, HF3. lia. }
  assert (S1 : share 0.35) by (split; vm_compute; discriminate).
  assert (S2 : share 0.30) by (split; vm_compute; discriminate).
  assert (S3 : share 0.45) by (split; vm_compute; discriminate).
  assert (S4 : share 0.25) by (split; vm_compute; discriminate).
  destruct (JS.str_eq (UserProfile.goal profile) "lose_fat");
    [|destruct (JS.str_eq (UserProfile.goal profile) "gain_muscle")];
    intros E; injection E as <-;
    cbn [DailyTargets.calories DailyTargets.protein DailyTargets.carbs
         DailyTargets.fat];
    intros Hc; apply Hgen; try assumption; reflexivity.
Qed.

Lemma macros_account_for_calories_witness :
  let targets :=
    {| DailyTargets.calories := 2759; DailyTargets.protein := 172;
       DailyTargets.carbs := 310; DailyTargets.fat := 92 |} in
  (Z.abs (4 * DailyTargets.protein targets + 4 * DailyTargets.carbs targets
          + 9 * DailyTargets.fat targets - DailyTargets.calories targets) <= 8
   /\ 0 <= DailyTargets.protein targets
   /\ 0 <= DailyTargets.carbs targets
   /\ 0 <= DailyTargets.fat targets)%Z.
Proof.
  apply (macros_account_for_calories JS.round53 example_profile _
           round53_binary64).
  - exact example_targets_round53.
  - vm_compute. split; discriminate.
Defined.

End TargetFacts.

(* ================================================================== *)
(** * Properties of the records in localStorage *)
(* ================================================================== *)

Module LocalStorageFacts.
Import JSArray JSFacts.

(** ** Saving into an array of records with ids *)

Section Records.
Context {A : Type}.
Variable id : A -> string.

Definition has_id (k : string) (x : A) : bool := JS.str_eq (id x) k.

(** What [saveWorkout] and [saveMeal] do to the array. *)
Definition upsert (l : list A) (x : A) : list A :=
  let idx := findIndex l (has_id (id x)) in
  if idx >=? 0 then assign l (Z.to_nat idx) x else push l x.

Definition remove (l : list A) (k : string) : list A :=
  filter (fun x => negb (has_id k x)) l.

Lemma findIndex_from_spec (p : A -> bool) (l : list A) : forall i,
  0 <= i ->
  match find p l with
  | None => findIndex_from i l p = -1 /\ existsb p l = false
  | Some _ =>
      exists before x after,
        l = before ++ x :: after /\ p x = true /\ existsb p before = false
        /\ findIndex_from i l p = i + Z.of_nat (List.length before)
  end.
Proof.
  induction l as [|y l IH]; intros i Hi; cbn [find findIndex_from existsb].
  - split; reflexivity.
  - destruct (p y) eqn:E.
    + exists [], y, l. cbn. repeat split; [exact E | lia].
    + specialize (IH (i + 1) ltac:(lia)).
      destruct (find p l).
      * destruct IH as (before & x & after & -> & Hx & Hb & Hidx).
        exists (y :: before), x, after. cbn [app existsb List.length].
        rewrite E, Hb, Hidx. repeat split; [exact Hx | lia].
      * destruct IH as [-> ->]. split; reflexivity.
Qed.

Lemma assign_middle (before after : list A) (x y : A) :
  assign (before ++ x :: after) (List.length before) y = before ++ y :: after.
Proof.
  induction before as [|b before IH]; cbn [app List.length assign].
  - reflexivity.
  - rewrite IH. reflexivity.
Qed.

(** The array after a save: the record with the same id gives its place
    to the new one, and when there is none the new one goes last. *)
Lemma upsert_cases (l : list A) (x : A) :
  (existsb (has_id (id x)) l = false /\ upsert l x = l ++ [x])
  \/ (exists before old after,
        l = before ++ old :: after /\ id old = id x
        /\ existsb (has_id (id x)) before = false
        /\ upsert l x = before ++ x :: after).
Proof.
  unfold upsert, findIndex.
  pose proof (findIndex_from_spec (has_id (id x)) l 0 ltac:(lia)) as S.
  destruct (find _ l).
  - right. destruct S as (before & old & after & -> & Hx & Hb & ->).
    exists before, old, after.
    replace (0 + Z.of_nat (List.length before) >=? 0) with true
      by (symmetry; apply Z.geb_le; lia).
    rewrite Z.add_0_l, Nat2Z.id, assign_middle.
    repeat split; [|exact Hb]. apply str_eq_true. exact Hx.
  - left. destruct S as [-> Hn]. split; [exact Hn | reflexivity].
Qed.

Lemma find_app (p : A -> bool) (l1 l2 : list A) :
  find p (l1 ++ l2)
  = match find p l1 with Some x => Some x | None => find p l2 end.
Proof.
  induction l1 as [|y l1 IH]; cbn [app find]; [reflexivity|].
  destruct (p y); [reflexivity | exact IH].
Qed.

Lemma find_absent (p : A -> bool) (l : list A) :
  existsb p l = false <-> find p l = None.
Proof.
  induction l as [|y l IH]; cbn [existsb find]; [tauto|].
  destruct (p y); [split; discriminate | exact IH].
Qed.

Lemma has_id_same (x y : A) (k : string) :
  id x = id y -> has_id k x = has_id k y.
Proof. unfold has_id. intros ->. reflexivity. Qed.

Lemma has_id_refl (x : A) : has_id (id x) x = true.
Proof. apply str_eq_true. reflexivity. Qed.

Lemma find_upsert (l : list A) (x : A) (k : string) :
  find (has_id k) (upsert l x)
  = if String.eqb (id x) k then Some x else find (has_id k) l.
Proof.
  destruct (upsert_cases l x)
    as [[Hn ->] | (before & old & after & -> & Hid & Hb & ->)].
  - rewrite find_app. cbn [find].
    destruct (String.eqb (id x) k) eqn:E.
    + apply String.eqb_eq in E. subst k.
      rewrite (proj1 (find_absent _ _) Hn), has_id_refl. reflexivity.
    + assert (Hx : has_id k x = false) by exact E.
      rewrite Hx. destruct (find (has_id k) l); reflexivity.
  - rewrite !find_app. cbn [find]. rewrite (has_id_same old x k Hid).
    destruct (String.eqb (id x) k) eqn:E.
    + apply String.eqb_eq in E. subst k.
      rewrite (proj1 (find_absent _ _) Hb), has_id_refl. reflexivity.
    + assert (Hx : has_id k x = false) by exact E.
      rewrite Hx. reflexivity.
Qed.

Lemma existsb_has_id (l : list A) (k : string) :
  existsb (has_id k) l = true <-> In k (map id l).
Proof.
  rewrite existsb_exists, in_map_iff. unfold has_id.
  split; intros (x & H1 & H2).
  - exists x. split; [apply str_eq_true; exact H2 | exact H1].
  - exists x. split; [exact H2 | apply str_eq_true; exact H1].
Qed.

Lemma ids_upsert (l : list A) (x : A) :
  map id (upsert l x)
  = if existsb (has_id (id x)) l then map id l else map id l ++ [id x].
Proof.
  destruct (upsert_cases l x)
    as [[Hn ->] | (before & old & after & -> & Hid & Hb & ->)].
  - rewrite Hn, map_app. reflexivity.
  - rewrite existsb_app. cbn [existsb].
    rewrite (has_id_same old x _ Hid), has_id_refl, orb_true_r.
    rewrite !map_app. cbn [map]. rewrite Hid. reflexivity.
Qed.

Lemma NoDup_upsert (l : list A) (x : A) :
  NoDup (map id l) -> NoDup (map id (upsert l x)).
Proof.
  intros H. rewrite ids_upsert.
  destruct (existsb _ l) eqn:E; [exact H|].
  apply NoDup_app; [exact H | repeat constructor; intros [] |].
  intros k Hk [<- | []].
  apply existsb_has_id in Hk. congruence.
Qed.

Lemma remove_ids (l : list A) (k : string) :
  map id (remove l k) = filter (fun i => negb (String.eqb i k)) (map id l).
Proof.
  unfold remove, has_id, JS.str_eq.
  induction l as [|y l IH]; cbn [filter map]; [reflexivity|].
  destruct (String.eqb (id y) k); cbn [negb map]; rewrite IH; reflexivity.
Qed.

Lemma remove_absent (l : list A) (k : string) :
  existsb (has_id k) l = false -> remove l k = l.
Proof.
  unfold remove. induction l as [|y l IH]; cbn [existsb filter];
    [reflexivity|].
  destruct (has_id k y); [discriminate|]. cbn [orb negb].
  intros H. rewrite (IH H). reflexivity.
Qed.

Lemma remove_upsert_new (l : list A) (x : A) :
  existsb (has_id (id x)) l = false -> remove (upsert l x) (id x) = l.
Proof.
  intros Hn.
  destruct (upsert_cases l x)
    as [[_ ->] | (before & old & after & -> & Hid & Hb & ->)].
  - unfold remove. rewrite filter_app. cbn [filter].
    rewrite has_id_refl. cbn [negb]. rewrite app_nil_r.
    apply remove_absent. exact Hn.
  - rewrite existsb_app in Hn. cbn [existsb] in Hn.
    rewrite (has_id_same old x _ Hid), has_id_refl, orb_true_r in Hn.
    discriminate.
Qed.

(** The same, by recursion on the array. *)
Fixpoint put (l : list A) (x : A) : list A :=
  match l with
  | [] => [x]
  | y :: rest => if has_id (id x) y then x :: rest else y :: put rest x
  end.

Lemma put_new (l : list A) (x : A) :
  existsb (has_id (id x)) l = false -> put l x = l ++ [x].
Proof.
  induction l as [|y l IH]; cbn [existsb put app]; [reflexivity|].
  destruct (has_id (id x) y); [discriminate|].
  intros H. rewrite (IH H). reflexivity.
Qed.

Lemma put_old (before after : list A) (old x : A) :
  existsb (has_id (id x)) before = false -> id old = id x ->
  put (before ++ old :: after) x = before ++ x :: after.
Proof.
  intros Hb Hid.
  induction before as [|y before IH]; cbn [existsb put app] in *.
  - rewrite (has_id_same old x _ Hid), has_id_refl. reflexivity.
  - destruct (has_id (id x) y); [discriminate|].
    rewrite (IH Hb). reflexivity.
Qed.

Lemma upsert_put (l : list A) (x : A) : upsert l x = put l x.
Proof.
  destruct (upsert_cases l x)
    as [[Hn ->] | (before & old & after & -> & Hid & Hb & ->)].
  - symmetry. apply put_new. exact Hn.
  - symmetry. apply put_old; assumption.
Qed.

Lemma upsert_twice (l : list A) (x : A) : upsert (upsert l x) x = upsert l x.
Proof.
  rewrite !upsert_put.
  induction l as [|y l IH]; cbn [put].
  - rewrite has_id_refl. reflexivity.
  - destruct (has_id (id x) y) eqn:E; cbn [put].
    + rewrite has_id_refl. reflexivity.
    + rewrite E, IH. reflexivity.
Qed.

Lemma length_upsert (l : list A) (x : A) :
  List.length (upsert l x)
  = if existsb (has_id (id x)) l then List.length l
    else S (List.length l).
Proof.
  rewrite <- (length_map id (upsert l x)), ids_upsert.
  destruct (existsb _ l); rewrite ?length_app, length_map; cbn; lia.
Qed.

Lemma In_upsert (l : list A) (x : A) : In x (upsert l x).
Proof.
  destruct (upsert_cases l x)
    as [[_ ->] | (before & old & after & _ & _ & _ & ->)];
    apply in_or_app; right; left; reflexivity.
Qed.

Lemma find_remove (l : list A) (k : string) :
  find (has_id k) (remove l k) = None.
Proof.
  apply find_absent. apply not_true_is_false. intros H.
  apply existsb_exists in H. destruct H as (x & Hin & Hx).
  apply filter_In in Hin. destruct Hin as [_ Hin].
  rewrite Hx in Hin. discriminate.
Qed.

End Records.

Import LocalStorage.

Lemma getWorkouts_saveWorkout w s :
  getWorkouts (saveWorkout w s) = upsert Workout.id (getWorkouts s) w.
Proof. reflexivity. Qed.

Lemma getWorkouts_deleteWorkout k s :
  getWorkouts (deleteWorkout k s) = remove Workout.id (getWorkouts s) k.
Proof. reflexivity. Qed.

Lemma getMeals_saveMeal m s :
  getMeals (saveMeal m s) = upsert Meal.id (getMeals s) m.
Proof. reflexivity. Qed.

Lemma getMeals_deleteMeal k s :
  getMeals (deleteMeal k s) = remove Meal.id (getMeals s) k.
Proof. reflexivity. Qed.

(** [workouts.find(w => w.id === id)] *)
Definition workoutById (id : string) (s : LocalStorage.t) : option Workout.t :=
  find (fun w => JS.str_eq (Workout.id w) id) (getWorkouts s).

Definition mealById (id : string) (s : LocalStorage.t) : option Meal.t :=
  find (fun m => JS.str_eq (Meal.id m) id) (getMeals s).

(** X12. After a workout is saved, the stored workout found under its
    id is the one that was saved, and it is listed on its date; what is
    found under any other id is what was found before, and the meals and
    the profile are as they were. *)
Theorem saved_workout_found (w : Workout.t) (s : LocalStorage.t) :
  let s' := saveWorkout w s in
  workoutById (Workout.id w) s' = Some w
  /\ In w (getWorkoutsByDate (Workout.date w) s')
  /\ (forall id, id <> Workout.id w -> workoutById id s' = workoutById id s)
  /\ getMeals s' = getMeals s
  /\ getProfile s' = getProfile s.
Proof.
  cbv zeta. unfold workoutById, getWorkoutsByDate.
  rewrite getWorkouts_saveWorkout.
  split; [|split; [|split; [|split; reflexivity]]].
  - change (fun w0 => JS.str_eq (Workout.id w0) (Workout.id w))
      with (has_id Workout.id (Workout.id w)).
    rewrite find_upsert, String.eqb_refl. reflexivity.
  - apply filter_In. split; [apply In_upsert | apply str_eq_true; reflexivity].
  - intros id Hid.
    change (fun w0 => JS.str_eq (Workout.id w0) id)
      with (has_id Workout.id id).
    rewrite find_upsert.
    replace (String.eqb (Workout.id w) id) with false; [reflexivity|].
    symmetry. apply String.eqb_neq. congruence.
Qed.

(** X13. Saving and deleting keep the ids of the stored workouts
    distinct: a save changes the list of ids only by putting a new id
    last, so the list grows by one for a new id and keeps its length
    and its order for an id it has. *)
Theorem workout_ids_stay_distinct (w : Workout.t) (id : string)
    (s : LocalStorage.t) :
  NoDup (map Workout.id (getWorkouts s)) ->
  NoDup (map Workout.id (getWorkouts (saveWorkout w s)))
  /\ NoDup (map Workout.id (getWorkouts (deleteWorkout id s)))
  /\ map Workout.id (getWorkouts (saveWorkout w s))
     = (if existsb (fun x => JS.str_eq (Workout.id x) (Workout.id w))
                   (getWorkouts s)
        then map Workout.id (getWorkouts s)
        else map Workout.id (getWorkouts s) ++ [Workout.id w]).
Proof.
  intros H. rewrite getWorkouts_saveWorkout, getWorkouts_deleteWorkout.
  split; [|split].
  - apply NoDup_upsert. exact H.
  - rewrite remove_ids. apply NoDup_filter. exact H.
  - apply ids_upsert.
Qed.

(** X14. Deleting by id leaves no stored workout with that id; deleting
    an id that is not stored changes nothing; and deleting a workout
    right after saving it under a new id gives back the workouts there
    were. *)
Theorem deleted_workout_gone (w : Workout.t) (id : string)
    (s : LocalStorage.t) :
  workoutById id (deleteWorkout id s) = None
  /\ (workoutById id s = None ->
      getWorkouts (deleteWorkout id s) = getWorkouts s)
  /\ (workoutById (Workout.id w) s = None ->
      getWorkouts (deleteWorkout (Workout.id w) (saveWorkout w s))
      = getWorkouts s).
Proof.
  unfold workoutById.
  rewrite !getWorkouts_deleteWorkout, getWorkouts_saveWorkout.
  split; [|split].
  - apply (find_remove Workout.id).
  - intros Hf. apply remove_absent, find_absent. exact Hf.
  - intros Hf. apply remove_upsert_new, find_absent. exact Hf.
Qed.

(** X15. Saving the same workout twice is saving it once; and a save
    under an id that is stored puts the workout in the place of the
    first stored workout with that id, the others staying where they
    are. *)
Theorem saved_workout_replaces (w : Workout.t) (s : LocalStorage.t) :
  saveWorkout w (saveWorkout w s) = saveWorkout w s
  /\ forall before old after,
       getWorkouts s = before ++ old :: after ->
       Workout.id old = Workout.id w ->
       ~ In (Workout.id w) (map Workout.id before) ->
       getWorkouts (saveWorkout w s) = before ++ w :: after.
Proof.
  split.
  - assert (E : getWorkouts (saveWorkout w (saveWorkout w s))
                = getWorkouts (saveWorkout w s))
      by (rewrite !getWorkouts_saveWorkout; apply upsert_twice).
    unfold saveWorkout at 1 3. unfold setWorkouts.
    cbv zeta. f_equal. f_equal. exact E.
  - intros before old after El Hid Hb.
    rewrite getWorkouts_saveWorkout, El, upsert_put.
    apply put_old; [|exact Hid].
    apply not_true_is_false. intros H. apply Hb, existsb_has_id. exact H.
Qed.

(** X16. The stored meals behave as the stored workouts do: a saved meal
    is the one found under its id and is listed on its date, the other
    ids and the workouts are untouched, a second save of the same meal
    changes nothing, a deleted id is no more found, and deleting a meal
    saved under a new id gives back the meals there were. *)
Theorem saved_meal_found (m : Meal.t) (s : LocalStorage.t) :
  let s' := saveMeal m s in
  mealById (Meal.id m) s' = Some m
  /\ In m (getMealsByDate (Meal.date m) s')
  /\ (forall id, id <> Meal.id m -> mealById id s' = mealById id s)
  /\ getWorkouts s' = getWorkouts s
  /\ saveMeal m s' = s'
  /\ (forall id, mealById id (deleteMeal id s) = None)
  /\ (mealById (Meal.id m) s = None ->
      getMeals (deleteMeal (Meal.id m) s') = getMeals s).
Proof.
  cbv zeta. unfold mealById, getMealsByDate.
  rewrite getMeals_deleteMeal, getMeals_saveMeal.
  split; [|split; [|split; [|split; [reflexivity | split; [|split]]]]].
  - change (fun m0 => JS.str_eq (Meal.id m0) (Meal.id m))
      with (has_id Meal.id (Meal.id m)).
    rewrite find_upsert, String.eqb_refl. reflexivity.
  - apply filter_In. split; [apply In_upsert | apply str_eq_true; reflexivity].
  - intros id Hid.
    change (fun m0 => JS.str_eq (Meal.id m0) id) with (has_id Meal.id id).
    rewrite find_upsert.
    replace (String.eqb (Meal.id m) id) with false; [reflexivity|].
    symmetry. apply String.eqb_neq. congruence.
  - assert (E : getMeals (saveMeal m (saveMeal m s)) = getMeals (saveMeal m s))
      by (rewrite !getMeals_saveMeal; apply upsert_twice).
    unfold saveMeal at 1 3. unfold setMeals. cbv zeta. f_equal. f_equal.
    exact E.
  - intros id. rewrite getMeals_deleteMeal. apply (find_remove Meal.id).
  - intros Hf. apply remove_upsert_new, find_absent. exact Hf.
Qed.

Lemma workout_ids_stay_distinct_witness :
  let w := run "c" "2024-01-02" 20 200 in
  NoDup (map Workout.id (getWorkouts (saveWorkout w two_workouts)))
  /\ NoDup (map Workout.id (getWorkouts (deleteWorkout "a" two_workouts)))
  /\ map Workout.id (getWorkouts (saveWorkout w two_workouts))
     = ["a"; "b"; "c"]%string.
Proof.
  apply (workout_ids_stay_distinct (run "c" "2024-01-02" 20 200) "a"
           two_workouts).
  repeat constructor; cbn; intuition discriminate.
Defined.

Lemma deleted_workout_gone_witness :
  LocalStorage.getWorkouts
    (deleteWorkout "c" (saveWorkout (run "c" "2024-01-02" 20 200) two_workouts))
  = LocalStorage.getWorkouts two_workouts.
Proof.
  apply (proj2 (proj2 (deleted_workout_gone (run "c" "2024-01-02" 20 200) "c"
                         two_workouts))).
  reflexivity.
Defined.

Lemma saved_workout_replaces_witness :
  LocalStorage.getWorkouts
    (saveWorkout (run "b" "2024-01-05" 25 250) two_workouts)
  = [run "a" "2024-01-01" 30 300; run "b" "2024-01-05" 25 250].
Proof.
  apply (proj2 (saved_workout_replaces (run "b" "2024-01-05" 25 250)
                  two_workouts)
           [run "a" "2024-01-01" 30 300] (lift "b" "2024-01-01" 45 400) []).
  - reflexivity.
  - reflexivity.
  - cbn. intuition discriminate.
Defined.

End LocalStorageFacts.

(* ================================================================== *)
(** * Properties of the records in the database *)
(* ================================================================== *)

Module SupabaseFacts.
Import Supabase.

(** X17. A profile and a meal come back from the database as they were
    saved: reading the row that [saveProfile] upserts gives the profile,
    and reading the rows that [saveMeal] upserts gives the meals, in the
    order of the rows.  A query that fails gives no profile and no
    meals, and so does, for the meals, a result with no data. *)
Theorem profile_and_meals_round_trip (userId : string)
    (profile : UserProfile.t) (meals : list Meal.t) :
  getProfile (Success (saveProfile userId profile)) = Some profile
  /\ getMeals (Success (Some (map (saveMeal userId) meals))) = meals
  /\ (forall message, getProfile (Failure message) = None)
  /\ (forall message, getMeals (Failure message) = [])
  /\ getMeals (Success None) = [].
Proof.
  split; [|split; [|repeat split]].
  - destruct profile. reflexivity.
  - unfold getMeals. cbn [nullish]. rewrite map_map.
    rewrite <- (map_id meals) at 2. apply map_ext.
    intros m. destruct m. reflexivity.
Qed.

(** What reading back does to a workout: an absent [recurring] flag
    comes back as [false]. *)
Definition reloaded (w : Workout.t) : Workout.t :=
  {| Workout.id := Workout.id w;
     Workout.date := Workout.date w;
     Workout.time := Workout.time w;
     Workout.exerciseType := Workout.exerciseType w;
     Workout.duration := Workout.duration w;
     Workout.intensity := Workout.intensity w;
     Workout.caloriesBurned := Workout.caloriesBurned w;
     Workout.recurring := Some (nullish (Workout.recurring w) false);
     Workout.recurrenceType := Workout.recurrenceType w;
     Workout.recurrenceInterval := Workout.recurrenceInterval w;
     Workout.recurrenceDays := Workout.recurrenceDays w;
     Workout.recurrenceEnd := Workout.recurrenceEnd w |}.

Lemma reload_saved_workouts (userId : string) (workouts : list Workout.t) :
  getWorkouts (Success (Some (map (saveWorkout userId) workouts)))
  = map reloaded workouts.
Proof.
  unfold getWorkouts. cbn [nullish]. rewrite map_map. reflexivity.
Qed.

Lemma isWorkoutOnDate_reloaded host (w : Workout.t) d :
  Recurrence.isWorkoutOnDate host (reloaded w) d
  = Recurrence.isWorkoutOnDate host w d.
Proof.
  unfold Recurrence.isWorkoutOnDate.
  cbn [reloaded Workout.date Workout.recurring Workout.recurrenceType
       Workout.recurrenceEnd Workout.recurrenceDays
       Workout.recurrenceInterval].
  replace (JS.truthy_bool (Some (nullish (Workout.recurring w) false)))
    with (JS.truthy_bool (Workout.recurring w))
    by (destruct (Workout.recurring w) as [[|]|]; reflexivity).
  reflexivity.
Qed.

Lemma filter_map_reloaded (p : Workout.t -> bool) (l : list Workout.t) :
  (forall w, p (reloaded w) = p w) ->
  filter p (map reloaded l) = map reloaded (filter p l).
Proof.
  intros Hp. induction l as [|w l IH]; cbn [map filter]; [reflexivity|].
  rewrite Hp. destruct (p w); cbn [map]; rewrite IH; reflexivity.
Qed.

Lemma reduce_reloaded (f : Workout.t -> Z) (l : list Workout.t) (init : Z) :
  (forall w, f (reloaded w) = f w) ->
  Dashboard.reduce (map reloaded l) (fun s w => s + f w) init
  = Dashboard.reduce l (fun s w => s + f w) init.
Proof.
  intros Hf. rewrite !DashboardFacts.reduce_sum, map_map. do 2 f_equal.
  apply map_ext. exact Hf.
Qed.

(** X18. Workouts come back from the database with their schedule: a
    workout read from the row that [saveWorkout] upserts is active on
    the same dates as the workout that was saved, so the period totals
    computed from the reloaded workouts are those computed from the
    saved ones.  The workout itself comes back unchanged when its
    [recurring] flag is set, and with the flag [false] when it was
    absent. *)
Theorem workouts_round_trip (host : Host.t) (userId : string)
    (workouts : list Workout.t) (meals : list Meal.t)
    (dates : list DateFns.JSDate) :
  let back :=
    getWorkouts (Success (Some (map (saveWorkout userId) workouts))) in
  back = map reloaded workouts
  /\ (forall w, Workout.recurring w <> None -> reloaded w = w)
  /\ (forall w d, Recurrence.isWorkoutOnDate host (reloaded w) d
                  = Recurrence.isWorkoutOnDate host w d)
  /\ Dashboard.totalStats host
       (Dashboard.aggregateForPeriod host dates back meals)
     = Dashboard.totalStats host
         (Dashboard.aggregateForPeriod host dates workouts meals).
Proof.
  cbv zeta. rewrite reload_saved_workouts.
  split; [reflexivity | split; [|split]].
  - intros w Hw. destruct w as [? ? ? ? ? ? ? [r|] ? ? ? ?];
      [reflexivity | contradiction].
  - intros w d. apply isWorkoutOnDate_reloaded.
  - unfold Dashboard.totalStats, Dashboard.reduce.
    change (fold_left _ ?l ?a)
      with (fold_left (DashboardFacts.add_day host) l a).
    rewrite !DashboardFacts.fold_add_day.
    assert (E : forall f : DayData.t -> Z,
              (f = DayData.caloriesOut \/ f = DayData.workoutMinutes
               \/ f = DayData.workoutCount) ->
              map f (Dashboard.aggregateForPeriod host dates
                       (map reloaded workouts) meals)
              = map f (Dashboard.aggregateForPeriod host dates workouts meals)).
    { intros f Hf. unfold Dashboard.aggregateForPeriod. rewrite !map_map.
      apply map_ext. intros day.
      rewrite (filter_map_reloaded _ workouts
                 (fun w => isWorkoutOnDate_reloaded host w day)).
      destruct Hf as [-> | [-> | ->]];
        cbn [DayData.caloriesOut DayData.workoutMinutes
             DayData.workoutCount];
        rewrite ?length_map; try reflexivity;
        apply reduce_reloaded; reflexivity. }
    assert (M : forall f : DayData.t -> Q,
              (f = DayData.caloriesIn \/ f = DayData.protein
               \/ f = DayData.carbs \/ f = DayData.fat) ->
              map f (Dashboard.aggregateForPeriod host dates
                       (map reloaded workouts) meals)
              = map f (Dashboard.aggregateForPeriod host dates workouts meals)).
    { intros f Hf. unfold Dashboard.aggregateForPeriod. rewrite !map_map.
      apply map_ext. intros day.
      destruct Hf as [-> | [-> | [-> | ->]]]; reflexivity. }
    rewrite !E by tauto. rewrite !M by tauto. reflexivity.
Qed.

End SupabaseFacts.

(* ================================================================== *)
(** * The today card, the day period and the training list *)
(* ================================================================== *)

Module TodayFacts.
Import DateFns Dashboard DashboardToday JSFacts DashboardFacts.
Import DashboardStats.

Section Today.
Variable host : Host.t.
Variable workouts : list Workout.t.
Variable meals : list Meal.t.
Variable selectedDate : JSDate.

Lemma filter_twice {A : Type} (p q : A -> bool) (l : list A) :
  filter p (filter q l) = filter (fun x => q x && p x) l.
Proof.
  induction l as [|x l IH]; cbn [filter]; [reflexivity|].
  destruct (q x); cbn [filter andb]; [|exact IH].
  destruct (p x); rewrite IH; reflexivity.
Qed.

Lemma on_own_date (w : Workout.t) :
  JS.str_eq (Workout.date w) (format selectedDate) = true ->
  Recurrence.isWorkoutOnDate host w selectedDate = true.
Proof.
  intros E. unfold Recurrence.isWorkoutOnDate. rewrite E. reflexivity.
Qed.

Lemma not_recurring (w : Workout.t) :
  JS.truthy_bool (Workout.recurring w) = false ->
  Recurrence.isWorkoutOnDate host w selectedDate
  = JS.str_eq (Workout.date w) (format selectedDate).
Proof.
  intros E. unfold Recurrence.isWorkoutOnDate. rewrite E.
  destruct (JS.str_eq _ _); reflexivity.
Qed.

(** X19. The workouts the training page lists for a day are, in the same
    order, those of the dashboard's list for that day that are dated
    that day: every workout the training page shows is counted by the
    dashboard, which adds the recurring workouts active on the day; with
    no recurring workout the two lists are the same. *)
Theorem training_list_in_dashboard :
  Training.dayWorkouts workouts selectedDate
  = filter (fun w => JS.str_eq (Workout.date w) (format selectedDate))
           (dayWorkouts host workouts selectedDate)
  /\ incl (Training.dayWorkouts workouts selectedDate)
          (dayWorkouts host workouts selectedDate)
  /\ (Forall (fun w => JS.truthy_bool (Workout.recurring w) = false) workouts ->
      dayWorkouts host workouts selectedDate
      = Training.dayWorkouts workouts selectedDate).
Proof.
  unfold Training.dayWorkouts, dayWorkouts. cbv zeta.
  set (dated := fun w => JS.str_eq (Workout.date w) (format selectedDate)).
  set (active := fun w => Recurrence.isWorkoutOnDate host w selectedDate).
  assert (E : filter dated workouts = filter dated (filter active workouts)).
  { rewrite filter_twice. apply filter_ext_in. intros w _.
    subst dated active. cbv beta.
    destruct (JS.str_eq (Workout.date w) (format selectedDate)) eqn:Ed.
    - rewrite (on_own_date w Ed). reflexivity.
    - rewrite andb_false_r. reflexivity. }
  split; [exact E | split].
  - rewrite E. intros w Hw. apply filter_In in Hw. tauto.
  - intros Hall. apply filter_ext_in. intros w Hw.
    apply not_recurring. rewrite Forall_forall in Hall. exact (Hall w Hw).
Qed.

Lemma fold_macros (l : list Meal.t) (acc : Macros.t) :
  fold_left
    (fun acc m =>
       {| Macros.protein :=
            JS.add (Host.fl host) (Macros.protein acc) (Meal.totalProtein m);
          Macros.carbs :=
            JS.add (Host.fl host) (Macros.carbs acc) (Meal.totalCarbs m);
          Macros.fat :=
            JS.add (Host.fl host) (Macros.fat acc) (Meal.totalFat m) |}) l acc
  = {| Macros.protein :=
         fsum (Host.fl host) (Macros.protein acc) (map Meal.totalProtein l);
       Macros.carbs :=
         fsum (Host.fl host) (Macros.carbs acc) (map Meal.totalCarbs l);
       Macros.fat :=
         fsum (Host.fl host) (Macros.fat acc) (map Meal.totalFat l) |}.
Proof.
  unfold fsum. revert acc.
  induction l as [|m l IH]; intros acc; cbn [fold_left map].
  - destruct acc. reflexivity.
  - rewrite IH. reflexivity.
Qed.

(** The evaluator and [format] read the calendar day of a date, not its
    time of day. *)
Lemma same_day_format (a b : JSDate) :
  localDay a = localDay b -> format a = format b.
Proof.
  intros E. unfold format, getFullYear, getMonth, getDate. rewrite E.
  reflexivity.
Qed.

Lemma same_day_active (w : Workout.t) (a b : JSDate) :
  localDay a = localDay b ->
  Recurrence.isWorkoutOnDate host w a = Recurrence.isWorkoutOnDate host w b.
Proof.
  intros E. unfold Recurrence.isWorkoutOnDate, Recurrence.diffDays, getDay,
    setHours0.
  rewrite (same_day_format a b E), E. reflexivity.
Qed.

Lemma same_day_lists (a b : JSDate) :
  localDay a = localDay b ->
  dayWorkouts host workouts a = dayWorkouts host workouts b
  /\ dayMeals meals a = dayMeals meals b.
Proof.
  intros E. unfold dayWorkouts, dayMeals, dateStr. split.
  - apply filter_ext. intros w. apply same_day_active, E.
  - rewrite (same_day_format a b E). reflexivity.
Qed.

Lemma macros_sums (d : JSDate) :
  macros host meals d
  = {| Macros.protein :=
         fsum (Host.fl host) 0 (map Meal.totalProtein (dayMeals meals d));
       Macros.carbs :=
         fsum (Host.fl host) 0 (map Meal.totalCarbs (dayMeals meals d));
       Macros.fat :=
         fsum (Host.fl host) 0 (map Meal.totalFat (dayMeals meals d)) |}.
Proof. unfold macros, reduce. rewrite fold_macros. reflexivity. Qed.

(** Whole numbers whose sizes add up to 2^52 at most. *)
Definition whole (l : list Q) : Prop :=
  Forall isInteger l /\ size l <= 2 ^ 52.

(** Adding the sum of some of a list of whole numbers to 0 leaves it as
    it is. *)
Lemma add_zero_whole {A : Type} (f : A -> Q) (p : A -> bool) (l : list A) :
  JS.binary64 (Host.fl host) -> whole (map f l) ->
  (JS.add (Host.fl host) 0 (fsum (Host.fl host) 0 (map f (filter p l)))
   == fsum (Host.fl host) 0 (map f (filter p l)))%Q.
Proof.
  intros Hfl [Hl Hs].
  assert (Hd : Forall isInteger (map f (filter p l))).
  { rewrite Forall_map in *. apply Forall_forall. intros x Hx.
    apply filter_In in Hx. rewrite Forall_forall in Hl. apply Hl, Hx. }
  pose proof (size_filter f p l) as Hs'.
  pose proof (sumZ_size (map f (filter p l))) as Hz.
  assert (E : (fsum (Host.fl host) 0 (map f (filter p l))
               == inject_Z (sumZ (map Qfloor (map f (filter p l)))))%Q).
  { rewrite (fsum_whole (Host.fl host) _ 0%Q 0 Hfl);
      [reflexivity | reflexivity | exact Hd | cbn [Z.abs]; lia]. }
  unfold JS.add.
  assert (E0 : (0 + fsum (Host.fl host) 0 (map f (filter p l))
                == inject_Z (sumZ (map Qfloor (map f (filter p l)))))%Q)
    by (rewrite E; ring).
  rewrite (fl_integer _ _ _ Hfl E0) by lia. ring.
Qed.

(** X20. The statistics of the period of one day, which is the day the
    page was opened on, and the Today card, which is for the date last
    clicked: when the two are the same calendar day, the calories out
    and the workout count of the period are the card's calories out and
    the length of the card's list; the calories in and the three macros
    of the period are the card's added to 0, one more float addition,
    and the balance is taken from that sum.  For meals of whole numbers,
    their sizes adding up to 2^52 at most, the addition changes nothing:
    the calories in, the macros and (the sizes of the calories burned
    counted too) the balance of the period are the card's. *)
Theorem today_is_day_period (now : JSDate) :
  localDay selectedDate = localDay now ->
  let fl := Host.fl host in
  let totals :=
    totalStats host (aggregateForPeriod host [now] workouts meals) in
  let card := macros host meals selectedDate in
  getPeriodDates StatsPeriod.day now = Some [now]
  /\ Totals.caloriesIn totals = JS.add fl 0 (caloriesIn host meals selectedDate)
  /\ Totals.caloriesOut totals = caloriesOut host workouts selectedDate
  /\ periodBalance host totals
     = JS.sub fl (Totals.caloriesIn totals)
              (inject_Z (caloriesOut host workouts selectedDate))
  /\ Totals.protein totals = JS.add fl 0 (Macros.protein card)
  /\ Totals.carbs totals = JS.add fl 0 (Macros.carbs card)
  /\ Totals.fat totals = JS.add fl 0 (Macros.fat card)
  /\ Totals.workoutCount totals
     = Z.of_nat (List.length (dayWorkouts host workouts selectedDate))
  /\ (JS.binary64 fl ->
      (whole (map Meal.totalCalories meals) ->
       Totals.caloriesIn totals == caloriesIn host meals selectedDate)
      /\ (whole (map Meal.totalProtein meals) ->
          Totals.protein totals == Macros.protein card)
      /\ (whole (map Meal.totalCarbs meals) ->
          Totals.carbs totals == Macros.carbs card)
      /\ (whole (map Meal.totalFat meals) ->
          Totals.fat totals == Macros.fat card)
      /\ (Forall isInteger (map Meal.totalCalories meals) ->
          (size (map Meal.totalCalories meals)
           + sumZ (map (fun w => Z.abs (Workout.caloriesBurned w)) workouts)
           <= 2 ^ 52)%Z ->
          periodBalance host totals
          == balance host workouts meals selectedDate))%Q.
Proof.
  intros Hday. cbv zeta. split; [reflexivity|].
  destruct (same_day_lists now selectedDate (eq_sym Hday)) as [EW EM].
  assert (Hdata : aggregateForPeriod host [now] workouts meals
    = [ {| DayData.date := now;
           DayData.caloriesIn := caloriesIn host meals selectedDate;
           DayData.caloriesOut := caloriesOut host workouts selectedDate;
           DayData.balance := balance host workouts meals selectedDate;
           DayData.protein :=
             Macros.protein (macros host meals selectedDate);
           DayData.carbs := Macros.carbs (macros host meals selectedDate);
           DayData.fat := Macros.fat (macros host meals selectedDate);
           DayData.workoutMinutes :=
             reduce (dayWorkouts host workouts selectedDate)
                    (fun s w => s + Workout.duration w) 0;
           DayData.workoutCount :=
             Z.of_nat (List.length (dayWorkouts host workouts selectedDate));
           DayData.workouts := dayWorkouts host workouts selectedDate |} ]).
  { rewrite macros_sums. cbn [Macros.protein Macros.carbs Macros.fat].
    unfold balance, caloriesIn, caloriesOut. rewrite <- EW, <- EM.
    unfold aggregateForPeriod, dayWorkouts, dayMeals, dateStr. cbn [map].
    rewrite !reduce_fsum. reflexivity. }
  pose proof (aggregate_whole host [now] workouts meals) as Hwhole.
  cbv zeta in Hwhole. rewrite Hdata in Hwhole.
  unfold totalStats, reduce.
  change (fold_left _ ?l ?a) with (fold_left (add_day host) l a).
  pose proof (whole_period host) as Hperiod. cbv zeta in Hperiod.
  rewrite Hdata. clear Hdata.
  set (day := {| DayData.date := now |}) in *.
  unfold periodBalance. cbn [fold_left add_day Totals.caloriesIn
    Totals.caloriesOut Totals.protein Totals.carbs Totals.fat
    Totals.workoutMinutes Totals.workoutCount].
  subst day. cbn [DayData.caloriesIn DayData.caloriesOut DayData.protein
    DayData.carbs DayData.fat DayData.workoutCount].
  rewrite !Z.add_0_l.
  repeat (split; [reflexivity|]).
  intros Hfl.
  rewrite macros_sums. cbn [Macros.protein Macros.carbs Macros.fat].
  unfold caloriesIn at 1 2. rewrite reduce_fsum. unfold dayMeals.
  split; [|split; [|split; [|split]]];
    try (intros Hw; apply add_zero_whole; assumption).
  intros Hm Hb. rewrite Forall_map in Hm.
  specialize (Hwhole Hfl Hm Hb).
  set (A := size (map Meal.totalCalories meals)) in *.
  set (W := sumZ (map (fun w => Z.abs (Workout.caloriesBurned w)) workouts))
    in *.
  destruct (Hperiod A W _ Hfl Hwhole ltac:(cbn [List.length]; lia))
    as [_ Hsum].
  unfold periodBalance in Hsum.
  cbn [fold_left add_day Totals.caloriesIn Totals.caloriesOut map sumQ
       DayData.caloriesIn DayData.caloriesOut DayData.balance] in Hsum.
  rewrite Z.add_0_l in Hsum.
  transitivity (balance host workouts meals selectedDate + 0)%Q; [|ring].
  exact Hsum.
Qed.

End Today.

(** A date at half past eight in the evening. *)
Definition evening (y m d : Z) : JSDate :=
  {| localDay := localDay (ymd y m d); timeInDay := 73800000 |}.

Lemma today_is_day_period_witness :
  Totals.caloriesOut
    (totalStats Recurrence.utc
       (aggregateForPeriod Recurrence.utc [evening 2024 1 1] two_days []))
  = caloriesOut Recurrence.utc two_days (ymd 2024 1 1).
Proof.
  apply (today_is_day_period Recurrence.utc two_days [] (ymd 2024 1 1)
           (evening 2024 1 1) eq_refl).
Defined.

Lemma training_list_in_dashboard_witness :
  dayWorkouts Recurrence.utc two_days (ymd 2024 1 1)
  = Training.dayWorkouts two_days (ymd 2024 1 1).
Proof.
  apply (proj2 (proj2 (training_list_in_dashboard Recurrence.utc two_days
                         (ymd 2024 1 1)))).
  repeat constructor.
Defined.

End TodayFacts.

(* ================================================================== *)
(** * Properties of schedules and streaks *)
(* ================================================================== *)

Module ScheduleFacts.
Import Calendar DateFns DateFnsFacts JSFacts Recurrence Dashboard.
Import DashboardFacts.

Section Schedule.
Variable host : Host.t.

(** X21. Nothing is scheduled before it starts, and only the three
    recurrence types schedule anything: a workout is not active on a date
    whose string is smaller than its own date's, which for calendar dates
    of years 1 to 9999 is any earlier day; and a workout whose recurrence
    type is a string other than daily, weekly and custom is active on its
    own date only. *)
Theorem inactive_before_start (w : Workout.t) (d : JSDate) :
  (JS.str_le (Workout.date w) (format d) = false ->
   isWorkoutOnDate host w d = false)
  /\ (forall start,
        Workout.date w = format start ->
        four_digit_year (localDay start) -> four_digit_year (localDay d) ->
        localDay d < localDay start ->
        isWorkoutOnDate host w d = false)
  /\ (forall ty,
        Workout.recurrenceType w = Some ty ->
        ty <> "daily"%string -> ty <> "weekly"%string ->
        ty <> "custom"%string ->
        isWorkoutOnDate host w d = JS.str_eq (Workout.date w) (format d)).
Proof.
  assert (H1 : JS.str_le (Workout.date w) (format d) = false ->
               isWorkoutOnDate host w d = false).
  { intros Hle. destruct (isWorkoutOnDate host w d) eqn:E; [|reflexivity].
    apply (active_not_before host) in E. congruence. }
  split; [exact H1 | split].
  - intros start Es Hs Hd Hlt. apply H1.
    rewrite Es, format_le by assumption. apply Z.leb_gt. exact Hlt.
  - intros ty Ety Hd Hw Hc. unfold isWorkoutOnDate. rewrite Ety.
    destruct (JS.str_eq (Workout.date w) (format d)); [reflexivity|].
    cbn [JS.is_str]. apply str_eq_false in Hd, Hw, Hc.
    rewrite Hd, Hw, Hc.
    repeat match goal with
           | |- (if ?b then _ else _) = _ => destruct b
           end; reflexivity.
Qed.

Lemma hasActivity_incl ws ws' ms ms' d :
  incl ws ws' -> incl ms ms' ->
  hasActivity host ws ms d = true -> hasActivity host ws' ms' d = true.
Proof.
  intros Hw Hm. unfold hasActivity. rewrite !orb_true_iff, !existsb_exists.
  intros [(w & Hin & Hx) | (m & Hin & Hx)].
  - left. exists w. split; [apply Hw, Hin | exact Hx].
  - right. exists m. split; [apply Hm, Hin | exact Hx].
Qed.

Lemma streak_loop_incl ws ws' ms ms' :
  incl ws ws' -> incl ms ms' ->
  forall fuel streak checkDate n',
    streak_loop host ws' ms' fuel streak checkDate = Some n' ->
    exists n, streak_loop host ws ms fuel streak checkDate = Some n
              /\ streak <= n <= n'.
Proof.
  intros Hw Hm. induction fuel as [|fuel IH]; intros streak checkDate n';
    cbn [streak_loop]; [discriminate|].
  destruct (hasActivity host ws' ms' checkDate) eqn:E'; cbn [negb].
  - intros H. apply IH in H. destruct H as (n & Hn & Hle).
    destruct (hasActivity host ws ms checkDate); cbn [negb].
    + exists n. split; [exact Hn | lia].
    + exists streak. split; [reflexivity | lia].
  - intros [= <-].
    destruct (hasActivity host ws ms checkDate) eqn:E; cbn [negb].
    + apply (hasActivity_incl _ _ _ _ _ Hw Hm) in E. congruence.
    + exists streak. split; [reflexivity | lia].
Qed.

(** X22. Recording more never shortens the streak, and deleting never
    lengthens it: when every workout and meal of one store is in
    another, and the scan of the larger store ends within the fuel, the
    scan of the smaller one ends too, on a streak that is not
    longer. *)
Theorem more_records_longer_streak (fuel : nat)
    (workouts workouts' : list Workout.t) (meals meals' : list Meal.t)
    (today : JSDate) (n' : Z) :
  incl workouts workouts' -> incl meals meals' ->
  currentStreak host fuel workouts' meals' today = Some n' ->
  exists n, currentStreak host fuel workouts meals today = Some n
            /\ 0 <= n <= n'.
Proof.
  intros Hw Hm. unfold currentStreak. apply streak_loop_incl; assumption.
Qed.

End Schedule.

Lemma more_records_longer_streak_witness :
  exists n,
    currentStreak utc 10 [jog "2024-01-10"] [] (ymd 2024 1 10) = Some n
    /\ 0 <= n <= 2.
Proof.
  apply (more_records_longer_streak utc 10
           [jog "2024-01-10"] [jog "2024-01-09"; jog "2024-01-10"] [] []
           (ymd 2024 1 10) 2).
  - intros w [<- | []]. right. left. reflexivity.
  - intros m [].
  - vm_compute. reflexivity.
Defined.

Lemma inactive_before_start_witness :
  isWorkoutOnDate utc
    (scheduled "2024-01-10" (Some true) (Some "daily"%string) None None None)
    (ymd 2024 1 9) = false.
Proof.
  apply (proj1 (proj2 (inactive_before_start utc
           (scheduled "2024-01-10" (Some true) (Some "daily"%string)
                      None None None)
           (ymd 2024 1 9))) (ymd 2024 1 10)).
  - reflexivity.
  - split; vm_compute; discriminate.
  - split; vm_compute; discriminate.
  - vm_compute. reflexivity.
Defined.

End ScheduleFacts.
